(** * sdk-framework-eliza: a shallow embedding of [src/index.ts]

    The development follows the source file from top to bottom:
    the personality hash ([generatePersonalityHash], SHA-256 of the
    JSON serialisation), the character and conversation classes, the
    [ElizaFramework] object with its three maps, and the message
    pipeline of [sendToConversation].  The storage adapter, the agent
    runtime and the generative backend are collaborators that the
    package only calls; they are modelled by the contract the package
    relies on, and the values they hand back are explicit arguments. *)

From Stdlib Require Import NArith List Ascii Lia.
From Stdlib Require String.
From stdpp Require Import base option list strings gmap sets sorting.

Set Default Proof Using "Type".
#[local] Set Warnings "-clear-no-such-hyp".
Local Open Scope N_scope.

(** ** SHA-256 (FIPS 180-4), on 32-bit words held in [N] *)

Module Sha256.

Definition w32 : N := 4294967296.
Definition wrap (x : N) : N := x mod w32.
Definition add32 (x y : N) : N := wrap (x + y).
Definition rotr (n x : N) : N :=
  N.lor (N.shiftr x n) (wrap (N.shiftl x (32 - n))).
Definition not32 (x : N) : N := N.lxor x (w32 - 1).

Definition Ch (x y z : N) : N := N.lxor (N.land x y) (N.land (not32 x) z).
Definition Maj (x y z : N) : N :=
  N.lxor (N.lxor (N.land x y) (N.land x z)) (N.land y z).
Definition Sigma0 (x : N) : N := N.lxor (N.lxor (rotr 2 x) (rotr 13 x)) (rotr 22 x).
Definition Sigma1 (x : N) : N := N.lxor (N.lxor (rotr 6 x) (rotr 11 x)) (rotr 25 x).
Definition sigma0 (x : N) : N := N.lxor (N.lxor (rotr 7 x) (rotr 18 x)) (N.shiftr x 3).
Definition sigma1 (x : N) : N := N.lxor (N.lxor (rotr 17 x) (rotr 19 x)) (N.shiftr x 10).

Definition K : list N :=
  [ 1116352408; 1899447441; 3049323471; 3921009573;  961987163; 1508970993;
    2453635748; 2870763221; 3624381080;  310598401;  607225278; 1426881987;
    1925078388; 2162078206; 2614888103; 3248222580; 3835390401; 4022224774;
     264347078;  604807628;  770255983; 1249150122; 1555081692; 1996064986;
    2554220882; 2821834349; 2952996808; 3210313671; 3336571891; 3584528711;
     113926993;  338241895;  666307205;  773529912; 1294757372; 1396182291;
    1695183700; 1986661051; 2177026350; 2456956037; 2730485921; 2820302411;
    3259730800; 3345764771; 3516065817; 3600352804; 4094571909;  275423344;
     430227734;  506948616;  659060556;  883997877;  958139571; 1322822218;
    1537002063; 1747873779; 1955562222; 2024104815; 2227730452; 2361852424;
    2428436474; 2756734187; 3204031479; 3329325298 ].

Definition H0 : list N :=
  [ 1779033703; 3144134277; 1013904242; 2773480762;
    1359893119; 2600822924;  528734635; 1541459225 ].

(** Big-endian packing of bytes into words and back. *)
Fixpoint words_of_bytes (bs : list N) : list N :=
  match bs with
  | b0 :: b1 :: b2 :: b3 :: rest =>
      (N.shiftl b0 24 + N.shiftl b1 16 + N.shiftl b2 8 + b3) :: words_of_bytes rest
  | _ => []
  end.

Definition be_bytes (width : nat) (x : N) : list N :=
  map (fun i => N.shiftr x (8 * N.of_nat i) mod 256) (rev (seq 0 width)).

(** Padding: a [0x80] byte, zeros up to 56 mod 64, the bit length on 64 bits. *)
Definition pad (msg : list N) : list N :=
  let len := N.of_nat (length msg) in
  let zeros := N.to_nat ((119 - len mod 64) mod 64) in
  msg ++ 128 :: repeat 0 zeros ++ be_bytes 8 (8 * len).

Fixpoint chunks (fuel : nat) (ws : list N) : list (list N) :=
  match fuel, ws with
  | O, _ | _, [] => []
  | S fuel', _ => firstn 16 ws :: chunks fuel' (skipn 16 ws)
  end.

(** Message schedule: [w] holds W_(t-1) ... W_0, newest first. *)
Fixpoint schedule (rounds : nat) (w : list N) : list N :=
  match rounds with
  | O => w
  | S rounds' =>
      let at_ i := nth i w 0 in
      let wt := add32 (add32 (sigma1 (at_ 1%nat)) (at_ 6%nat))
                      (add32 (sigma0 (at_ 14%nat)) (at_ 15%nat)) in
      schedule rounds' (wt :: w)
  end.

Definition round (st : list N) (kw : N * N) : list N :=
  match st with
  | [a; b; c; d; e; f; g; h] =>
      let t1 := add32 (add32 (add32 h (Sigma1 e)) (add32 (Ch e f g) (fst kw))) (snd kw) in
      let t2 := add32 (Sigma0 a) (Maj a b c) in
      [add32 t1 t2; a; b; c; add32 d t1; e; f; g]
  | _ => st
  end.

Definition compress (h : list N) (block : list N) : list N :=
  let w := rev (schedule 48 (rev block)) in
  let st := fold_left round (combine K w) h in
  map (fun p => add32 (fst p) (snd p)) (combine h st).

Definition digest (msg : list N) : list N :=
  let ws := words_of_bytes (pad msg) in
  let hs := fold_left compress (chunks (length ws) ws) H0 in
  concat (map (be_bytes 4) hs).

End Sha256.

(** ** Bytes, hexadecimal, strings *)

Definition bytes_of_string (s : string) : list N :=
  map (fun b => N.of_nat (Byte.to_nat b)) (String.list_byte_of_string s).

Definition hex_digit (n : N) : ascii :=
  if n <? 10 then ascii_of_N (48 + n) else ascii_of_N (87 + n).

Definition hex_byte (b : N) : string :=
  String (hex_digit (b / 16)) (String (hex_digit (b mod 16)) EmptyString).

Definition hex (bs : list N) : string := String.concat EmptyString (map hex_byte bs).

(** ** [JSON.stringify] on the values a character definition is made of

    A JavaScript object keeps its own properties in insertion order and
    [JSON.stringify] writes them in that order, so an object is a list of
    key/value pairs.  A string of the model stands for the UTF-8 encoding
    of the JavaScript string; the hash is taken over that encoding. *)

#[warnings="-register-all"]
Inductive JSON : Type :=
  | JNull
  | JBool (b : bool)
  | JString (s : string)
  | JArray (items : list JSON)
  | JObject (fields : list (string * JSON)).

(** [QuoteJSONString]: the quote, the backslash and the control characters
    are escaped, everything else is copied. *)
Definition escape_char (c : ascii) : string :=
  let n := N_of_ascii c in
  if n =? 8 then "\b"
  else if n =? 9 then "\t"
  else if n =? 10 then "\n"
  else if n =? 12 then "\f"
  else if n =? 13 then "\r"
  else if n =? 34 then String "\" (String c EmptyString)
  else if n =? 92 then "\\"
  else if n <? 32 then "\u00" +:+ hex_byte n
  else String c EmptyString.

Fixpoint escape (s : string) : string :=
  match s with
  | EmptyString => EmptyString
  | String c rest => escape_char c +:+ escape rest
  end.

Definition quote (s : string) : string :=
  String "034" (escape s +:+ String "034" EmptyString).

Fixpoint stringify (v : JSON) : string :=
  match v with
  | JNull => "null"
  | JBool true => "true"
  | JBool false => "false"
  | JString s => quote s
  | JArray items => "[" +:+ String.concat "," (map stringify items) +:+ "]"
  | JObject fields =>
      "{" +:+ String.concat ","
                (map (fun kv => quote (fst kv) +:+ ":" +:+ stringify (snd kv)) fields)
          +:+ "}"
  end.

(** [generatePersonalityHash]: [sha256(JSON.stringify(data))] in hex. *)
Definition generatePersonalityHash (data : JSON) : string :=
  let payload := stringify data in
  hex (Sha256.digest (bytes_of_string payload)).

(** ** Users, character definitions, characters and conversations *)

Record User := { user_id : string; user_name : string }.

(** [MessageExample] of @elizaos/core, the type of [messageExamples]: its
    [content] is a [Content] object, held as its properties in order. *)
Record MessageExample := { ex_user : string; ex_content : list (string * JSON) }.

(** A line of an example of a declared function:
    [{ user: string; content: string }]. *)
Record FunctionExample := { fx_user : string; fx_content : string }.

Record FunctionParameter := {
  param_name : string;
  param_description : string;
  param_type : string
}.

Record CharacterFunction := {
  fn_name : string;
  fn_description : string;
  fn_similes : list string;
  fn_examples : list (list FunctionExample);
  fn_parameters : list FunctionParameter
}.

(** [interface ElizaCharacterOptions] *)
Record ElizaCharacterOptions := {
  opt_name : string;
  opt_bio : list string;
  opt_lore : list string;
  opt_knowledge : list string;
  opt_topics : list string;
  opt_adjectives : list string;
  opt_style : list string;
  opt_messageExamples : list (list MessageExample);
  opt_functions : list CharacterFunction
}.

(** The JavaScript object behind a typed definition, with its properties
    in the order of the interface declaration. *)
Definition json_strings (l : list string) : JSON := JArray (map JString l).

Definition json_message_example (e : MessageExample) : JSON :=
  JObject [("user", JString (ex_user e)); ("content", JObject (ex_content e))].

Definition json_message_examples (l : list (list MessageExample)) : JSON :=
  JArray (map (fun t => JArray (map json_message_example t)) l).

Definition json_example (e : FunctionExample) : JSON :=
  JObject [("user", JString (fx_user e)); ("content", JString (fx_content e))].

Definition json_examples (l : list (list FunctionExample)) : JSON :=
  JArray (map (fun t => JArray (map json_example t)) l).

Definition json_parameter (p : FunctionParameter) : JSON :=
  JObject [("name", JString (param_name p));
           ("description", JString (param_description p));
           ("type", JString (param_type p))].

Definition json_function (f : CharacterFunction) : JSON :=
  JObject [("name", JString (fn_name f));
           ("description", JString (fn_description f));
           ("similes", json_strings (fn_similes f));
           ("examples", json_examples (fn_examples f));
           ("parameters", JArray (map json_parameter (fn_parameters f)))].

Definition json_options (o : ElizaCharacterOptions) : JSON :=
  JObject [("name", JString (opt_name o));
           ("bio", json_strings (opt_bio o));
           ("lore", json_strings (opt_lore o));
           ("knowledge", json_strings (opt_knowledge o));
           ("topics", json_strings (opt_topics o));
           ("adjectives", json_strings (opt_adjectives o));
           ("style", json_strings (opt_style o));
           ("messageExamples", json_message_examples (opt_messageExamples o));
           ("functions", JArray (map json_function (opt_functions o)))].

Definition options_hash (o : ElizaCharacterOptions) : string :=
  generatePersonalityHash (json_options o).
Arguments generatePersonalityHash : simpl never.
Arguments options_hash : simpl never.

(** [class ElizaCharacter extends Character]: the base class keeps the
    name and the hash handed to [super]. *)
Record ElizaCharacter := {
  char_name : string;
  char_hash : string;
  char_options : ElizaCharacterOptions
}.

Definition new_ElizaCharacter (name : string) (options : ElizaCharacterOptions)
  : ElizaCharacter :=
  {| char_name := name; char_hash := options_hash options; char_options := options |}.

(** [class ProcessedElizaCharacterOptions] *)
Record ProcessedElizaCharacterOptions := {
  p_name : string;
  p_bio : list string;
  p_lore : list string;
  p_knowledge : list string;
  p_messageExamples : list (list MessageExample);
  p_functions : list CharacterFunction;
  p_topics : list string;
  p_adjectives : list string;
  p_style_all : list string;
  p_style_post : list string;
  p_style_chat : list string;
  p_modelProvider : string;
  p_postExamples : list string;
  p_clients : list string;
  p_plugins : list string
}.

Definition new_ProcessedElizaCharacterOptions
    (name modelProvider : string) (options : ElizaCharacterOptions)
  : ProcessedElizaCharacterOptions :=
  {| p_name := name;
     p_bio := opt_bio options;
     p_lore := opt_lore options;
     p_knowledge := opt_knowledge options;
     p_messageExamples := opt_messageExamples options;
     p_functions := opt_functions options;
     p_topics := opt_topics options;
     p_adjectives := opt_adjectives options;
     p_style_all := opt_style options;
     p_style_post := [];
     p_style_chat := [];
     p_modelProvider := modelProvider;
     p_postExamples := [];
     p_clients := [];
     p_plugins := [] |}.

(** [interface ConversationData] and [class ElizaConversation] *)
Record ConversationData := { busy : option bool; finished : option bool }.

Definition empty_data : ConversationData := {| busy := None; finished := None |}.

Record ElizaConversation := {
  conv_id : N;
  conv_secret : string;
  conv_character : ElizaCharacter;
  conv_users : list User;
  conv_persistenceToken : option string;
  conv_data : ConversationData
}.

(** JavaScript truthiness of the values the code tests with [!x]. *)
Definition truthy_string (s : string) : bool := negb (bool_decide (s = EmptyString)).
Definition truthy_number (n : N) : bool := negb (n =? 0).

(** [Array.prototype.includes] on strings. *)
Definition includes (x : string) (l : list string) : bool :=
  existsb (fun y => bool_decide (y = x)) l.

(** ** Collaborators

    *** Storage adapter
    The package uses [init], [createRoom], [removeRoom], [getRoom],
    [addParticipant], [removeParticipant] and [getParticipantsForRoom].
    The contract it relies on: a room table resolving tokens to room ids,
    and one participant set per room.  [createRoom] registers the room id
    it hands back (and the caller's token, when one is given) and the new
    room starts without participants; [removeRoom] forgets every token
    of the room.  The room id is chosen by the adapter, so it is an
    argument of the model; an adapter that uses the id it is given hands
    the caller's persistence token back as the room id. *)

Record Adapter := {
  db_ready : bool;
  db_rooms : gmap string string;
  db_participants : gmap string (gset string)
}.

Definition adapter_init (db : Adapter) : Adapter :=
  {| db_ready := true; db_rooms := db_rooms db; db_participants := db_participants db |}.

Definition adapter_getRoom (token : string) (db : Adapter) : option string :=
  db_rooms db !! token.

Definition room_members (room : string) (db : Adapter) : gset string :=
  default ∅ (db_participants db !! room).

Definition adapter_getParticipantsForRoom (room : string) (db : Adapter) : list string :=
  elements (room_members room db).

Definition adapter_createRoom (token : option string) (room : string) (db : Adapter)
  : Adapter :=
  {| db_ready := db_ready db;
     db_rooms := <[room := room]>
                   (match token with
                    | Some t => <[t := room]> (db_rooms db)
                    | None => db_rooms db
                    end);
     db_participants := <[room := ∅]> (db_participants db) |}.

Definition adapter_removeRoom (room : string) (db : Adapter) : Adapter :=
  {| db_ready := db_ready db;
     db_rooms := filter (fun kv => kv.2 ≠ room) (db_rooms db);
     db_participants := delete room (db_participants db) |}.

Definition adapter_addParticipant (user room : string) (db : Adapter) : Adapter :=
  {| db_ready := db_ready db;
     db_rooms := db_rooms db;
     db_participants := <[room := {[user]} ∪ room_members room db]> (db_participants db) |}.

Definition adapter_removeParticipant (user room : string) (db : Adapter) : Adapter :=
  {| db_ready := db_ready db;
     db_rooms := db_rooms db;
     db_participants := <[room := room_members room db ∖ {[user]}]> (db_participants db) |}.

(** *** Message contents and memories *)

Record ActionData := {
  data_message : string;
  data_parameters : list (string * JSON)
}.

Record Content := {
  text : option string;
  action : option string;
  data : option ActionData;
  source : option string
}.

Record Memory := {
  mem_agentId : string;
  mem_userId : string;
  mem_roomId : string;
  mem_content : Content
}.

(** *** Agent runtime
    An [AgentRuntime] is a mutable object shared by the registry entry and
    by every room bound to it: runtimes live in a heap and are named by
    their index.  The fields are the ones the package reads or assigns,
    and two flags of the model, [rt_initialized] and [rt_stopped], which
    record that the package has called [initialize] (to completion) and
    [stop] on the object; what the library does of these calls inside the
    runtime is not modelled. *)

Record Action := {
  act_name : string;
  act_description : string;
  act_similes : list string;
  act_examples : list (list MessageExample);
  act_parameters : list FunctionParameter;
  suppressInitialMessage : bool;
  act_func : CharacterFunction
}.

(** The context provider installed per message keeps the caller's pairs. *)
Record Provider := { provider_context : list (string * string) }.

Definition provider_get (p : Provider) : string :=
  String.concat "," (map (fun c => c.1 +:+ "=" +:+ c.2) (provider_context p)).

Record AgentRuntime := {
  agentId : string;
  rt_character : ProcessedElizaCharacterOptions;
  rt_token : string;
  rt_modelProvider : string;
  rt_cacheKey : string;
  rt_initialized : bool;
  rt_stopped : bool;
  providers : list Provider;
  actions : list Action
}.

Definition new_AgentRuntime (aid : string) (character : ProcessedElizaCharacterOptions)
    (token modelProvider cacheKey : string) : AgentRuntime :=
  {| agentId := aid; rt_character := character; rt_token := token;
     rt_modelProvider := modelProvider; rt_cacheKey := cacheKey; rt_initialized := false; rt_stopped := false;
     providers := []; actions := [] |}.

Definition rt_initialize (r : AgentRuntime) : AgentRuntime :=
  {| agentId := agentId r; rt_character := rt_character r; rt_token := rt_token r;
     rt_modelProvider := rt_modelProvider r; rt_cacheKey := rt_cacheKey r; rt_initialized := true; rt_stopped := rt_stopped r;
     providers := providers r; actions := actions r |}.

Definition rt_stop (r : AgentRuntime) : AgentRuntime :=
  {| agentId := agentId r; rt_character := rt_character r; rt_token := rt_token r;
     rt_modelProvider := rt_modelProvider r; rt_cacheKey := rt_cacheKey r; rt_initialized := rt_initialized r; rt_stopped := true;
     providers := providers r; actions := actions r |}.

Definition rt_set_providers (ps : list Provider) (r : AgentRuntime) : AgentRuntime :=
  {| agentId := agentId r; rt_character := rt_character r; rt_token := rt_token r;
     rt_modelProvider := rt_modelProvider r; rt_cacheKey := rt_cacheKey r; rt_initialized := rt_initialized r;
     rt_stopped := rt_stopped r; providers := ps; actions := actions r |}.

Definition rt_set_actions (acts : list Action) (r : AgentRuntime) : AgentRuntime :=
  {| agentId := agentId r; rt_character := rt_character r; rt_token := rt_token r;
     rt_modelProvider := rt_modelProvider r; rt_cacheKey := rt_cacheKey r; rt_initialized := rt_initialized r;
     rt_stopped := rt_stopped r; providers := providers r; actions := acts |}.

(** *** Calls made on the collaborators, in the order they are made *)

Inductive Event : Type :=
  | EvAdapterInit
  | EvCreateRoom (token : option string) (room : string)
  | EvRemoveRoom (room : string)
  | EvAddParticipant (user room : string)
  | EvRemoveParticipant (user room : string)
  | EvNewRuntime (h : nat)
  | EvInitialize (h : nat)
  | EvStop (h : nat)
  | EvEnsureConnection (h : nat) (user room name : string)
  | EvAddEmbeddingToMemory (h : nat) (m : Memory)
  | EvCreateMemory (h : nat) (m : Memory)
  | EvComposeState (h : nat) (m : Memory) (agentName message participants playerName : string)
  | EvGenerateMessageResponse (h : nat)
  | EvUpdateRecentMessageState (h : nat)
  | EvProcessActions (h : nat) (m response : Memory)
  | EvEvaluate (h : nat) (m : Memory).

(** ** The framework object *)

Record RuntimeCharacterMap := {
  runtime : nat;
  character : ElizaCharacter
}.

Record RoomData := {
  users : list User;
  runtimeCharacterMap : RuntimeCharacterMap
}.

Record ElizaFrameworkOptions := {
  provider : string;
  apiKey : string
}.

(** [adapter] is [options.adapter]; [initialized] is the module-level flag
    (index.ts, 194) as seen by this object: the model follows one
    framework object in a module whose flag is unset when the object is
    made.  [runtimes] is the heap of runtime objects and [calls] the record
    of the calls the package has made on its collaborators so far.
    [conversationIdMap] is a JavaScript [Map] whose entries are searched
    in insertion order, hence a list. *)
Record Framework := {
  options : ElizaFrameworkOptions;
  adapter : Adapter;
  initialized : bool;
  runtimes : list AgentRuntime;
  calls : list Event;
  characters : list ElizaCharacter;
  runtimeCharacterMaps : gmap string RuntimeCharacterMap;
  roomMaps : gmap string RoomData;
  conversationCount : N;
  conversationIdMap : list (N * string)
}.

Definition new_ElizaFramework (opts : ElizaFrameworkOptions) (db : Adapter) : Framework :=
  {| options := opts; adapter := db; initialized := false; runtimes := [];
     calls := []; characters := []; runtimeCharacterMaps := ∅; roomMaps := ∅;
     conversationCount := 0; conversationIdMap := [] |}.

Definition with_adapter (f : Adapter -> Adapter) (fw : Framework) : Framework :=
  {| options := options fw; adapter := f (adapter fw); initialized := initialized fw;
     runtimes := runtimes fw; calls := calls fw; characters := characters fw;
     runtimeCharacterMaps := runtimeCharacterMaps fw; roomMaps := roomMaps fw;
     conversationCount := conversationCount fw;
     conversationIdMap := conversationIdMap fw |}.

Definition with_initialized (b : bool) (fw : Framework) : Framework :=
  {| options := options fw; adapter := adapter fw; initialized := b;
     runtimes := runtimes fw; calls := calls fw; characters := characters fw;
     runtimeCharacterMaps := runtimeCharacterMaps fw; roomMaps := roomMaps fw;
     conversationCount := conversationCount fw;
     conversationIdMap := conversationIdMap fw |}.

Definition with_runtimes (f : list AgentRuntime -> list AgentRuntime) (fw : Framework)
  : Framework :=
  {| options := options fw; adapter := adapter fw; initialized := initialized fw;
     runtimes := f (runtimes fw); calls := calls fw; characters := characters fw;
     runtimeCharacterMaps := runtimeCharacterMaps fw; roomMaps := roomMaps fw;
     conversationCount := conversationCount fw;
     conversationIdMap := conversationIdMap fw |}.

Definition with_calls (f : list Event -> list Event) (fw : Framework) : Framework :=
  {| options := options fw; adapter := adapter fw; initialized := initialized fw;
     runtimes := runtimes fw; calls := f (calls fw); characters := characters fw;
     runtimeCharacterMaps := runtimeCharacterMaps fw; roomMaps := roomMaps fw;
     conversationCount := conversationCount fw;
     conversationIdMap := conversationIdMap fw |}.

Definition with_characters (f : list ElizaCharacter -> list ElizaCharacter)
    (fw : Framework) : Framework :=
  {| options := options fw; adapter := adapter fw; initialized := initialized fw;
     runtimes := runtimes fw; calls := calls fw; characters := f (characters fw);
     runtimeCharacterMaps := runtimeCharacterMaps fw; roomMaps := roomMaps fw;
     conversationCount := conversationCount fw;
     conversationIdMap := conversationIdMap fw |}.

Definition with_runtimeCharacterMaps
    (f : gmap string RuntimeCharacterMap -> gmap string RuntimeCharacterMap)
    (fw : Framework) : Framework :=
  {| options := options fw; adapter := adapter fw; initialized := initialized fw;
     runtimes := runtimes fw; calls := calls fw; characters := characters fw;
     runtimeCharacterMaps := f (runtimeCharacterMaps fw); roomMaps := roomMaps fw;
     conversationCount := conversationCount fw;
     conversationIdMap := conversationIdMap fw |}.

Definition with_roomMaps (f : gmap string RoomData -> gmap string RoomData)
    (fw : Framework) : Framework :=
  {| options := options fw; adapter := adapter fw; initialized := initialized fw;
     runtimes := runtimes fw; calls := calls fw; characters := characters fw;
     runtimeCharacterMaps := runtimeCharacterMaps fw; roomMaps := f (roomMaps fw);
     conversationCount := conversationCount fw;
     conversationIdMap := conversationIdMap fw |}.

Definition with_conversationCount (n : N) (fw : Framework) : Framework :=
  {| options := options fw; adapter := adapter fw; initialized := initialized fw;
     runtimes := runtimes fw; calls := calls fw; characters := characters fw;
     runtimeCharacterMaps := runtimeCharacterMaps fw; roomMaps := roomMaps fw;
     conversationCount := n;
     conversationIdMap := conversationIdMap fw |}.

Definition with_conversationIdMap (f : list (N * string) -> list (N * string))
    (fw : Framework) : Framework :=
  {| options := options fw; adapter := adapter fw; initialized := initialized fw;
     runtimes := runtimes fw; calls := calls fw; characters := characters fw;
     runtimeCharacterMaps := runtimeCharacterMaps fw; roomMaps := roomMaps fw;
     conversationCount := conversationCount fw;
     conversationIdMap := f (conversationIdMap fw) |}.

(** ** Sequencing: state passing with exceptions

    Every method runs against the framework object and either completes
    normally or throws; [await] is sequencing. *)

Inductive Completion (A : Type) : Type :=
  | Normal (a : A)
  | Thrown (msg : string).
Arguments Normal {A} a.
Arguments Thrown {A} msg.

Definition M (A : Type) : Type := Framework -> Completion A * Framework.

Definition ret {A} (a : A) : M A := fun fw => (Normal a, fw).
Definition throw {A} (msg : string) : M A := fun fw => (Thrown msg, fw).
Definition bind {A B} (m : M A) (k : A -> M B) : M B :=
  fun fw => match m fw with
            | (Normal a, fw') => k a fw'
            | (Thrown msg, fw') => (Thrown msg, fw')
            end.
Definition gets {A} (f : Framework -> A) : M A := fun fw => (Normal (f fw), fw).
Definition modify (f : Framework -> Framework) : M unit := fun fw => (Normal tt, f fw).
Definition emit (e : Event) : M unit := modify (with_calls (fun l => l ++ [e])).

Declare Scope eliza_scope.
Delimit Scope eliza_scope with eliza.
Notation "'let*' x ':=' m 'in' k" := (bind m (fun x => k))
  (at level 10, x name, m at level 100, k at level 200) : eliza_scope.
Notation "m >> k" := (bind m (fun _ => k))
  (at level 100, k at level 200, right associativity) : eliza_scope.
Local Open Scope eliza_scope.

Fixpoint for_of {A} (l : list A) (body : A -> M unit) : M unit :=
  match l with
  | [] => ret tt
  | x :: rest => body x >> for_of rest body
  end.

Definition when (b : bool) (m : M unit) : M unit := if b then m else ret tt.

Definition exec {A} (m : M A) (fw : Framework) : Framework := snd (m fw).
Definition result {A} (m : M A) (fw : Framework) : Completion A := fst (m fw).

(** *** The collaborators' methods as steps *)

Definition db_init : M unit :=
  modify (with_adapter adapter_init) >> emit EvAdapterInit.

Definition db_createRoom (token : option string) (room : string) : M string :=
  modify (with_adapter (adapter_createRoom token room)) >>
  emit (EvCreateRoom token room) >>
  ret room.

Definition db_removeRoom (room : string) : M unit :=
  modify (with_adapter (adapter_removeRoom room)) >> emit (EvRemoveRoom room).

Definition db_getRoom (token : string) : M (option string) :=
  gets (fun fw => adapter_getRoom token (adapter fw)).

Definition db_getParticipantsForRoom (room : string) : M (list string) :=
  gets (fun fw => adapter_getParticipantsForRoom room (adapter fw)).

Definition db_addParticipant (user room : string) : M unit :=
  modify (with_adapter (adapter_addParticipant user room)) >>
  emit (EvAddParticipant user room).

Definition db_removeParticipant (user room : string) : M unit :=
  modify (with_adapter (adapter_removeParticipant user room)) >>
  emit (EvRemoveParticipant user room).

(** [new AgentRuntime(...)]: allocation in the heap; [aid] is the agent id
    the constructor gives the runtime. *)
Definition runtime_new (r : AgentRuntime) : M nat :=
  let* h := gets (fun fw => length (runtimes fw)) in
  modify (with_runtimes (fun l => l ++ [r])) >>
  emit (EvNewRuntime h) >>
  ret h.

Definition runtime_agentId (h : nat) : M string :=
  gets (fun fw => from_option agentId EmptyString (runtimes fw !! h)).

Definition runtime_actions (h : nat) : M (list Action) :=
  gets (fun fw => from_option actions [] (runtimes fw !! h)).

Definition runtime_update (h : nat) (f : AgentRuntime -> AgentRuntime) : M unit :=
  modify (with_runtimes (alter f h)).

(** [initialize] of @elizaos/core 0.1.8 processes the knowledge of the
    character: when the character lists knowledge it reads
    [character.settings.ragKnowledge].  The configuration this package
    hands to the runtime ([ProcessedElizaCharacterOptions]) has no
    [settings], so the call then throws a TypeError; with no knowledge it
    completes. *)
Definition runtime_knowledge (h : nat) : M (list string) :=
  gets (fun fw => from_option (fun r => p_knowledge (rt_character r)) [] (runtimes fw !! h)).

Definition runtime_initialize (h : nat) : M unit :=
  emit (EvInitialize h) >>
  let* knowledge := runtime_knowledge h in
  match knowledge with
  | [] => runtime_update h rt_initialize
  | _ :: _ => throw "TypeError: Cannot read properties of undefined (reading 'ragKnowledge')"
  end.

Definition runtime_stop (h : nat) : M unit :=
  runtime_update h rt_stop >> emit (EvStop h).

(** [ensureConnection] of @elizaos/core: the runtime makes sure that the
    accounts of the user and of its own agent exist, that the room exists
    ([ensureRoomExists]: [getRoom], then [createRoom] with the id when the
    room is missing), and then that the user and its own agent are
    participants of the room ([ensureParticipantInRoom]:
    [getParticipantsForRoom], then [addParticipant] for who is missing).
    These are writes of the runtime, not calls of the package: [calls]
    records the call of [ensureConnection] alone.  The account table is
    not read by the package and is left out. *)
Definition adapter_ensureRoomExists (room : string) (db : Adapter) : Adapter :=
  match adapter_getRoom room db with
  | Some r => if truthy_string r then db else adapter_createRoom (Some room) room db
  | None => adapter_createRoom (Some room) room db
  end.

Definition adapter_ensureParticipantInRoom (user room : string) (db : Adapter) : Adapter :=
  if includes user (adapter_getParticipantsForRoom room db) then db
  else adapter_addParticipant user room db.

Definition adapter_ensureConnection (agent user room : string) (db : Adapter) : Adapter :=
  adapter_ensureParticipantInRoom agent room
    (adapter_ensureParticipantInRoom user room
       (adapter_ensureRoomExists room db)).

Definition runtime_ensureConnection (h : nat) (user room name : string) : M unit :=
  emit (EvEnsureConnection h user room name) >>
  let* agent := runtime_agentId h in
  modify (with_adapter (adapter_ensureConnection agent user room)).

(** ** [class ElizaFramework] *)

(** [Map.prototype.get] and [Map.prototype.set] on [conversationIdMap]. *)
Fixpoint idmap_get (id : N) (m : list (N * string)) : option string :=
  match m with
  | [] => None
  | (k, v) :: rest => if k =? id then Some v else idmap_get id rest
  end.

Fixpoint idmap_set (id : N) (v : string) (m : list (N * string)) : list (N * string) :=
  match m with
  | [] => [(id, v)]
  | (k, w) :: rest => if k =? id then (k, v) :: rest else (k, w) :: idmap_set id v rest
  end.

(** [Array.from(map.entries()).find(([, value]) => value === secret)?.[0]] *)
Definition idmap_key_of (secret : string) (m : list (N * string)) : option N :=
  fst <$> find (fun kv => bool_decide (kv.2 = secret)) m.

Definition start : M unit :=
  let* init := gets initialized in
  if init : bool
  then throw "ElizaFramework already initialized once. Cannot run two instances of ElizaFramework."
  else db_init >> modify (with_initialized true).

(** [validateCharacter]: the zod schema as a check on the value given.
    [safeParse] accepts an object when every listed property passes,
    whatever else it holds.  The thrown message ends with zod's report,
    which is left out.  [get] reads a property of an object. *)
Definition get (key : string) (v : JSON) : option JSON :=
  match v with
  | JObject fields => snd <$> find (fun kv => bool_decide (kv.1 = key)) fields
  | _ => None
  end.

Definition z_string (v : JSON) : bool :=
  match v with JString _ => true | _ => false end.

Definition z_string_nonempty (v : JSON) : bool :=
  match v with JString s => truthy_string s | _ => false end.

Definition z_array (item : JSON -> bool) (v : JSON) : bool :=
  match v with JArray items => forallb item items | _ => false end.

Definition z_array_nonempty (item : JSON -> bool) (v : JSON) : bool :=
  match v with JArray (x :: items) => forallb item (x :: items) | _ => false end.

Definition z_enum (allowed : list string) (v : JSON) : bool :=
  match v with JString s => includes s allowed | _ => false end.

Definition z_object (shape : list (string * (JSON -> bool))) (v : JSON) : bool :=
  match v with
  | JObject _ =>
      forallb (fun field => match get field.1 v with
                            | Some x => field.2 x
                            | None => false
                            end) shape
  | _ => false
  end.

Definition transcript_schema : JSON -> bool :=
  z_array (z_object [("user", z_string); ("content", z_string)]).

Definition characterSchema : JSON -> bool :=
  z_object
    [("name", z_string_nonempty);
     ("bio", z_array_nonempty z_string);
     ("lore", z_array_nonempty z_string);
     ("knowledge", z_array_nonempty z_string);
     ("topics", z_array_nonempty z_string);
     ("adjectives", z_array_nonempty z_string);
     ("style", z_array_nonempty z_string);
     ("messageExamples", z_array transcript_schema);
     ("functions",
      z_array (z_object
        [("name", z_string_nonempty);
         ("description", z_string_nonempty);
         ("similes", z_array_nonempty z_string);
         ("examples", z_array_nonempty transcript_schema);
         ("parameters",
          z_array (z_object
            [("name", z_string);
             ("description", z_string);
             ("type", z_enum ["number"; "boolean"; "string"])]))]))].

Definition validateCharacter (c : JSON) : M bool :=
  if characterSchema c then ret true else throw "Validation failed".

Definition getOrCreateCharacter (aid : string) (character : ElizaCharacterOptions)
  : M ElizaCharacter :=
  let* maps := gets runtimeCharacterMaps in
  if bool_decide (is_Some (maps !! options_hash character))
  then ret (new_ElizaCharacter (opt_name character) character)
  else
    let* opts := gets options in
    let processedCharacter :=
      new_ProcessedElizaCharacterOptions (opt_name character) (provider opts) character in
    let* rt := runtime_new (new_AgentRuntime aid processedCharacter (apiKey opts)
                                              (provider opts) (options_hash character)) in
    modify (with_runtimeCharacterMaps
              (insert (options_hash character)
                      {| runtime := rt;
                         character := new_ElizaCharacter (opt_name character) character |})) >>
    ret (new_ElizaCharacter (opt_name character) character).

Definition containsCharacter (c : ElizaCharacter) : M bool :=
  gets (fun fw => bool_decide
                    (is_Some (runtimeCharacterMaps fw !! options_hash (char_options c)))).

Definition loadCharacter (c : ElizaCharacter) : M unit :=
  let* known := containsCharacter c in
  if negb known then throw "Character not found"
  else
    modify (with_characters (fun l => l ++ [c])) >>
    let* characterData :=
      gets (fun fw => runtimeCharacterMaps fw !! options_hash (char_options c)) in
    match characterData with
    | Some cd => runtime_initialize (runtime cd)
    | None => ret tt
    end.

Definition getCharacterHash (c : ElizaCharacter) : M string :=
  ret (options_hash (char_options c)).

(** A JavaScript [Map] enumerates its entries in insertion order.  The
    entries of [runtimeCharacterMaps] are inserted by
    [getOrCreateCharacter] alone, each with the runtime it has just
    allocated, and none is replaced or deleted afterwards: the insertion
    order is the order of the runtime handles. *)
Definition older (e1 e2 : string * RuntimeCharacterMap) : Prop :=
  (runtime e1.2 <= runtime e2.2)%nat.

#[local] Instance older_dec e1 e2 : Decision (older e1 e2) :=
  decide (runtime e1.2 <= runtime e2.2)%nat.

Definition entries (maps : gmap string RuntimeCharacterMap)
  : list (string * RuntimeCharacterMap) :=
  merge_sort older (map_to_list maps).

(** [stop]: every registered runtime is stopped, in the order of
    registration. *)
Definition stop : M unit :=
  let* maps := gets runtimeCharacterMaps in
  for_of (entries maps) (fun entry => runtime_stop (runtime entry.2)).

Definition set_users (us : list User) (rd : RoomData) : RoomData :=
  {| users := us; runtimeCharacterMap := runtimeCharacterMap rd |}.

Definition set_runtimeCharacterMap (b : RuntimeCharacterMap) (rd : RoomData) : RoomData :=
  {| users := users rd; runtimeCharacterMap := b |}.

Definition has_user (id : string) (us : list User) : bool :=
  bool_decide (is_Some (find (fun user => bool_decide (user_id user = id)) us)).

Definition setConversationUsers (conversation : ElizaConversation) (us : list User)
  : M unit :=
  let secret := conv_secret conversation in
  let* roomData := gets (fun fw => roomMaps fw !! secret) in
  match roomData with
  | None => ret tt
  | Some roomData =>
      modify (with_roomMaps (alter (set_users us) secret)) >>
      let* participants := db_getParticipantsForRoom secret in
      for_of participants (fun participant =>
        when (negb (has_user participant us))
             (db_removeParticipant participant secret)) >>
      for_of us (fun user =>
        when (negb (includes (user_id user) participants))
             (runtime_ensureConnection (runtime (runtimeCharacterMap roomData))
                                       (user_id user) secret (user_name user) >>
              db_addParticipant (user_id user) secret))
  end.

Definition createConversation (room : string) (c : ElizaCharacter) (us : list User)
    (persistenceToken : option string) : M (option ElizaConversation) :=
  let* agent := gets (fun fw => runtimeCharacterMaps fw !! options_hash (char_options c)) in
  match agent with
  | None => ret None
  | Some agent =>
      let* roomId := db_createRoom persistenceToken room in
      let* aid := runtime_agentId (runtime agent) in
      db_addParticipant aid roomId >>
      modify (fun fw => with_conversationCount (conversationCount fw + 1) fw) >>
      let* id := gets conversationCount in
      modify (with_conversationIdMap (idmap_set id roomId)) >>
      let conversation :=
        {| conv_id := id; conv_secret := roomId; conv_character := c; conv_users := [];
           conv_persistenceToken := persistenceToken; conv_data := empty_data |} in
      modify (with_roomMaps (insert roomId {| users := []; runtimeCharacterMap := agent |})) >>
      setConversationUsers conversation us >>
      ret (Some conversation)
  end.

Definition finishConversation (conversation : ElizaConversation) : M unit :=
  db_removeRoom (conv_secret conversation).

Record Selector := {
  sel_id : option N;
  sel_secret : option string;
  sel_persistenceToken : option string
}.

Definition by_id (id : N) : Selector :=
  {| sel_id := Some id; sel_secret := None; sel_persistenceToken := None |}.
Definition by_secret (s : string) : Selector :=
  {| sel_id := None; sel_secret := Some s; sel_persistenceToken := None |}.
Definition by_persistenceToken (t : string) : Selector :=
  {| sel_id := None; sel_secret := None; sel_persistenceToken := Some t |}.

Definition truthy_opt {A} (t : A -> bool) (o : option A) : bool :=
  match o with Some a => t a | None => false end.

Definition conversation_of (id : N) (secret : string) (rd : RoomData)
    (persistenceToken : option string) : ElizaConversation :=
  {| conv_id := id; conv_secret := secret;
     conv_character := character (runtimeCharacterMap rd);
     conv_users := users rd; conv_persistenceToken := persistenceToken;
     conv_data := empty_data |}.

(** The three branches of [getConversationBy], in source order.  A branch
    is entered when its selector is truthy and always returns. *)
Definition by_id_branch (id : N) (persistenceToken : option string)
  : M (option ElizaConversation) :=
  let* secret := gets (fun fw => idmap_get id (conversationIdMap fw)) in
  if truthy_opt truthy_string secret then
    let secret := default EmptyString secret in
    let* room := db_getRoom secret in
    if truthy_opt truthy_string room then
      let* roomData := gets (fun fw => roomMaps fw !! secret) in
      match roomData with
      | Some roomData => ret (Some (conversation_of id secret roomData persistenceToken))
      | None => ret None
      end
    else ret None
  else ret None.

Definition by_secret_branch (secret : string) (persistenceToken : option string)
  : M (option ElizaConversation) :=
  let* room := db_getRoom secret in
  if truthy_opt truthy_string room then
    let* roomData := gets (fun fw => roomMaps fw !! secret) in
    match roomData with
    | Some roomData =>
        let* mapKey := gets (fun fw => idmap_key_of secret (conversationIdMap fw)) in
        if truthy_opt truthy_number mapKey then
          ret (Some (conversation_of (default 0 mapKey) secret roomData persistenceToken))
        else ret None
    | None => ret None
    end
  else ret None.

Definition by_token_branch (token : string) : M (option ElizaConversation) :=
  let* room := db_getRoom token in
  if truthy_opt truthy_string room then
    let room := default EmptyString room in
    let* roomData := gets (fun fw => roomMaps fw !! room) in
    match roomData with
    | Some roomData =>
        let* mapKey := gets (fun fw => idmap_key_of room (conversationIdMap fw)) in
        if truthy_opt truthy_number mapKey then
          ret (Some (conversation_of (default 0 mapKey) room roomData (Some token)))
        else ret None
    | None => ret None
    end
  else ret None.

Definition by_secret_or_token (secret persistenceToken : option string)
  : M (option ElizaConversation) :=
  if truthy_opt truthy_string secret
  then by_secret_branch (default EmptyString secret) persistenceToken
  else if truthy_opt truthy_string persistenceToken
       then by_token_branch (default EmptyString persistenceToken)
       else ret None.

Definition getConversationBy (sel : Selector) : M (option ElizaConversation) :=
  let persistenceToken := sel_persistenceToken sel in
  if truthy_opt truthy_number (sel_id sel)
  then by_id_branch (default 0 (sel_id sel)) persistenceToken
  else by_secret_or_token (sel_secret sel) persistenceToken.

Definition uses_character (c : ElizaCharacter) (rd : RoomData) : bool :=
  bool_decide (char_hash (character (runtimeCharacterMap rd)) = char_hash c).

Definition setConversationCharacter (conversation : ElizaConversation)
    (c : ElizaCharacter) : M unit :=
  let secret := conv_secret conversation in
  let* roomData := gets (fun fw => roomMaps fw !! secret) in
  match roomData with
  | None => ret tt
  | Some roomData =>
      let* charMap :=
        gets (fun fw => runtimeCharacterMaps fw !! options_hash (char_options c)) in
      match charMap with
      | None => throw "Character not found when setting conversation character"
      | Some charMap =>
          let* rooms := gets roomMaps in
          let shouldStop :=
            negb (existsb (fun entry => uses_character c entry.2) (map_to_list rooms)) in
          when shouldStop (runtime_stop (runtime (runtimeCharacterMap roomData))) >>
          modify (with_roomMaps (alter (set_runtimeCharacterMap charMap) secret))
      end
  end.

(** *** [sendToConversation]

    The generative backend's reply to [generateMessageResponse] and the
    message the runtime hands to the collector during [processActions]
    are arguments: [response] and [collected].  The handler installed with
    an action runs inside [processActions]; what it passes to the callback
    is that [collected] message.  Message ids and timestamps come from the
    clock and are left out of the memories. *)

Record FunctionCall := {
  call_name : option string;
  call_message : option string;
  call_parameters : option (list (string * JSON))
}.

Inductive SendResult : Type :=
  | SendError (status : N) (message : string)
  | SendResponse (content : option string) (fcalls : list FunctionCall).

Definition action_example (ex : FunctionExample) : MessageExample :=
  {| ex_user := fx_user ex; ex_content := [("text", JString (fx_content ex))] |}.

Definition install (func : CharacterFunction) : Action :=
  {| act_name := fn_name func;
     act_description := fn_description func;
     act_similes := fn_similes func;
     act_examples := map (map action_example) (fn_examples func);
     act_parameters := fn_parameters func;
     suppressInitialMessage := false;
     act_func := func |}.

Definition render_participants (us : list User) : string :=
  String.concat (String "010" EmptyString)
    (map (fun user => user_name user +:+ " (" +:+ user_id user +:+ ")") us).

Definition is_call (r : Content) : bool :=
  truthy_opt truthy_string (action r) && bool_decide (is_Some (data r)).

Definition to_call (r : Content) : FunctionCall :=
  {| call_name := action r; call_message := text r;
     call_parameters := data_parameters <$> data r |}.

Definition has_text (r : Content) : bool := truthy_opt truthy_string (text r).

Definition outward (respContent : list Content) : SendResult :=
  SendResponse (find has_text respContent ≫= text)
               (map to_call (filter (fun r => is_call r = true) respContent)).

Definition respContent_of (shouldSuppressInitialMessage : option bool)
    (response : Content) (message : option Content) : list Content :=
  if negb (default false shouldSuppressInitialMessage)
  then match message with Some m => [response; m] | None => [response] end
  else match message with Some m => [m] | None => [] end.

Definition sendToConversation (conversation : ElizaConversation) (message playerId : string)
    (context : list (string * string))
    (response collected : option Content) : M SendResult :=
  let secret := conv_secret conversation in
  let* roomData := gets (fun fw => roomMaps fw !! secret) in
  match roomData with
  | None => ret (SendError 404 "Room not found")
  | Some roomData =>
      let rt := runtime (runtimeCharacterMap roomData) in
      let username :=
        user_name <$> find (fun user => bool_decide (user_id user = playerId))
                           (users roomData) in
      if negb (truthy_opt truthy_string username)
      then ret (SendError 404 "User not found")
      else
        let username := default EmptyString username in
        let* aid := runtime_agentId rt in
        let memory :=
          {| mem_agentId := aid; mem_userId := playerId; mem_roomId := secret;
             mem_content := {| text := Some message; action := None; data := None;
                               source := Some "direct" |} |} in
        emit (EvAddEmbeddingToMemory rt memory) >>
        emit (EvCreateMemory rt memory) >>
        runtime_update rt (rt_set_providers [ {| provider_context := context |} ]) >>
        let functions := opt_functions (char_options (character (runtimeCharacterMap roomData))) in
        runtime_update rt (rt_set_actions (map install functions)) >>
        emit (EvComposeState rt memory
                (char_name (character (runtimeCharacterMap roomData)))
                message (render_participants (users roomData)) username) >>
        emit (EvGenerateMessageResponse rt) >>
        match response with
        | None => ret (SendError 500 "Failed to generate message")
        | Some response =>
            let responseMessage :=
              {| mem_agentId := aid; mem_userId := playerId; mem_roomId := secret;
                 mem_content := response |} in
            emit (EvAddEmbeddingToMemory rt responseMessage) >>
            emit (EvCreateMemory rt responseMessage) >>
            emit (EvUpdateRecentMessageState rt) >>
            emit (EvProcessActions rt memory responseMessage) >>
            let message := collected in
            emit (EvEvaluate rt memory) >>
            let* acts := runtime_actions rt in
            let action_ :=
              find (fun a => bool_decide (Some (act_name a) = action response)) acts in
            let shouldSuppressInitialMessage := suppressInitialMessage <$> action_ in
            ret (outward (respContent_of shouldSuppressInitialMessage response message))
        end
  end.

(** ** Runs of the framework

    A run is a sequence of calls of the state-changing public methods.
    A call is [admissible] when the room id that [createRoom] hands back
    is non-empty and was never handed back before, and the room is not
    created under a token that is the secret of an earlier conversation.
    The package checks none of this: the statements that assume it say
    so, and [fw_reopened] below is a run without it. *)

Inductive Call : Type :=
  | CallStart
  | CallGetOrCreateCharacter (aid : string) (d : ElizaCharacterOptions)
  | CallLoadCharacter (c : ElizaCharacter)
  | CallStop
  | CallCreateConversation (room : string) (c : ElizaCharacter) (us : list User)
                           (token : option string)
  | CallFinishConversation (conversation : ElizaConversation)
  | CallSetConversationUsers (conversation : ElizaConversation) (us : list User)
  | CallSetConversationCharacter (conversation : ElizaConversation) (c : ElizaCharacter)
  | CallSendToConversation (conversation : ElizaConversation) (message playerId : string)
                           (context : list (string * string))
                           (response collected : option Content).

Definition invoke (call : Call) (fw : Framework) : Framework :=
  match call with
  | CallStart => exec start fw
  | CallGetOrCreateCharacter aid d => exec (getOrCreateCharacter aid d) fw
  | CallLoadCharacter c => exec (loadCharacter c) fw
  | CallStop => exec stop fw
  | CallCreateConversation room c us token => exec (createConversation room c us token) fw
  | CallFinishConversation conversation => exec (finishConversation conversation) fw
  | CallSetConversationUsers conversation us => exec (setConversationUsers conversation us) fw
  | CallSetConversationCharacter conversation c =>
      exec (setConversationCharacter conversation c) fw
  | CallSendToConversation conversation message playerId context response collected =>
      exec (sendToConversation conversation message playerId context response collected) fw
  end.

Definition secrets (fw : Framework) : list string := map snd (conversationIdMap fw).

Definition admissible (fw : Framework) (call : Call) : Prop :=
  match call with
  | CallCreateConversation room _ _ token =>
      room ≠ EmptyString ∧ (room ∉ secrets fw)
      ∧ (forall t, token = Some t -> t ∉ secrets fw)
  | _ => True
  end.

Inductive reachable : Framework -> Prop :=
  | reachable_new opts db : reachable (new_ElizaFramework opts db)
  | reachable_invoke fw call :
      reachable fw -> admissible fw call -> reachable (invoke call fw).

(** Running a list of calls, each admissible where it is made. *)
Definition run (later : list Call) (fw : Framework) : Framework :=
  foldl (fun fw call => invoke call fw) fw later.

Fixpoint admissible_run (fw : Framework) (later : list Call) : Prop :=
  match later with
  | [] => True
  | call :: rest => admissible fw call ∧ admissible_run (invoke call fw) rest
  end.

(** ** Vocabulary of the statements *)

(** The display name [sendToConversation] resolves for the sender. *)
Definition sender_name (playerId : string) (rd : RoomData) : option string :=
  user_name <$> find (fun user => bool_decide (user_id user = playerId)) (users rd).

(** The memory recorded for the inbound message. *)
Definition inbound_memory (fw : Framework) (rd : RoomData) (secret message playerId : string)
  : Memory :=
  {| mem_agentId := from_option agentId EmptyString
                      (runtimes fw !! runtime (runtimeCharacterMap rd));
     mem_userId := playerId; mem_roomId := secret;
     mem_content := {| text := Some message; action := None; data := None;
                       source := Some "direct" |} |}.

(** The collaborator calls of pipeline steps 3 to 6, up to the request to
    the generative backend. *)
Definition calls_until_generation (fw : Framework) (rd : RoomData)
    (secret message playerId : string) : list Event :=
  let rt := runtime (runtimeCharacterMap rd) in
  let memory := inbound_memory fw rd secret message playerId in
  [ EvAddEmbeddingToMemory rt memory;
    EvCreateMemory rt memory;
    EvComposeState rt memory (char_name (character (runtimeCharacterMap rd))) message
                   (render_participants (users rd))
                   (default EmptyString (sender_name playerId rd));
    EvGenerateMessageResponse rt ].

(** The two loop bodies of [setConversationUsers]. *)
Definition prune (us : list User) (secret : string) (participant : string) : M unit :=
  when (negb (has_user participant us)) (db_removeParticipant participant secret).

Definition enrol (h : nat) (participants : list string) (secret : string) (user : User)
  : M unit :=
  when (negb (includes (user_id user) participants))
       (runtime_ensureConnection h (user_id user) secret (user_name user) >>
        db_addParticipant (user_id user) secret).

(** The framework object after [setConversationUsers] on a tracked room. *)
Definition reconcile (c : ElizaConversation) (us : list User) (rd : RoomData)
    (fw : Framework) : Framework :=
  let secret := conv_secret c in
  let participants := adapter_getParticipantsForRoom secret (adapter fw) in
  foldl (fun fw u => exec (enrol (runtime (runtimeCharacterMap rd)) participants secret u) fw)
        (foldl (fun fw p => exec (prune us secret p) fw)
               (with_roomMaps (alter (set_users us) secret) fw)
               participants)
        us.

(** The conversation [createConversation] builds and returns. *)
Definition new_conversation (fw : Framework) (room : string) (c : ElizaCharacter)
    (token : option string) : ElizaConversation :=
  {| conv_id := conversationCount fw + 1; conv_secret := room; conv_character := c;
     conv_users := []; conv_persistenceToken := token; conv_data := empty_data |}.

(** [agent.runtime.agentId] *)
Definition agent_of (fw : Framework) (b : RuntimeCharacterMap) : string :=
  from_option agentId EmptyString (runtimes fw !! runtime b).

(** The framework object once [createConversation] has allocated the room,
    added the agent and recorded the conversation, before it reconciles the
    roster. *)
Definition open_room (room : string) (token : option string) (agent : RuntimeCharacterMap)
    (fw : Framework) : Framework :=
  with_roomMaps (insert room {| users := []; runtimeCharacterMap := agent |})
    (with_conversationIdMap (idmap_set (conversationCount fw + 1) room)
       (with_conversationCount (conversationCount fw + 1)
          (with_calls (fun l => l ++ [EvAddParticipant (agent_of fw agent) room])
             (with_adapter (adapter_addParticipant (agent_of fw agent) room)
                (with_calls (fun l => l ++ [EvCreateRoom token room])
                   (with_adapter (adapter_createRoom token room) fw)))))).

(** The calls one iteration of the second loop makes for a new user. *)
Definition enrol_calls (h : nat) (room : string) (u : User) : list Event :=
  [EvEnsureConnection h (user_id u) room (user_name u); EvAddParticipant (user_id u) room].

(** The entries of a roster whose id is not among the participants read
    at the start of the reconcile: the ones the second loop connects. *)
Definition newcomers (us : list User) (participants : list string) : list User :=
  filter (fun u => includes (user_id u) participants = false) us.

(** The adapter resolves the room: [getRoom] answers a truthy id. *)
Definition resolves (room : string) (fw : Framework) : Prop :=
  truthy_opt truthy_string (adapter_getRoom room (adapter fw)) = true.

(** The participants of a room once the reconcile has run: the ids of the
    roster, and the agent with them when the second loop connected
    somebody. *)
Definition reconciled (us connected : list User) (agent : string) : gset string :=
  match connected with
  | [] => list_to_set (map user_id us)
  | _ :: _ => list_to_set (map user_id us) ∪ {[agent]}
  end.

(** The room table after the calls of a run: it is as before, or the
    runtime has registered the room again. *)
Definition rooms_grow (room : string) (fw fw' : Framework) : Prop :=
  db_rooms (adapter fw') = db_rooms (adapter fw)
  ∨ db_rooms (adapter fw') = <[room := room]> (db_rooms (adapter fw)).

(** What a call leaves alone. *)
Record same_ids (fw fw' : Framework) : Prop := {
  same_idmap : conversationIdMap fw' = conversationIdMap fw;
  same_count : conversationCount fw' = conversationCount fw
}.

Record same_registry (fw fw' : Framework) : Prop := {
  same_bindings : runtimeCharacterMaps fw' = runtimeCharacterMaps fw;
  same_heap_size : length (runtimes fw') = length (runtimes fw)
}.

Definition same_rooms (fw fw' : Framework) : Prop :=
  db_rooms (adapter fw') = db_rooms (adapter fw).

(** Invariants of the runs. *)
Definition ids_wf (fw : Framework) : Prop :=
  NoDup (map fst (conversationIdMap fw))
  ∧ NoDup (secrets fw)
  ∧ Forall (fun kv => 1 <= kv.1 <= conversationCount fw ∧ kv.2 ≠ EmptyString)
           (conversationIdMap fw).

Definition rooms_wf (fw : Framework) : Prop :=
  forall s r, s ∈ secrets fw -> adapter_getRoom s (adapter fw) = Some r -> r = s.

Definition registry_wf (fw : Framework) : Prop :=
  (forall h b, runtimeCharacterMaps fw !! h = Some b ->
     char_hash (character b) = h ∧ (runtime b < length (runtimes fw))%nat)
  ∧ (forall h1 h2 b1 b2,
       runtimeCharacterMaps fw !! h1 = Some b1 ->
       runtimeCharacterMaps fw !! h2 = Some b2 ->
       runtime b1 = runtime b2 -> h1 = h2)
  ∧ size (runtimeCharacterMaps fw) = length (runtimes fw).

Definition wf (fw : Framework) : Prop := ids_wf fw ∧ rooms_wf fw ∧ registry_wf fw.

(** Calls that touch neither the identity map, nor the registry, nor the
    room table. *)
Definition untouched (fw fw' : Framework) : Prop :=
  same_ids fw fw' ∧ same_registry fw fw' ∧ same_rooms fw fw'.

(** The framework object after [getOrCreateCharacter] on a new hash. *)
Definition register (aid : string) (d : ElizaCharacterOptions) (fw : Framework) : Framework :=
  with_runtimeCharacterMaps
    (insert (options_hash d)
            {| runtime := length (runtimes fw);
               character := new_ElizaCharacter (opt_name d) d |})
    (with_calls (fun l => l ++ [EvNewRuntime (length (runtimes fw))])
       (with_runtimes
          (fun l => l ++ [new_AgentRuntime aid
                            (new_ProcessedElizaCharacterOptions (opt_name d)
                                                                (provider (options fw)) d)
                            (apiKey (options fw)) (provider (options fw))
                            (options_hash d)])
          fw)).

(** A live conversation: its id is paired with its secret, the adapter
    still resolves the secret, and the room is tracked. *)
Definition live (c : ElizaConversation) (fw : Framework) : Prop :=
  idmap_get (conv_id c) (conversationIdMap fw) = Some (conv_secret c)
  ∧ truthy_opt truthy_string (adapter_getRoom (conv_secret c) (adapter fw)) = true
  ∧ is_Some (roomMaps fw !! conv_secret c).

(** [getConversationBy sel] returns a conversation with [c]'s id and secret. *)
Definition selects (sel : Selector) (c : ElizaConversation) (fw : Framework) : Prop :=
  exists c', result (getConversationBy sel) fw = Normal (Some c')
             ∧ conv_id c' = conv_id c ∧ conv_secret c' = conv_secret c.

Definition absent (sel : Selector) (fw : Framework) : Prop :=
  result (getConversationBy sel) fw = Normal None.

(** *** Reporting of failures

    A method reports the failure of a precondition when its completion in
    a state without the precondition differs from its completion in every
    state with it. *)
Definition reports {A} (m : M A) (precondition : Framework -> Prop) : Prop :=
  forall fw, ¬ precondition fw ->
    forall fw_ok, precondition fw_ok -> result m fw ≠ result m fw_ok.

(** A conversation whose room is tracked; a character with a binding. *)
Definition tracked (c : ElizaConversation) (fw : Framework) : Prop :=
  is_Some (roomMaps fw !! conv_secret c).

Definition registered (c : ElizaCharacter) (fw : Framework) : Prop :=
  is_Some (runtimeCharacterMaps fw !! options_hash (char_options c)).

(** *** Identity of definitions

    Two objects are identical field for field when every property name
    gives the same value in both. *)
Definition field_for_field (d1 d2 : JSON) : Prop :=
  forall key, get key d1 = get key d2.

(** Two different messages with the same SHA-256 digest. *)
Definition sha256_collision (m1 m2 : list N) : Prop :=
  m1 ≠ m2 ∧ Sha256.digest m1 = Sha256.digest m2.

(** [unescape_head] reads one character written by [escape_char] from the
    front of a string. *)
Definition unhex_digit (c : ascii) : N :=
  let n := N_of_ascii c in if n <? 58 then n - 48 else n - 87.

Definition unescape_head (s : string) : option (ascii * string) :=
  match s with
  | String c rest =>
      if N_of_ascii c =? 92 then
        match rest with
        | String e rest' =>
            let n := N_of_ascii e in
            if n =? 98 then Some (ascii_of_N 8, rest')
            else if n =? 116 then Some (ascii_of_N 9, rest')
            else if n =? 110 then Some (ascii_of_N 10, rest')
            else if n =? 102 then Some (ascii_of_N 12, rest')
            else if n =? 114 then Some (ascii_of_N 13, rest')
            else if n =? 34 then Some (ascii_of_N 34, rest')
            else if n =? 92 then Some (ascii_of_N 92, rest')
            else match rest' with
                 | String _ (String _ (String h (String l rest''))) =>
                     Some (ascii_of_N (16 * unhex_digit h + unhex_digit l), rest'')
                 | _ => None
                 end
        | EmptyString => None
        end
      else Some (c, rest)
  | EmptyString => None
  end.

(** Induction on values, through the arrays and the objects. *)
Fixpoint JSON_induction (P : JSON -> Prop)
    (Hnull : P JNull) (Hbool : forall b, P (JBool b)) (Hstring : forall s, P (JString s))
    (Harray : forall items, Forall P items -> P (JArray items))
    (Hobject : forall fields, Forall (fun kv => P kv.2) fields -> P (JObject fields))
    (v : JSON) : P v :=
  match v with
  | JNull => Hnull
  | JBool b => Hbool b
  | JString s => Hstring s
  | JArray items =>
      Harray items
        ((fix go (l : list JSON) : Forall P l :=
            match l with
            | [] => List.Forall_nil P
            | x :: l' =>
                @List.Forall_cons _ P x l'
                  (JSON_induction P Hnull Hbool Hstring Harray Hobject x) (go l')
            end) items)
  | JObject fields =>
      Hobject fields
        ((fix go (l : list (string * JSON)) : Forall (fun kv => P kv.2) l :=
            match l with
            | [] => List.Forall_nil _
            | kv :: l' =>
                @List.Forall_cons _ (fun kv => P kv.2) kv l'
                  (JSON_induction P Hnull Hbool Hstring Harray Hobject kv.2) (go l')
            end) fields)
  end.

(** ** A small deployment used to run the model

    Two characters without declared actions, two users, an adapter that
    starts empty. *)
Definition ava_options : ElizaCharacterOptions :=
  {| opt_name := "Ava"; opt_bio := ["calm"]; opt_lore := ["born at sea"];
     opt_knowledge := ["tides"]; opt_topics := ["weather"];
     opt_adjectives := ["patient"]; opt_style := ["short sentences"];
     opt_messageExamples := []; opt_functions := [] |}.

Definition bea_options : ElizaCharacterOptions :=
  {| opt_name := "Bea"; opt_bio := ["brisk"]; opt_lore := ["raised inland"];
     opt_knowledge := ["maps"]; opt_topics := ["roads"];
     opt_adjectives := ["direct"]; opt_style := ["plain words"];
     opt_messageExamples := []; opt_functions := [] |}.

Definition ava : ElizaCharacter := new_ElizaCharacter "Ava" ava_options.
Definition bea : ElizaCharacter := new_ElizaCharacter "Bea" bea_options.

Definition bob : User := {| user_id := "u-bob"; user_name := "Bob" |}.
Definition cy : User := {| user_id := "u-cy"; user_name := "Cy" |}.

Definition empty_adapter : Adapter :=
  {| db_ready := false; db_rooms := ∅; db_participants := ∅ |}.

Definition fw_new : Framework :=
  new_ElizaFramework {| provider := "openai"; apiKey := "sk-test" |} empty_adapter.

(** Both characters registered. *)
Definition fw_registered : Framework :=
  run [CallStart;
       CallGetOrCreateCharacter "agent-ava" ava_options;
       CallGetOrCreateCharacter "agent-bea" bea_options] fw_new.

Definition conv (id : N) (room : string) (c : ElizaCharacter) (token : option string)
  : ElizaConversation :=
  {| conv_id := id; conv_secret := room; conv_character := c; conv_users := [];
     conv_persistenceToken := token; conv_data := empty_data |}.

(** Two conversations, both bound to Ava; no room uses Bea. *)
Definition fw_two_rooms : Framework :=
  run [CallCreateConversation "room-1" ava [bob] None;
       CallCreateConversation "room-2" ava [cy] (Some "ticket-2")] fw_registered.

(** One conversation bound to Ava and one bound to Bea. *)
Definition fw_one_each : Framework :=
  run [CallCreateConversation "room-1" ava [bob] None;
       CallCreateConversation "room-2" bea [cy] (Some "ticket-2")] fw_registered.

(** The runtime a room is bound to, and whether a runtime has been stopped. *)
Definition bound_runtime (room : string) (fw : Framework) : option nat :=
  (fun rd => runtime (runtimeCharacterMap rd)) <$> roomMaps fw !! room.

Definition stopped (h : nat) (fw : Framework) : option bool :=
  rt_stopped <$> runtimes fw !! h.

(** Room bindings and conversations of the deployment. *)
Definition ava_binding : RuntimeCharacterMap := {| runtime := 0; character := ava |}.
Definition room1_binding : RoomData := {| users := [bob]; runtimeCharacterMap := ava_binding |}.
Definition conv1 : ElizaConversation := conv 1 "room-1" ava None.
Definition conv2 : ElizaConversation := conv 2 "room-2" ava (Some "ticket-2").
Definition hello : Content :=
  {| text := Some "Hello Bob."; action := None; data := None; source := None |}.

(** Ava's definition written with [bio] before [name]. *)
Definition ava_reordered : JSON :=
  JObject [("bio", json_strings (opt_bio ava_options));
           ("name", JString (opt_name ava_options));
           ("lore", json_strings (opt_lore ava_options));
           ("knowledge", json_strings (opt_knowledge ava_options));
           ("topics", json_strings (opt_topics ava_options));
           ("adjectives", json_strings (opt_adjectives ava_options));
           ("style", json_strings (opt_style ava_options));
           ("messageExamples", json_message_examples (opt_messageExamples ava_options));
           ("functions", JArray (map json_function (opt_functions ava_options)))].

(** ** The handler installed with an action

    [func.parameters[parseInt(key)]] reads the declared parameter a
    generated key addresses.

    *** [parseInt] with the radix left out
    Leading white space is skipped, then one sign; [0x] or [0X] selects
    radix 16; the longest run of digits of the radix is read, and a
    string without one gives [NaN], here [None].  Strings hold UTF-8, so
    the white space of more than one byte is recognised by its bytes. *)
Definition white_space_1 (a : N) : bool :=
  ((9 <=? a) && (a <=? 13)) || (a =? 32).

Definition white_space_2 (a b : N) : bool := (a =? 194) && (b =? 160).

Definition white_space_3 (a b c : N) : bool :=
  ((a =? 225) && (b =? 154) && (c =? 128))
  || ((a =? 226) && (b =? 128)
      && (((128 <=? c) && (c <=? 138)) || (c =? 168) || (c =? 169) || (c =? 175)))
  || ((a =? 226) && (b =? 129) && (c =? 159))
  || ((a =? 227) && (b =? 128) && (c =? 128))
  || ((a =? 239) && (b =? 187) && (c =? 191)).

Fixpoint trim_start (s : string) : string :=
  match s with
  | String a r1 =>
      if white_space_1 (N_of_ascii a) then trim_start r1
      else match r1 with
           | String b r2 =>
               if white_space_2 (N_of_ascii a) (N_of_ascii b) then trim_start r2
               else match r2 with
                    | String c r3 =>
                        if white_space_3 (N_of_ascii a) (N_of_ascii b) (N_of_ascii c)
                        then trim_start r3 else s
                    | EmptyString => s
                    end
           | EmptyString => s
           end
  | EmptyString => s
  end.

Definition digit_value (c : ascii) : option N :=
  let n := N_of_ascii c in
  if (48 <=? n) && (n <=? 57) then Some (n - 48)
  else if (97 <=? n) && (n <=? 122) then Some (n - 87)
  else if (65 <=? n) && (n <=? 90) then Some (n - 55)
  else None.

Fixpoint read_digits (radix : N) (s : string) (acc : option N) : option N :=
  match s with
  | String c rest =>
      match digit_value c with
      | Some d =>
          if d <? radix then read_digits radix rest (Some (radix * default 0 acc + d))
          else acc
      | None => acc
      end
  | EmptyString => acc
  end.

Definition strip_sign (s : string) : bool * string :=
  match s with
  | String c rest =>
      if N_of_ascii c =? 45 then (true, rest)
      else if N_of_ascii c =? 43 then (false, rest)
      else (false, s)
  | EmptyString => (false, s)
  end.

Definition strip_prefix (s : string) : N * string :=
  match s with
  | String z (String x rest) =>
      if (N_of_ascii z =? 48) && ((N_of_ascii x =? 120) || (N_of_ascii x =? 88))
      then (16, rest) else (10, s)
  | _ => (10, s)
  end.

Definition parseInt (input : string) : option Z :=
  let signed := strip_sign (trim_start input) in
  let prefixed := strip_prefix signed.2 in
  (fun n => if signed.1 then (- Z.of_N n)%Z else Z.of_N n)
    <$> read_digits prefixed.1 prefixed.2 None.

(** [array[number]]: [NaN], a negative number and a number past the end
    give [undefined]. *)
Definition at_index {A} (l : list A) (i : option Z) : option A :=
  match i with
  | Some z => if (0 <=? z)%Z then l !! Z.to_nat z else None
  | None => None
  end.

(** *** Own properties of the object [acc]
    An object enumerates its array-index keys first, in ascending order,
    then its other keys in the order they were added.  Assigning
    [__proto__] adds no own property. *)
Fixpoint all_decimal (s : string) : bool :=
  match s with
  | String c rest =>
      (48 <=? N_of_ascii c) && (N_of_ascii c <=? 57) && all_decimal rest
  | EmptyString => true
  end.

Definition array_index (name : string) : option N :=
  match name with
  | String c rest =>
      if all_decimal name
         && ((negb (N_of_ascii c =? 48)) || bool_decide (rest = EmptyString))
      then match read_digits 10 name None with
           | Some n => if n <? 4294967295 then Some n else None
           | None => None
           end
      else None
  | EmptyString => None
  end.

Definition property_get {V} (key : string) (o : list (string * V)) : option V :=
  snd <$> find (fun kv => bool_decide (kv.1 = key)) o.

Fixpoint property_replace {V} (name : string) (v : V) (o : list (string * V))
  : list (string * V) :=
  match o with
  | [] => []
  | (k, w) :: rest =>
      if bool_decide (k = name) then (k, v) :: rest
      else (k, w) :: property_replace name v rest
  end.

Fixpoint property_add_index {V} (i : N) (name : string) (v : V) (o : list (string * V))
  : list (string * V) :=
  match o with
  | [] => [(name, v)]
  | (k, w) :: rest =>
      match array_index k with
      | Some j => if j <? i then (k, w) :: property_add_index i name v rest
                  else (name, v) :: (k, w) :: rest
      | None => (name, v) :: (k, w) :: rest
      end
  end.

Definition property_set {V} (name : string) (v : V) (o : list (string * V))
  : list (string * V) :=
  if bool_decide (name = "__proto__") then o
  else if bool_decide (is_Some (property_get name o)) then property_replace name v o
  else match array_index name with
       | Some i => property_add_index i name v o
       | None => o ++ [(name, v)]
       end.

(** *** The remapping of the generated parameters (index.ts, 676-684)
    [parameters] lists the generated object's entries in the order of
    [Object.keys]; [respObject.parameters[key]] is the value of the entry. *)
Definition remap_step {V} (func : CharacterFunction)
    (acc : Completion (list (string * V))) (entry : string * V)
  : Completion (list (string * V)) :=
  match acc with
  | Normal acc =>
      match at_index (fn_parameters func) (parseInt entry.1) with
      | Some parameter =>
          let paramName := param_name parameter in
          Normal (if truthy_string paramName then property_set paramName entry.2 acc
                  else acc)
      | None => Thrown "TypeError: Cannot read properties of undefined (reading 'name')"
      end
  | Thrown msg => Thrown msg
  end.

Definition mappedParams {V} (func : CharacterFunction) (parameters : list (string * V))
  : Completion (list (string * V)) :=
  foldl (remap_step func) (Normal []) parameters.

(** *** The handler (index.ts, 647-693)
    The prompt, the schema and the request to the generative backend are
    the collaborators'; what the backend returns as [response.object] is
    the argument [generated].  [state] and [callback] tell whether the
    runtime passed a state and a callback.  A run of the handler is its
    completion and what it passed to the callback, if it called it. *)
Record GeneratedObject := {
  gen_message : string;
  gen_parameters : list (string * JSON)
}.

Inductive HandlerReturn : Type :=
  | ReturnsUndefined
  | ReturnsFailure (status : N) (message : string).

Record HandlerRun := {
  completion : Completion HandlerReturn;
  called_back : option Content
}.

Definition handler (func : CharacterFunction) (state callback : bool)
    (generated : option GeneratedObject) : HandlerRun :=
  if negb state || negb callback
  then {| completion := Normal ReturnsUndefined; called_back := None |}
  else
    match generated with
    | None =>
        {| completion := Normal (ReturnsFailure 500 "Failed to generate parameters");
           called_back := None |}
    | Some respObject =>
        match mappedParams func (gen_parameters respObject) with
        | Thrown msg => {| completion := Thrown msg; called_back := None |}
        | Normal mapped =>
            {| completion := Normal ReturnsUndefined;
               called_back :=
                 Some {| text := Some (gen_message respObject);
                         action := Some (fn_name func);
                         data := Some {| data_message := gen_message respObject;
                                         data_parameters := mapped |};
                         source := None |} |}
        end
    end.

(** The decimal spelling of an index, as [Object.keys] gives the keys of
    positional parameters. *)
Fixpoint decimal_digits (fuel : nat) (n : N) (tail : string) : string :=
  match fuel with
  | O => tail
  | S fuel' =>
      let tail' := String (ascii_of_N (48 + n mod 10)) tail in
      if n <? 10 then tail' else decimal_digits fuel' (n / 10) tail'
  end.

Definition index_key (i : N) : string := decimal_digits (S (N.to_nat (N.size i))) i EmptyString.

Definition positional {V} (values : list V) : list (string * V) :=
  imap (fun i v => (index_key (N.of_nat i), v)) values.

(** ** Vocabulary of the further properties *)

(** What the calls keep of a runtime object: who it is, and the flags
    once they are set. *)
Record keeps_runtime (r r' : AgentRuntime) : Prop := {
  keeps_agentId : agentId r' = agentId r;
  keeps_character : rt_character r' = rt_character r;
  keeps_cacheKey : rt_cacheKey r' = rt_cacheKey r;
  keeps_initialized : rt_initialized r = true -> rt_initialized r' = true;
  keeps_stopped : rt_stopped r = true -> rt_stopped r' = true
}.

Definition heap_kept (fw fw' : Framework) : Prop :=
  forall h r, runtimes fw !! h = Some r ->
    exists r', runtimes fw' !! h = Some r' ∧ keeps_runtime r r'.

(** The ids handed out so far: 1, 2, ..., n. *)
Definition ordinals (n : N) : list N := map N.of_nat (seq 1 (N.to_nat n)).

(** The framework object after [loadCharacter] of a registered character
    whose runtime holds no knowledge, and the one it leaves behind when
    [initialize] throws. *)
Definition pushed (c : ElizaCharacter) (b : RuntimeCharacterMap) (fw : Framework)
  : Framework :=
  with_calls (fun l => l ++ [EvInitialize (runtime b)])
    (with_characters (fun l => l ++ [c]) fw).

Definition loaded (c : ElizaCharacter) (b : RuntimeCharacterMap) (fw : Framework)
  : Framework :=
  with_runtimes (alter rt_initialize (runtime b)) (pushed c b fw).

(** The value the handler passes to the callback. *)
Definition callback_content (func : CharacterFunction) (message : string)
    (mapped : list (string * JSON)) : Content :=
  {| text := Some message; action := Some (fn_name func);
     data := Some {| data_message := message; data_parameters := mapped |};
     source := None |}.

(** The binding and the runtime object that the first registration of a
    definition creates in a new framework. *)
Definition first_binding (d : ElizaCharacterOptions) : RuntimeCharacterMap :=
  {| runtime := 0; character := new_ElizaCharacter (opt_name d) d |}.

Definition first_runtime (aid : string) (d : ElizaCharacterOptions) : AgentRuntime :=
  new_AgentRuntime aid
    (new_ProcessedElizaCharacterOptions (opt_name d) (provider (options fw_new)) d)
    (apiKey (options fw_new)) (provider (options fw_new)) (options_hash d).

(** *** What [validateCharacter] asks of a typed definition *)
Definition allowed_types : list string := ["number"; "boolean"; "string"].

Definition function_valid (f : CharacterFunction) : Prop :=
  fn_name f ≠ EmptyString ∧ fn_description f ≠ EmptyString
  ∧ fn_similes f ≠ [] ∧ fn_examples f ≠ []
  ∧ Forall (fun p => param_type p ∈ allowed_types) (fn_parameters f).

(** A transcript of [messageExamples] passes only when it is empty: the
    schema asks for a string where a [MessageExample] holds an object. *)
Definition options_valid (o : ElizaCharacterOptions) : Prop :=
  opt_name o ≠ EmptyString
  ∧ opt_bio o ≠ [] ∧ opt_lore o ≠ [] ∧ opt_knowledge o ≠ []
  ∧ opt_topics o ≠ [] ∧ opt_adjectives o ≠ [] ∧ opt_style o ≠ []
  ∧ Forall (fun transcript => transcript = []) (opt_messageExamples o)
  ∧ Forall function_valid (opt_functions o).

(** The properties the schema lists. *)
Definition character_keys : list string :=
  ["name"; "bio"; "lore"; "knowledge"; "topics"; "adjectives"; "style";
   "messageExamples"; "functions"].

(** ** More of the deployment

    Ava registered in a new framework, then one conversation with her. *)
Definition fw_ava : Framework :=
  exec (getOrCreateCharacter "agent-ava" ava_options) fw_new.

Definition fw_room : Framework :=
  exec (createConversation "room-1" ava [bob] None) fw_ava.

Definition room1 : ElizaConversation := new_conversation fw_ava "room-1" ava None.

(** A character that declares one action, and a conversation with it. *)
Definition give : CharacterFunction :=
  {| fn_name := "give"; fn_description := "Hand an item to the player";
     fn_similes := ["hand over"];
     fn_examples := [[ {| fx_user := "Bob"; fx_content := "May I have the map?" |} ]];
     fn_parameters :=
       [ {| param_name := "item"; param_description := "what is handed over";
            param_type := "string" |};
         {| param_name := "wrapped"; param_description := "whether it is wrapped";
            param_type := "boolean" |} ] |}.

Definition cid_options : ElizaCharacterOptions :=
  {| opt_name := "Cid"; opt_bio := ["shopkeeper"]; opt_lore := ["keeps the harbour store"];
     opt_knowledge := ["prices"]; opt_topics := ["trade"];
     opt_adjectives := ["thrifty"]; opt_style := ["counts aloud"];
     opt_messageExamples := []; opt_functions := [give] |}.

Definition cid : ElizaCharacter := new_ElizaCharacter "Cid" cid_options.

Definition fw_cid : Framework :=
  exec (getOrCreateCharacter "agent-cid" cid_options) fw_new.

Definition fw_shop : Framework :=
  exec (createConversation "room-7" cid [bob] None) fw_cid.

Definition room7 : ElizaConversation := new_conversation fw_cid "room-7" cid None.

Definition room7_binding : RoomData :=
  {| users := [bob]; runtimeCharacterMap := first_binding cid_options |}.

(** What the backend generates for [give]: with positional keys, and in
    the shape of the example output of the prompt. *)
Definition give_map : GeneratedObject :=
  {| gen_message := "Bob asked for the map";
     gen_parameters := positional [JString "map"; JBool true] |}.

Definition john : GeneratedObject :=
  {| gen_message := "The parameters were chosen because the user's name is John";
     gen_parameters := [("name", JString "John")] |}.

(** A dialogue response that names the action [give] and carries no data. *)
Definition here_you_are : Content :=
  {| text := Some "Here you are."; action := Some "give"; data := None; source := None |}.

(** A persistence token used again: a conversation is created under the
    token and finished, then a second one is created under the same
    token.  The adapter hands the token back as the room id both times. *)
Definition ticket : string := "ticket-7".

Definition fw_first : Framework :=
  exec (createConversation ticket ava [bob] (Some ticket)) fw_ava.

Definition first_conversation : ElizaConversation :=
  new_conversation fw_ava ticket ava (Some ticket).

Definition fw_finished : Framework :=
  exec (finishConversation first_conversation) fw_first.

Definition fw_reopened : Framework :=
  exec (createConversation ticket ava [cy] (Some ticket)) fw_finished.

Definition second_conversation : ElizaConversation :=
  new_conversation fw_finished ticket ava (Some ticket).

Definition reopened_binding : RoomData :=
  {| users := [cy]; runtimeCharacterMap := first_binding ava_options |}.

(** What the handler of [give] passes to the callback for [give_map]. *)
Definition map_given : Content :=
  callback_content give "Bob asked for the map"
    [("item", JString "map"); ("wrapped", JBool true)].

(** Ava's definition with one line of message examples. *)
Definition ava_with_example : ElizaCharacterOptions :=
  {| opt_name := "Ava"; opt_bio := ["calm"]; opt_lore := ["born at sea"];
     opt_knowledge := ["tides"]; opt_topics := ["weather"];
     opt_adjectives := ["patient"]; opt_style := ["short sentences"];
     opt_messageExamples :=
       [[ {| ex_user := "Bob"; ex_content := [("text", JString "Is the tide in?")] |} ]];
     opt_functions := [] |}.

(** A user whose display name is empty, and the roster of room 1 set to
    that user alone. *)
Definition nemo : User := {| user_id := "u-nemo"; user_name := EmptyString |}.

Definition fw_nameless : Framework := exec (setConversationUsers room1 [nemo]) fw_room.

(** * Properties *)

(** ** The personality hash *)

Lemma round_length st kw : length st = 8%nat -> length (Sha256.round st kw) = 8%nat.
Proof.
  intros H. do 9 (destruct st as [|? st]; try discriminate). reflexivity.
Qed.

Lemma rounds_length kws : forall st, length st = 8%nat ->
  length (fold_left Sha256.round kws st) = 8%nat.
Proof.
  induction kws as [|kw kws IH]; intros st H; [done|].
  cbn. apply IH. now apply round_length.
Qed.

Lemma compress_length h block : length h = 8%nat -> length (Sha256.compress h block) = 8%nat.
Proof.
  intros H. unfold Sha256.compress.
  rewrite length_map, length_combine, rounds_length by done. lia.
Qed.

Lemma compress_all_length blocks : forall h, length h = 8%nat ->
  length (fold_left Sha256.compress blocks h) = 8%nat.
Proof.
  induction blocks as [|b blocks IH]; intros h H; [done|].
  cbn. apply IH. now apply compress_length.
Qed.

Lemma digest_length msg : length (Sha256.digest msg) = 32%nat.
Proof.
  unfold Sha256.digest.
  pose proof (compress_all_length
                (Sha256.chunks (length (Sha256.words_of_bytes (Sha256.pad msg)))
                               (Sha256.words_of_bytes (Sha256.pad msg)))
                Sha256.H0 eq_refl) as H.
  set (hs := fold_left _ _ _) in *. clearbody hs.
  do 9 (destruct hs as [|? hs]; try discriminate). reflexivity.
Qed.

Lemma string_length_app (s1 s2 : string) :
  String.length (s1 +:+ s2) = (String.length s1 + String.length s2)%nat.
Proof. induction s1 as [|c s1 IH]; simpl; [reflexivity | now f_equal]. Qed.

Lemma hex_length bs : String.length (hex bs) = (2 * length bs)%nat.
Proof.
  unfold hex. induction bs as [|b bs IH]; [reflexivity|].
  destruct bs as [|b' bs']; [reflexivity|].
  change (String.length
            (hex_byte b +:+ EmptyString +:+ String.concat EmptyString (map hex_byte (b' :: bs')))
          = (2 * length (b :: b' :: bs'))%nat).
  rewrite !string_length_app, IH. cbn [length]. cbn. lia.
Qed.

Lemma generatePersonalityHash_length d : String.length (generatePersonalityHash d) = 64%nat.
Proof. unfold generatePersonalityHash. now rewrite hex_length, digest_length. Qed.

(** *** The serialisation determines the definition *)

Lemma unescape_escape (c : ascii) (t : string) :
  unescape_head (escape_char c +:+ t) = Some (c, t).
Proof. destruct c as [[] [] [] [] [] [] [] []]; vm_compute; reflexivity. Qed.

Lemma append_assoc (a b c : string) : (a +:+ b) +:+ c = a +:+ (b +:+ c).
Proof.
  induction a as [|x a IH]; [reflexivity|].
  change (String x ((a +:+ b) +:+ c) = String x (a +:+ (b +:+ c))). now rewrite IH.
Qed.

Lemma escape_char_inj (c1 c2 : ascii) (t1 t2 : string) :
  escape_char c1 +:+ t1 = escape_char c2 +:+ t2 -> c1 = c2 ∧ t1 = t2.
Proof.
  intros H. apply (f_equal unescape_head) in H. rewrite !unescape_escape in H.
  now injection H.
Qed.

Lemma escape_char_not_quote (c : ascii) (t r : string) :
  escape_char c +:+ t ≠ String "034" r.
Proof. destruct c as [[] [] [] [] [] [] [] []]; vm_compute; discriminate. Qed.

Lemma escape_inj (s1 : string) : forall s2 r1 r2,
  escape s1 +:+ String "034" r1 = escape s2 +:+ String "034" r2 -> s1 = s2 ∧ r1 = r2.
Proof.
  induction s1 as [|c1 s1 IH]; intros [|c2 s2] r1 r2 H; cbn [escape] in H.
  - simpl in H. now injection H.
  - rewrite append_assoc in H. symmetry in H. now apply escape_char_not_quote in H.
  - rewrite append_assoc in H. now apply escape_char_not_quote in H.
  - rewrite !append_assoc in H. apply escape_char_inj in H as [-> H].
    apply IH in H as [-> ->]. done.
Qed.

Lemma quote_inj (s1 s2 r1 r2 : string) :
  quote s1 +:+ r1 = quote s2 +:+ r2 -> s1 = s2 ∧ r1 = r2.
Proof.
  unfold quote. simpl. intros H. injection H as H.
  rewrite !append_assoc in H. simpl in H. now apply escape_inj in H.
Qed.

Lemma joined_cons {A} (f : A -> string) (x : A) (l : list A) (close : ascii) (r : string) :
  String.concat "," (map f (x :: l)) +:+ String close r
  = f x +:+ match l with
            | [] => String close r
            | _ => String "," (String.concat "," (map f l) +:+ String close r)
            end.
Proof.
  destruct l as [|y l]; [reflexivity|].
  change (String.concat "," (map f (x :: y :: l)))
    with (f x +:+ "," +:+ String.concat "," (map f (y :: l))).
  now rewrite !append_assoc.
Qed.

Lemma joined_inj {A} (f : A -> string) (close : ascii) :
  close ≠ ","%char ->
  (forall x r t, f x +:+ r ≠ String close t) ->
  forall l1,
    Forall (fun x => forall y r1 r2, f x +:+ r1 = f y +:+ r2 -> x = y ∧ r1 = r2) l1 ->
    forall l2 r1 r2,
      String.concat "," (map f l1) +:+ String close r1
      = String.concat "," (map f l2) +:+ String close r2 ->
      l1 = l2 ∧ r1 = r2.
Proof.
  intros Hclose Hhead l1 Hall. induction Hall as [|x1 l1 Hx _ IH]; intros [|x2 l2] r1 r2 H.
  - simpl in H. now injection H.
  - rewrite joined_cons in H. symmetry in H. now apply Hhead in H.
  - rewrite joined_cons in H. now apply Hhead in H.
  - rewrite !joined_cons in H. apply Hx in H as [-> H].
    destruct l1 as [|y1 l1], l2 as [|y2 l2].
    + now injection H as ->.
    + injection H as H _. congruence.
    + injection H as H _. congruence.
    + assert (H' : String.concat "," (map f (y1 :: l1)) +:+ String close r1
                   = String.concat "," (map f (y2 :: l2)) +:+ String close r2)
        by congruence.
      apply IH in H' as [-> ->]. done.
Qed.

Lemma stringify_head (v : JSON) (r t : string) : stringify v +:+ r ≠ String "]" t.
Proof. destruct v as [|[]| | |]; discriminate. Qed.

Lemma stringify_prefix_inj (v1 : JSON) : forall v2 r1 r2,
  stringify v1 +:+ r1 = stringify v2 +:+ r2 -> v1 = v2 ∧ r1 = r2.
Proof.
  induction v1 as [|b1|s1|items1 IH|fields1 IH] using JSON_induction;
    intros v2 r1 r2 H.
  - destruct v2 as [|[]| | |]; try discriminate H. now injection H.
  - destruct b1, v2 as [|[]| | |]; try discriminate H; now injection H.
  - destruct v2 as [|[]|s2| |]; try discriminate H.
    cbn [stringify] in H. apply quote_inj in H as [-> ->]. done.
  - destruct v2 as [|[]| |items2|]; try discriminate H.
    cbn [stringify] in H. simpl in H. injection H as H.
    rewrite !append_assoc in H. simpl in H.
    apply (joined_inj stringify "]") in H as [-> ->]; [done | discriminate | | exact IH].
    intros x r t. apply stringify_head.
  - destruct v2 as [|[]| | |fields2]; try discriminate H.
    cbn [stringify] in H. simpl in H. injection H as H.
    rewrite !append_assoc in H. simpl in H.
    apply (joined_inj (fun kv => quote kv.1 +:+ ":" +:+ stringify kv.2) "}") in H
      as [-> ->]; [done | discriminate | |].
    + intros x r t. discriminate.
    + eapply Forall_impl; [exact IH|]. intros [k1 w1] Hw [k2 w2] t1 t2 Heq. cbn in *.
      rewrite !append_assoc in Heq. apply quote_inj in Heq as [-> Heq].
      simpl in Heq. injection Heq as Heq. apply Hw in Heq as [-> ->]. done.
Qed.

Lemma append_nil_r (s : string) : s +:+ EmptyString = s.
Proof.
  induction s as [|c s IH]; [reflexivity|].
  change (String c (s +:+ EmptyString) = String c s). now rewrite IH.
Qed.

Lemma stringify_inj (v1 v2 : JSON) : stringify v1 = stringify v2 -> v1 = v2.
Proof.
  intros H. apply (stringify_prefix_inj v1 v2 EmptyString EmptyString).
  now rewrite !append_nil_r.
Qed.

Lemma map_injective {A B} (f : A -> B) :
  (forall x y, f x = f y -> x = y) -> forall l1 l2, map f l1 = map f l2 -> l1 = l2.
Proof.
  intros Hf. induction l1 as [|x l1 IH]; intros [|y l2] H; try discriminate; [done|].
  injection H as Hxy H. f_equal; auto.
Qed.

Lemma bytes_of_string_inj (s1 s2 : string) :
  bytes_of_string s1 = bytes_of_string s2 -> s1 = s2.
Proof.
  unfold bytes_of_string. intros H. apply map_injective in H.
  - rewrite <- (String.string_of_list_byte_of_string s1),
            <- (String.string_of_list_byte_of_string s2). now rewrite H.
  - intros x y Hxy. apply Nat2N.inj in Hxy.
    pose proof (Byte.of_to_nat x) as Hx. rewrite Hxy, Byte.of_to_nat in Hx. congruence.
Qed.

Lemma hex_digit_inj (n m : N) : n < 16 -> m < 16 -> hex_digit n = hex_digit m -> n = m.
Proof.
  intros Hn Hm.
  assert (Hcases : forall k, k < 16 ->
            k = 0 ∨ k = 1 ∨ k = 2 ∨ k = 3 ∨ k = 4 ∨ k = 5 ∨ k = 6 ∨ k = 7 ∨ k = 8 ∨ k = 9
            ∨ k = 10 ∨ k = 11 ∨ k = 12 ∨ k = 13 ∨ k = 14 ∨ k = 15) by (intros; lia).
  destruct (Hcases n Hn) as [->|[->|[->|[->|[->|[->|[->|[->|[->|[->|[->|[->|[->|[->|[->| ->]]]]]]]]]]]]]]];
  destruct (Hcases m Hm) as [->|[->|[->|[->|[->|[->|[->|[->|[->|[->|[->|[->|[->|[->|[->| ->]]]]]]]]]]]]]]];
  vm_compute; intros H; try reflexivity; discriminate H.
Qed.

Lemma hex_byte_inj (a b : N) : a < 256 -> b < 256 -> hex_byte a = hex_byte b -> a = b.
Proof.
  intros Ha Hb H. unfold hex_byte in H. injection H as Hhi Hlo.
  apply hex_digit_inj in Hhi; [|apply N.Div0.div_lt_upper_bound; lia ..].
  apply hex_digit_inj in Hlo; [|apply N.mod_lt; lia ..].
  rewrite (N.div_mod a 16), (N.div_mod b 16) by lia. congruence.
Qed.

Lemma hex_cons (b : N) (bs : list N) : hex (b :: bs) = hex_byte b +:+ hex bs.
Proof.
  unfold hex. destruct bs as [|b' bs]; [|reflexivity].
  cbn [map String.concat]. now rewrite append_nil_r.
Qed.

Lemma hex_inj (bs1 : list N) : forall bs2,
  Forall (fun b => b < 256) bs1 -> Forall (fun b => b < 256) bs2 ->
  hex bs1 = hex bs2 -> bs1 = bs2.
Proof.
  induction bs1 as [|a bs1 IH]; intros [|b bs2] H1 H2 H; [done | | |].
  - rewrite hex_cons in H. discriminate H.
  - rewrite hex_cons in H. discriminate H.
  - rewrite !hex_cons in H. apply Forall_cons in H1 as [Ha H1], H2 as [Hb H2].
    unfold hex_byte in H at 1 2.
    change (String (hex_digit (a / 16)) (String (hex_digit (a mod 16)) (hex bs1))
            = String (hex_digit (b / 16)) (String (hex_digit (b mod 16)) (hex bs2))) in H.
    injection H as Hhi Hlo Hrest. f_equal; [|now apply IH].
    apply hex_byte_inj; [done | done |]. unfold hex_byte. congruence.
Qed.

Lemma digest_bytes (msg : list N) : Forall (fun b => b < 256) (Sha256.digest msg).
Proof.
  unfold Sha256.digest. apply Forall_concat, Forall_forall. intros l Hl.
  apply list_elem_of_fmap in Hl as (w & -> & _). unfold Sha256.be_bytes.
  apply Forall_forall. intros b Hb. apply list_elem_of_fmap in Hb as (i & -> & _).
  apply N.mod_lt. lia.
Qed.

Lemma json_strings_inj l1 l2 : map JString l1 = map JString l2 -> l1 = l2.
Proof. apply map_injective. now intros x y [=]. Qed.

Lemma json_examples_inj (l1 l2 : list (list FunctionExample)) :
  map (fun t => JArray (map json_example t)) l1 = map (fun t => JArray (map json_example t)) l2 ->
  l1 = l2.
Proof.
  apply map_injective. intros t1 t2 [= Ht]. apply map_injective in Ht; [done|].
  intros [u1 c1] [u2 c2]. unfold json_example. cbn. now intros [= -> ->].
Qed.

Lemma json_message_examples_inj (l1 l2 : list (list MessageExample)) :
  map (fun t => JArray (map json_message_example t)) l1
  = map (fun t => JArray (map json_message_example t)) l2 ->
  l1 = l2.
Proof.
  apply map_injective. intros t1 t2 [= Ht]. apply map_injective in Ht; [done|].
  intros [u1 c1] [u2 c2]. unfold json_message_example. cbn. now intros [= -> ->].
Qed.

Lemma json_function_inj f1 f2 : json_function f1 = json_function f2 -> f1 = f2.
Proof.
  destruct f1, f2. unfold json_function, json_strings, json_examples. cbn.
  intros [= -> -> Hs He Hp].
  apply json_strings_inj in Hs as ->. apply json_examples_inj in He as ->.
  apply map_injective in Hp as ->; [done|].
  intros [] []. unfold json_parameter. cbn. now intros [= -> -> ->].
Qed.

Lemma json_options_inj o1 o2 : json_options o1 = json_options o2 -> o1 = o2.
Proof.
  destruct o1, o2. unfold json_options, json_strings, json_message_examples. cbn.
  intros [= -> Hbio Hlore Hk Ht Ha Hs He Hf].
  apply json_strings_inj in Hbio as ->, Hlore as ->, Hk as ->, Ht as ->, Ha as ->, Hs as ->.
  apply json_message_examples_inj in He as ->.
  apply map_injective in Hf as ->; [done|]. apply json_function_inj.
Qed.

Lemma same_hash_same_digest (d1 d2 : JSON) :
  generatePersonalityHash d1 = generatePersonalityHash d2 ->
  Sha256.digest (bytes_of_string (stringify d1))
  = Sha256.digest (bytes_of_string (stringify d2)).
Proof. unfold generatePersonalityHash. apply hex_inj; apply digest_bytes. Qed.

Lemma same_hash_cases (d1 d2 : JSON) :
  generatePersonalityHash d1 = generatePersonalityHash d2 ->
  d1 = d2 ∨ sha256_collision (bytes_of_string (stringify d1))
                             (bytes_of_string (stringify d2)).
Proof.
  intros Hhash. apply same_hash_same_digest in Hhash.
  destruct (decide (bytes_of_string (stringify d1) = bytes_of_string (stringify d2)))
    as [Hsame | Hdiff].
  - left. now apply stringify_inj, bytes_of_string_inj.
  - right. now split.
Qed.

Lemma options_hash_identifies (o1 o2 : ElizaCharacterOptions) :
  options_hash o1 = options_hash o2 ->
  o1 = o2 ∨ sha256_collision (bytes_of_string (stringify (json_options o1)))
                             (bytes_of_string (stringify (json_options o2))).
Proof.
  intros H. destruct (same_hash_cases _ _ H) as [Heq | Hcol]; [left | now right].
  now apply json_options_inj.
Qed.




(** ** Membership reconcile *)

Lemma for_of_total {A} (l : list A) (body : A -> M unit) (fw : Framework) :
  (forall x fw, result (body x) fw = Normal tt) ->
  for_of l body fw = (Normal tt, foldl (fun fw x => exec (body x) fw) fw l).
Proof.
  intros Hbody. revert fw. induction l as [|x l IH]; intros fw; [reflexivity|].
  cbn. unfold bind. specialize (Hbody x fw). unfold result, exec in *.
  destruct (body x fw) as [r fw1]. cbn in *. subst r. apply IH.
Qed.

Lemma for_of_skip {A} (l : list A) (body : A -> M unit) (fw : Framework) :
  (forall x, x ∈ l -> body x = ret tt) ->
  for_of l body fw = (Normal tt, fw).
Proof.
  revert fw. induction l as [|x l IH]; intros fw Hbody; [reflexivity|].
  cbn. unfold bind. rewrite (Hbody x) by constructor. cbn.
  apply IH. intros y Hy. apply Hbody. now constructor.
Qed.

Lemma has_user_spec (id : string) (us : list User) :
  has_user id us = true <-> id ∈ map user_id us.
Proof.
  unfold has_user. rewrite bool_decide_eq_true.
  induction us as [|u us IH]; cbn.
  - split; [intros [? [=]] | intros H; inversion H].
  - destruct (bool_decide_reflect (user_id u = id)) as [->|Hne].
    + split; [constructor | eauto].
    + rewrite IH. split; [now constructor|]. intros H. inversion H; subst; congruence.
Qed.

Lemma includes_spec (x : string) (l : list string) : includes x l = true <-> x ∈ l.
Proof.
  unfold includes. rewrite existsb_exists. split.
  - intros (y & Hy & Heq). apply bool_decide_eq_true in Heq. subst. now apply list_elem_of_In.
  - intros H. exists x. split; [now apply list_elem_of_In | now apply bool_decide_eq_true].
Qed.

Lemma includes_false (x : string) (l : list string) : includes x l = false <-> x ∉ l.
Proof.
  rewrite <- includes_spec. destruct (includes x l); split; done.
Qed.

Lemma members_add (u room : string) (db : Adapter) :
  room_members room (adapter_addParticipant u room db) = {[u]} ∪ room_members room db.
Proof. unfold room_members at 1. cbn. now rewrite lookup_insert_eq. Qed.

Lemma members_remove (u room : string) (db : Adapter) :
  room_members room (adapter_removeParticipant u room db) = room_members room db ∖ {[u]}.
Proof. unfold room_members at 1. cbn. now rewrite lookup_insert_eq. Qed.

(** *** What [ensureConnection] writes *)

Lemma ensureRoomExists_resolved room db :
  truthy_opt truthy_string (adapter_getRoom room db) = true ->
  adapter_ensureRoomExists room db = db.
Proof.
  unfold adapter_ensureRoomExists.
  destruct (adapter_getRoom room db) as [r|]; cbn; [|discriminate]. now intros ->.
Qed.

Lemma ensureRoomExists_rooms room db :
  db_rooms (adapter_ensureRoomExists room db) = db_rooms db
  ∨ db_rooms (adapter_ensureRoomExists room db) = <[room := room]> (db_rooms db).
Proof.
  unfold adapter_ensureRoomExists.
  destruct (adapter_getRoom room db) as [r|]; [destruct (truthy_string r)|];
    cbn; rewrite ?insert_insert_eq; auto.
Qed.

Lemma ensureRoomExists_other room room' db :
  room' ≠ room ->
  room_members room' (adapter_ensureRoomExists room db) = room_members room' db.
Proof.
  intros Hne. unfold adapter_ensureRoomExists.
  destruct (adapter_getRoom room db) as [r|]; [destruct (truthy_string r)|];
    try reflexivity; unfold room_members; cbn; now rewrite lookup_insert_ne by congruence.
Qed.

Lemma ensureParticipantInRoom_members user room db :
  room_members room (adapter_ensureParticipantInRoom user room db)
  = {[user]} ∪ room_members room db.
Proof.
  unfold adapter_ensureParticipantInRoom.
  destruct (includes user (adapter_getParticipantsForRoom room db)) eqn:Hin.
  - apply includes_spec in Hin. unfold adapter_getParticipantsForRoom in Hin.
    apply elem_of_elements in Hin. set_solver.
  - apply members_add.
Qed.

Lemma ensureParticipantInRoom_rooms user room db :
  db_rooms (adapter_ensureParticipantInRoom user room db) = db_rooms db.
Proof. unfold adapter_ensureParticipantInRoom. now destruct (includes _ _). Qed.

Lemma ensureParticipantInRoom_other user room room' db :
  room' ≠ room ->
  room_members room' (adapter_ensureParticipantInRoom user room db) = room_members room' db.
Proof.
  intros Hne. unfold adapter_ensureParticipantInRoom.
  destruct (includes _ _); [reflexivity|].
  unfold room_members at 1. cbn. now rewrite lookup_insert_ne by congruence.
Qed.

Lemma ensureConnection_members agent user room db :
  truthy_opt truthy_string (adapter_getRoom room db) = true ->
  room_members room (adapter_ensureConnection agent user room db)
  = {[agent]} ∪ ({[user]} ∪ room_members room db).
Proof.
  intros Hres. unfold adapter_ensureConnection.
  now rewrite !ensureParticipantInRoom_members, ensureRoomExists_resolved.
Qed.

Lemma ensureConnection_rooms agent user room db :
  db_rooms (adapter_ensureConnection agent user room db) = db_rooms db
  ∨ db_rooms (adapter_ensureConnection agent user room db) = <[room := room]> (db_rooms db).
Proof.
  unfold adapter_ensureConnection. rewrite !ensureParticipantInRoom_rooms.
  apply ensureRoomExists_rooms.
Qed.

Lemma ensureConnection_resolved agent user room db :
  truthy_opt truthy_string (adapter_getRoom room db) = true ->
  db_rooms (adapter_ensureConnection agent user room db) = db_rooms db.
Proof.
  intros Hres. unfold adapter_ensureConnection.
  now rewrite !ensureParticipantInRoom_rooms, ensureRoomExists_resolved.
Qed.

Lemma ensureConnection_other agent user room room' db :
  room' ≠ room ->
  room_members room' (adapter_ensureConnection agent user room db) = room_members room' db.
Proof.
  intros Hne. unfold adapter_ensureConnection.
  now rewrite !ensureParticipantInRoom_other, ensureRoomExists_other.
Qed.

(** The first loop, over the participants the adapter reported. *)
Section Prune.
Variables (us : list User) (secret : string).

Lemma prune_normal p fw : result (prune us secret p) fw = Normal tt.
Proof. unfold prune, when. now destruct (negb _). Qed.

Lemma prune_members (l : list string) (fw : Framework) (x : string) :
  x ∈ room_members secret (adapter (foldl (fun fw p => exec (prune us secret p) fw) fw l))
  <-> x ∈ room_members secret (adapter fw) ∧ (x ∈ l -> x ∈ map user_id us).
Proof.
  revert fw. induction l as [|p l IH]; intros fw; cbn.
  - split; [intros H; split; [done | intros Hx; inversion Hx] | tauto].
  - rewrite IH. unfold prune, when.
    destruct (has_user p us) eqn:Hp; cbn.
    + apply has_user_spec in Hp. rewrite elem_of_cons. naive_solver.
    + assert (Hnp : p ∉ map user_id us).
      { intros Hin. apply has_user_spec in Hin. congruence. }
      rewrite members_remove, elem_of_difference, elem_of_singleton, elem_of_cons.
      naive_solver.
Qed.

End Prune.

(** The second loop, over the users given; [ps] is the list of
    participants read before the first loop. *)
Section Enrol.
Variables (h : nat) (ps : list string) (secret : string).

Lemma enrol_normal u fw : result (enrol h ps secret u) fw = Normal tt.
Proof. unfold enrol, when. now destruct (negb _). Qed.

Lemma enrol_old u fw :
  includes (user_id u) ps = true -> exec (enrol h ps secret u) fw = fw.
Proof. intros H. unfold enrol. now rewrite H. Qed.

Lemma enrol_new u fw :
  includes (user_id u) ps = false ->
  exec (enrol h ps secret u) fw
  = with_calls (fun l => l ++ [EvAddParticipant (user_id u) secret])
      (with_adapter (adapter_addParticipant (user_id u) secret)
         (with_adapter
            (adapter_ensureConnection (from_option agentId EmptyString (runtimes fw !! h))
                                      (user_id u) secret)
            (with_calls (fun l => l ++ [EvEnsureConnection h (user_id u) secret (user_name u)])
                        fw))).
Proof. intros H. unfold enrol. now rewrite H. Qed.

Lemma enrol_members (l : list User) : forall (fw : Framework) (x : string),
  resolves secret fw ->
  x ∈ room_members secret (adapter (foldl (fun fw u => exec (enrol h ps secret u) fw) fw l))
  <-> x ∈ room_members secret (adapter fw)
      ∨ (x ∈ map user_id l ∧ x ∉ ps)
      ∨ (x = from_option agentId EmptyString (runtimes fw !! h) ∧ newcomers l ps ≠ []).
Proof.
  induction l as [|u l IH]; intros fw x Hres; cbn [foldl map].
  - split; [tauto | intros [H | [[H _] | [_ H]]]; [done | inversion H | done]].
  - destruct (includes (user_id u) ps) eqn:Hu.
    + rewrite enrol_old by done. rewrite IH by done.
      unfold newcomers. rewrite filter_cons_False by (rewrite Hu; discriminate).
      apply includes_spec in Hu. rewrite elem_of_cons. naive_solver.
    + rewrite enrol_new by done. rewrite IH.
      * cbn [adapter with_adapter with_calls runtimes].
        rewrite members_add, ensureConnection_members by exact Hres.
        unfold newcomers. rewrite filter_cons_True by exact Hu.
        apply includes_false in Hu.
        rewrite !elem_of_union, !elem_of_singleton, elem_of_cons. naive_solver.
      * unfold resolves, adapter_getRoom in *. cbn [adapter with_adapter with_calls].
        cbn [adapter_addParticipant db_rooms].
        now rewrite ensureConnection_resolved.
Qed.

End Enrol.

Lemma setConversationUsers_run fw c us rd :
  roomMaps fw !! conv_secret c = Some rd ->
  setConversationUsers c us fw = (Normal tt, reconcile c us rd fw).
Proof.
  intros Hroom. unfold setConversationUsers, bind at 1, gets at 1. rewrite Hroom.
  unfold bind at 1, modify at 1. unfold bind at 1, db_getParticipantsForRoom, gets at 1.
  cbn [adapter with_roomMaps].
  unfold bind at 1.
  change (fun participant => when (negb (has_user participant us))
                                 (db_removeParticipant participant (conv_secret c)))
    with (prune us (conv_secret c)).
  rewrite for_of_total by apply prune_normal.
  match goal with |- for_of _ ?b _ = _ =>
    change b with (enrol (runtime (runtimeCharacterMap rd))
                         (adapter_getParticipantsForRoom (conv_secret c) (adapter fw))
                         (conv_secret c)) end.
  rewrite for_of_total by apply enrol_normal. reflexivity.
Qed.

Lemma setConversationUsers_untracked fw c us :
  roomMaps fw !! conv_secret c = None ->
  setConversationUsers c us fw = (Normal tt, fw).
Proof. intros H. unfold setConversationUsers, bind, gets. now rewrite H. Qed.

Lemma setConversationUsers_returns fw c us :
  result (setConversationUsers c us) fw = Normal tt.
Proof.
  unfold result. destruct (roomMaps fw !! conv_secret c) as [rd|] eqn:Hroom.
  - now rewrite (setConversationUsers_run _ _ _ _ Hroom).
  - now rewrite (setConversationUsers_untracked _ _ _ Hroom).
Qed.

Lemma foldl_adapter_frame {A} (step : Framework -> A -> Framework) (l : list A)
    {B} (proj : Framework -> B) :
  (forall fw x, proj (step fw x) = proj fw) ->
  forall fw, proj (foldl step fw l) = proj fw.
Proof.
  intros Hstep. induction l as [|x l IH]; intros fw; [reflexivity|].
  cbn. now rewrite IH.
Qed.

Lemma foldl_preserves {A} (R : Framework -> Framework -> Prop)
    (step : Framework -> A -> Framework) (l : list A) :
  (forall fw, R fw fw) ->
  (forall a b c, R a b -> R b c -> R a c) ->
  (forall fw x, R fw (step fw x)) ->
  forall fw, R fw (foldl step fw l).
Proof.
  intros Hrefl Htrans Hstep. induction l as [|x l IH]; intros fw; cbn; [apply Hrefl|].
  eapply Htrans; [apply Hstep | apply IH].
Qed.

(** What neither loop writes: every field but the adapter and the record
    of calls. *)
Lemma prune_frame {B} (proj : Framework -> B) us secret p fw :
  (forall f fw, proj (with_adapter f fw) = proj fw) ->
  (forall f fw, proj (with_calls f fw) = proj fw) ->
  proj (exec (prune us secret p) fw) = proj fw.
Proof.
  intros Had Hcalls. unfold prune, db_removeParticipant.
  destruct (negb (has_user p us)); [|reflexivity].
  unfold when, exec, bind, modify, emit. cbn. now rewrite Hcalls, Had.
Qed.

Lemma enrol_frame {B} (proj : Framework -> B) h ps secret u fw :
  (forall f fw, proj (with_adapter f fw) = proj fw) ->
  (forall f fw, proj (with_calls f fw) = proj fw) ->
  proj (exec (enrol h ps secret u) fw) = proj fw.
Proof.
  intros Had Hcalls. destruct (includes (user_id u) ps) eqn:Hu.
  - now rewrite enrol_old.
  - rewrite enrol_new by done. now rewrite Hcalls, !Had, Hcalls.
Qed.

Lemma reconcile_frame {B} (proj : Framework -> B) c us rd fw :
  (forall f fw, proj (with_adapter f fw) = proj fw) ->
  (forall f fw, proj (with_calls f fw) = proj fw) ->
  (forall f fw, proj (with_roomMaps f fw) = proj fw) ->
  proj (reconcile c us rd fw) = proj fw.
Proof.
  intros Had Hcalls Hrooms. unfold reconcile.
  rewrite foldl_adapter_frame by (intros; now apply enrol_frame).
  rewrite foldl_adapter_frame by (intros; now apply prune_frame).
  apply Hrooms.
Qed.

Lemma prune_roomMaps us secret p fw : roomMaps (exec (prune us secret p) fw) = roomMaps fw.
Proof. now apply prune_frame. Qed.

Lemma enrol_roomMaps h ps secret u fw : roomMaps (exec (enrol h ps secret u) fw) = roomMaps fw.
Proof. now apply enrol_frame. Qed.

Lemma reconcile_roomMaps c us rd fw :
  roomMaps (reconcile c us rd fw) = alter (set_users us) (conv_secret c) (roomMaps fw).
Proof.
  unfold reconcile.
  rewrite (foldl_adapter_frame _ _ roomMaps) by (intros; apply enrol_roomMaps).
  now rewrite (foldl_adapter_frame _ _ roomMaps) by (intros; apply prune_roomMaps).
Qed.

(** The room table through the loops. *)
Lemma prune_rooms us secret p fw :
  db_rooms (adapter (exec (prune us secret p) fw)) = db_rooms (adapter fw).
Proof. unfold prune, when. now destruct (negb _). Qed.

Lemma rooms_grow_refl room fw : rooms_grow room fw fw.
Proof. now left. Qed.

Lemma rooms_grow_trans room a b c :
  rooms_grow room a b -> rooms_grow room b c -> rooms_grow room a c.
Proof.
  unfold rooms_grow. intros [Hab | Hab] [Hbc | Hbc]; rewrite Hbc, Hab;
    rewrite ?insert_insert_eq; auto.
Qed.

Lemma enrol_rooms h ps secret u fw : rooms_grow secret fw (exec (enrol h ps secret u) fw).
Proof.
  destruct (includes (user_id u) ps) eqn:Hu.
  - rewrite enrol_old by done. apply rooms_grow_refl.
  - rewrite enrol_new by done. unfold rooms_grow. cbn. apply ensureConnection_rooms.
Qed.

Lemma enrol_resolved h ps secret u fw :
  resolves secret fw ->
  db_rooms (adapter (exec (enrol h ps secret u) fw)) = db_rooms (adapter fw).
Proof.
  intros Hres. destruct (includes (user_id u) ps) eqn:Hu.
  - now rewrite enrol_old.
  - rewrite enrol_new by done. cbn. now apply ensureConnection_resolved.
Qed.

Lemma reconcile_rooms c us rd fw : rooms_grow (conv_secret c) fw (reconcile c us rd fw).
Proof.
  unfold reconcile.
  eapply rooms_grow_trans;
    [|apply (foldl_preserves (rooms_grow (conv_secret c)));
      [apply rooms_grow_refl | apply rooms_grow_trans | intros; apply enrol_rooms]].
  left. now rewrite (foldl_adapter_frame _ _ (fun fw => db_rooms (adapter fw)))
    by (intros; apply prune_rooms).
Qed.

Lemma reconcile_resolved c us rd fw :
  resolves (conv_secret c) fw ->
  db_rooms (adapter (reconcile c us rd fw)) = db_rooms (adapter fw).
Proof.
  intros Hres. unfold reconcile.
  set (pruned := foldl (fun fw p => exec (prune us (conv_secret c) p) fw) _ _).
  assert (Hpruned : db_rooms (adapter pruned) = db_rooms (adapter fw)).
  { unfold pruned.
    now rewrite (foldl_adapter_frame _ _ (fun fw => db_rooms (adapter fw)))
      by (intros; apply prune_rooms). }
  rewrite <- Hpruned.
  assert (Hres' : resolves (conv_secret c) pruned).
  { unfold resolves, adapter_getRoom in *. now rewrite Hpruned. }
  revert Hres'. generalize pruned. clear.
  induction us as [|u us IH]; intros fw0 Hres0; [reflexivity|].
  cbn [foldl]. rewrite IH.
  - now apply enrol_resolved.
  - unfold resolves, adapter_getRoom in *. now rewrite enrol_resolved.
Qed.

(** The participants of the room after the reconcile. *)
Lemma reconcile_members c us rd fw :
  resolves (conv_secret c) fw ->
  room_members (conv_secret c) (adapter (reconcile c us rd fw))
  = reconciled us (newcomers us (adapter_getParticipantsForRoom (conv_secret c) (adapter fw)))
               (agent_of fw (runtimeCharacterMap rd)).
Proof.
  intros Hres. apply set_eq. intros x. unfold reconcile.
  rewrite enrol_members.
  2:{ unfold resolves, adapter_getRoom in *.
      now rewrite (foldl_adapter_frame _ _ (fun fw => db_rooms (adapter fw)))
        by (intros; apply prune_rooms). }
  rewrite prune_members. cbn [adapter with_roomMaps].
  rewrite (foldl_adapter_frame _ _ runtimes) by (intros; now apply prune_frame).
  cbn [runtimes with_roomMaps]. fold (agent_of fw (runtimeCharacterMap rd)).
  unfold adapter_getParticipantsForRoom. rewrite !elem_of_elements.
  unfold reconciled.
  destruct (newcomers us (elements (room_members (conv_secret c) (adapter fw)))) as [|u l];
    rewrite ?elem_of_union, ?elem_of_singleton, elem_of_list_to_set;
    destruct (decide (x ∈ room_members (conv_secret c) (adapter fw))); naive_solver.
Qed.

(** The calls of the two loops. *)
Lemma prune_all_calls us secret (l : list string) : forall fw,
  calls (foldl (fun fw p => exec (prune us secret p) fw) fw l)
  = calls fw ++ map (fun p => EvRemoveParticipant p secret)
                    (filter (fun p => has_user p us = false) l).
Proof.
  induction l as [|p l IH]; intros fw; cbn [foldl].
  - now rewrite app_nil_r.
  - rewrite IH. unfold prune. destruct (has_user p us) eqn:Hp; cbn [negb when].
    + now rewrite filter_cons_False by (rewrite Hp; discriminate).
    + rewrite filter_cons_True by assumption.
      cbn. now rewrite <- app_assoc.
Qed.

Lemma enrol_each_calls h ps secret (l : list User) : forall fw,
  calls (foldl (fun fw u => exec (enrol h ps secret u) fw) fw l)
  = calls fw ++ flat_map (enrol_calls h secret) (newcomers l ps).
Proof.
  unfold newcomers. induction l as [|u l IH]; intros fw; cbn [foldl].
  - now rewrite app_nil_r.
  - rewrite IH. destruct (includes (user_id u) ps) eqn:Hu.
    + rewrite enrol_old by done.
      now rewrite filter_cons_False by (rewrite Hu; discriminate).
    + rewrite enrol_new by done. rewrite filter_cons_True by assumption.
      cbn. now rewrite <- !app_assoc.
Qed.

Lemma reconcile_calls c us rd fw :
  let participants := adapter_getParticipantsForRoom (conv_secret c) (adapter fw) in
  calls (reconcile c us rd fw)
  = calls fw
    ++ map (fun p => EvRemoveParticipant p (conv_secret c))
           (filter (fun p => has_user p us = false) participants)
    ++ flat_map (enrol_calls (runtime (runtimeCharacterMap rd)) (conv_secret c))
                (newcomers us participants).
Proof.
  cbn zeta. unfold reconcile. rewrite enrol_each_calls, prune_all_calls.
  now rewrite <- app_assoc.
Qed.

Lemma newcomers_none (us : list User) (members : gset string) :
  (forall u, u ∈ us -> user_id u ∈ members) -> newcomers us (elements members) = [].
Proof.
  unfold newcomers. induction us as [|u us IH]; intros Hall; [reflexivity|].
  rewrite filter_cons_False.
  - apply IH. intros v Hv. apply Hall. now right.
  - intros Hout. apply includes_false in Hout. apply Hout, elem_of_elements, Hall. now left.
Qed.

Lemma reconciled_holds_roster (us connected : list User) (agent : string) (u : User) :
  u ∈ us -> user_id u ∈ reconciled us connected agent.
Proof.
  intros Hu. assert (Hin : user_id u ∈ map user_id us) by (apply list_elem_of_fmap; eauto).
  unfold reconciled. destruct connected; set_solver.
Qed.

Lemma with_roomMaps_id f fw : f (roomMaps fw) = roomMaps fw -> with_roomMaps f fw = fw.
Proof. destruct fw. unfold with_roomMaps. cbn. intros H. now rewrite H. Qed.

(** A reconcile that finds the roster and the participants already in
    place writes nothing. *)
Lemma setConversationUsers_settled fw c us rd :
  roomMaps fw !! conv_secret c = Some rd -> users rd = us ->
  room_members (conv_secret c) (adapter fw) = list_to_set (map user_id us) ->
  setConversationUsers c us fw = (Normal tt, fw).
Proof.
  intros Hroom Hus Hmem.
  unfold setConversationUsers, bind at 1, gets at 1. rewrite Hroom.
  unfold bind at 1, modify at 1. unfold bind at 1, db_getParticipantsForRoom, gets at 1.
  cbn [adapter with_roomMaps]. unfold adapter_getParticipantsForRoom. rewrite Hmem.
  rewrite with_roomMaps_id.
  2:{ apply alter_id. intros rd' Hrd'. rewrite Hroom in Hrd'. injection Hrd' as <-.
      destruct rd. cbn in *. now subst. }
  unfold bind. rewrite for_of_skip.
  - apply for_of_skip. intros u Hu. unfold when.
    assert (Hin : includes (user_id u) (elements (list_to_set (map user_id us) : gset string))
                  = true).
    { apply includes_spec, elem_of_elements, elem_of_list_to_set.
      apply list_elem_of_fmap. eauto. }
    now rewrite Hin.
  - intros p Hp. apply elem_of_elements, elem_of_list_to_set in Hp.
    apply has_user_spec in Hp. unfold when. now rewrite Hp.
Qed.

(** Two successive reconciles with the same roster. *)
Lemma reconcile_twice fw c us rd :
  roomMaps fw !! conv_secret c = Some rd ->
  resolves (conv_secret c) fw ->
  let secret := conv_secret c in
  let connected := newcomers us (adapter_getParticipantsForRoom secret (adapter fw)) in
  let agent := agent_of fw (runtimeCharacterMap rd) in
  let fw1 := exec (setConversationUsers c us) fw in
  let fw2 := exec (setConversationUsers c us) fw1 in
  room_members secret (adapter fw1) = reconciled us connected agent
  ∧ calls fw2
    = calls fw1 ++ map (fun p => EvRemoveParticipant p secret)
                       (filter (fun p => has_user p us = false)
                               (elements (reconciled us connected agent)))
  ∧ room_members secret (adapter fw2) = list_to_set (map user_id us)
  ∧ setConversationUsers c us fw2 = (Normal tt, fw2).
Proof.
  intros Hroom Hres. cbn zeta.
  set (agent := agent_of fw (runtimeCharacterMap rd)).
  set (connected := newcomers us _).
  assert (Hexec1 : exec (setConversationUsers c us) fw = reconcile c us rd fw).
  { unfold exec. now rewrite (setConversationUsers_run _ _ _ _ Hroom). }
  rewrite Hexec1.
  set (fw1 := reconcile c us rd fw).
  assert (Hmem1 : room_members (conv_secret c) (adapter fw1) = reconciled us connected agent)
    by now apply reconcile_members.
  assert (Hroom1 : roomMaps fw1 !! conv_secret c = Some (set_users us rd)).
  { unfold fw1. now rewrite reconcile_roomMaps, lookup_alter_eq, Hroom. }
  assert (Hres1 : resolves (conv_secret c) fw1).
  { unfold resolves, adapter_getRoom, fw1 in *. now rewrite reconcile_resolved. }
  assert (Hnone : newcomers us (adapter_getParticipantsForRoom (conv_secret c) (adapter fw1))
                  = []).
  { unfold adapter_getParticipantsForRoom. rewrite Hmem1. apply newcomers_none.
    intros u Hu. now apply reconciled_holds_roster. }
  assert (Hexec2 : exec (setConversationUsers c us) fw1
                   = reconcile c us (set_users us rd) fw1).
  { unfold exec. now rewrite (setConversationUsers_run _ _ _ _ Hroom1). }
  rewrite Hexec2.
  set (fw2 := reconcile c us (set_users us rd) fw1).
  assert (Hmem2 : room_members (conv_secret c) (adapter fw2) = list_to_set (map user_id us)).
  { unfold fw2. rewrite reconcile_members by exact Hres1. now rewrite Hnone. }
  split; [exact Hmem1|]. split; [|split; [exact Hmem2|]].
  - unfold fw2. rewrite reconcile_calls. cbn zeta. rewrite Hnone. cbn [flat_map].
    rewrite app_nil_r. unfold adapter_getParticipantsForRoom. now rewrite Hmem1.
  - apply (setConversationUsers_settled _ _ _ (set_users us (set_users us rd))).
    + unfold fw2. now rewrite reconcile_roomMaps, lookup_alter_eq, Hroom1.
    + reflexivity.
    + exact Hmem2.
Qed.

(** C2, amended.  On a tracked conversation whose room the adapter
    resolves, [setConversationUsers c U] returns normally and leaves as
    participants of the room the ids of [U], together with the agent of
    the room's runtime when the call connected somebody: the first loop
    removes the agent like every participant that is not in [U], and
    [ensureConnection] adds it again with the first user it connects.  A
    second call with the same [U] connects nobody, removes who is not in
    [U] (the agent) and leaves exactly the ids of [U]; only the third
    call changes nothing. *)
Theorem setConversationUsers_converges_in_two_calls (fw : Framework)
    (c : ElizaConversation) (us : list User) (rd : RoomData) :
  roomMaps fw !! conv_secret c = Some rd ->
  resolves (conv_secret c) fw ->
  let secret := conv_secret c in
  let connected := newcomers us (adapter_getParticipantsForRoom secret (adapter fw)) in
  let agent := agent_of fw (runtimeCharacterMap rd) in
  let fw1 := exec (setConversationUsers c us) fw in
  let fw2 := exec (setConversationUsers c us) fw1 in
  result (setConversationUsers c us) fw = Normal tt
  ∧ room_members secret (adapter fw1) = reconciled us connected agent
  ∧ (connected ≠ [] -> agent ∈ room_members secret (adapter fw1))
  ∧ calls fw2
    = calls fw1 ++ map (fun p => EvRemoveParticipant p secret)
                       (filter (fun p => has_user p us = false)
                               (elements (reconciled us connected agent)))
  ∧ room_members secret (adapter fw2) = list_to_set (map user_id us)
  ∧ setConversationUsers c us fw2 = (Normal tt, fw2).
Proof.
  intros Hroom Hres. cbn zeta.
  destruct (reconcile_twice fw c us rd Hroom Hres) as (Hmem1 & Hcalls & Hmem2 & Hfix).
  split; [apply setConversationUsers_returns|]. split; [exact Hmem1|].
  split; [|split; [exact Hcalls|split; [exact Hmem2 | exact Hfix]]].
  intros Hconnected. rewrite Hmem1. unfold reconciled.
  destruct (newcomers us _); [done | set_solver].
Qed.

Lemma createConversation_run fw room c us token agent :
  runtimeCharacterMaps fw !! options_hash (char_options c) = Some agent ->
  createConversation room c us token fw
  = (Normal (Some (new_conversation fw room c token)),
     reconcile (new_conversation fw room c token) us
               {| users := []; runtimeCharacterMap := agent |}
               (open_room room token agent fw)).
Proof.
  intros Hagent. unfold createConversation, bind at 1, gets at 1. rewrite Hagent.
  unfold db_createRoom, runtime_agentId, db_addParticipant, emit.
  unfold bind, modify, gets, ret. cbn [with_adapter with_calls runtimes conversationCount
    with_conversationCount with_conversationIdMap].
  fold (agent_of fw agent). fold (new_conversation fw room c token).
  rewrite (setConversationUsers_run _ _ _ {| users := []; runtimeCharacterMap := agent |}).
  - reflexivity.
  - cbn. apply lookup_insert_eq.
Qed.

Lemma createConversation_unknown fw room c us token :
  runtimeCharacterMaps fw !! options_hash (char_options c) = None ->
  createConversation room c us token fw = (Normal None, fw).
Proof. intros H. unfold createConversation, bind, gets. now rewrite H. Qed.

Lemma open_room_participants room token agent fw :
  adapter_getParticipantsForRoom room (adapter (open_room room token agent fw))
  = [agent_of fw agent].
Proof.
  unfold adapter_getParticipantsForRoom. cbn. rewrite members_add.
  unfold room_members. cbn. rewrite lookup_insert_eq. cbn.
  now rewrite union_empty_r_L, elements_singleton.
Qed.

Lemma truthy_string_ne s : s ≠ EmptyString -> truthy_string s = true.
Proof. intros H. unfold truthy_string. now rewrite bool_decide_eq_false_2. Qed.

Lemma open_room_resolves room token agent fw :
  room ≠ EmptyString -> resolves room (open_room room token agent fw).
Proof.
  intros Hne. unfold resolves, adapter_getRoom. cbn. rewrite lookup_insert_eq. cbn.
  now apply truthy_string_ne.
Qed.

(** What [createConversation] leaves behind, field by field. *)
Lemma createConversation_effect room c us token agent fw :
  runtimeCharacterMaps fw !! options_hash (char_options c) = Some agent ->
  let fw' := exec (createConversation room c us token) fw in
  conversationIdMap fw' = idmap_set (conversationCount fw + 1) room (conversationIdMap fw)
  ∧ conversationCount fw' = conversationCount fw + 1
  ∧ db_rooms (adapter fw')
    = <[room := room]> (match token with
                        | Some t => <[t := room]> (db_rooms (adapter fw))
                        | None => db_rooms (adapter fw)
                        end)
  ∧ roomMaps fw'
    = <[room := {| users := us; runtimeCharacterMap := agent |}]> (roomMaps fw)
  ∧ runtimeCharacterMaps fw' = runtimeCharacterMaps fw
  ∧ runtimes fw' = runtimes fw.
Proof.
  intros Hagent. cbn zeta. unfold exec.
  rewrite (createConversation_run _ _ _ _ _ _ Hagent). cbn [snd].
  rewrite (reconcile_frame conversationIdMap), (reconcile_frame conversationCount),
    (reconcile_frame runtimeCharacterMaps), (reconcile_frame runtimes) by reflexivity.
  rewrite reconcile_roomMaps. cbn [new_conversation conv_secret].
  split; [reflexivity|]. split; [reflexivity|]. split; [|split; [|split; reflexivity]].
  - destruct (reconcile_rooms (new_conversation fw room c token) us
                {| users := []; runtimeCharacterMap := agent |}
                (open_room room token agent fw)) as [Hr | Hr];
      rewrite Hr; cbn; now rewrite ?insert_insert_eq.
  - cbn. rewrite alter_insert_eq. reflexivity.
Qed.

Lemma newcomers_all (us : list User) (agent : string) :
  agent ∉ map user_id us -> newcomers us [agent] = us.
Proof.
  unfold newcomers. induction us as [|u us IH]; intros Hout; [reflexivity|].
  cbn [map] in Hout. apply not_elem_of_cons in Hout as [Hne Hout].
  rewrite filter_cons_True.
  - now rewrite IH.
  - apply includes_false. intros Hin. apply list_elem_of_singleton in Hin. congruence.
Qed.

Lemma createConversation_members fw room c us token agent :
  runtimeCharacterMaps fw !! options_hash (char_options c) = Some agent ->
  room ≠ EmptyString ->
  room_members room (adapter (exec (createConversation room c us token) fw))
  = reconciled us (newcomers us [agent_of fw agent]) (agent_of fw agent).
Proof.
  intros Hagent Hne. unfold exec.
  rewrite (createConversation_run _ _ _ _ _ _ Hagent). cbn [snd].
  pose proof (reconcile_members (new_conversation fw room c token) us
                {| users := []; runtimeCharacterMap := agent |}
                (open_room room token agent fw)) as Hmem.
  cbn [conv_secret new_conversation runtimeCharacterMap] in Hmem.
  rewrite Hmem by now apply open_room_resolves.
  now rewrite open_room_participants.
Qed.

Lemma createConversation_calls fw room c us token agent :
  runtimeCharacterMaps fw !! options_hash (char_options c) = Some agent ->
  let aid := agent_of fw agent in
  calls (exec (createConversation room c us token) fw)
  = calls fw
    ++ [EvCreateRoom token room; EvAddParticipant aid room]
    ++ map (fun p => EvRemoveParticipant p room) (filter (fun p => has_user p us = false) [aid])
    ++ flat_map (enrol_calls (runtime agent) room) (newcomers us [aid]).
Proof.
  intros Hagent. cbn zeta. unfold exec.
  rewrite (createConversation_run _ _ _ _ _ _ Hagent). cbn [snd].
  rewrite reconcile_calls. cbn zeta.
  cbn [conv_secret new_conversation runtime runtimeCharacterMap].
  rewrite open_room_participants. cbn [open_room calls with_calls with_roomMaps
    with_conversationIdMap with_conversationCount with_adapter].
  now rewrite <- !app_assoc.
Qed.

(** C5, amended.  When the character is registered and the adapter hands
    back a non-empty room id, [createConversation] adds the agent to the
    new room and runs the reconcile on it.  With the agent's id not among
    the ids of [users], the first loop removes the agent, and the second
    loop connects and adds every user; the first [ensureConnection] adds
    the agent again.  So the agent is a participant at the end whenever
    [users] is not empty, next to the ids of [users]; only with an empty
    roster does the room end without the agent, and without anybody. *)
Theorem createConversation_agent_rejoins (fw : Framework) (room : string)
    (c : ElizaCharacter) (us : list User) (token : option string)
    (agent : RuntimeCharacterMap) :
  runtimeCharacterMaps fw !! options_hash (char_options c) = Some agent ->
  room ≠ EmptyString ->
  let aid := agent_of fw agent in
  let fw' := exec (createConversation room c us token) fw in
  result (createConversation room c us token) fw
  = Normal (Some (new_conversation fw room c token))
  ∧ room_members room (adapter fw') = reconciled us (newcomers us [aid]) aid
  ∧ (aid ∉ map user_id us ->
     calls fw' = (calls fw
                  ++ [EvCreateRoom token room; EvAddParticipant aid room;
                      EvRemoveParticipant aid room]
                  ++ flat_map (enrol_calls (runtime agent) room) us)
     ∧ (us ≠ [] ->
        aid ∈ room_members room (adapter fw')
        ∧ room_members room (adapter fw') = list_to_set (map user_id us) ∪ {[aid]})
     ∧ (us = [] -> room_members room (adapter fw') = ∅)).
Proof.
  intros Hagent Hne aid fw'.
  pose proof (createConversation_members fw room c us token agent Hagent Hne) as Hmem.
  fold aid fw' in Hmem.
  split; [unfold result; now rewrite (createConversation_run _ _ _ _ _ _ Hagent)|].
  split; [exact Hmem|]. intros Hout.
  rewrite (newcomers_all us aid Hout) in Hmem. split; [|split].
  - unfold fw'. rewrite (createConversation_calls _ _ _ _ _ _ Hagent). fold aid.
    rewrite (newcomers_all us aid Hout).
    rewrite filter_cons_True.
    + reflexivity.
    + destruct (has_user aid us) eqn:E; [|done]. apply has_user_spec in E. done.
  - intros Hsome. rewrite Hmem. unfold reconciled. destruct us; [done|].
    split; [set_solver | reflexivity].
  - intros ->. rewrite Hmem. reflexivity.
Qed.

Ltac by_compute := apply (bool_decide_unpack _); vm_compute; exact I.

(** ** Frames and invariants of the runs *)

Ltac destruct_inner x :=
  lazymatch x with
  | context [match ?y with _ => _ end] => destruct_inner y
  | _ => destruct x eqn:?
  end.

Ltac run_op :=
  unfold exec, result, bind, gets, modify, emit, ret, throw, when; cbn;
  repeat (match goal with
          | |- context [match ?x with _ => _ end] => destruct_inner x
          end; unfold modify, ret; cbn).

Lemma untouched_refl fw : untouched fw fw.
Proof. repeat split. Qed.

Lemma untouched_trans a b c : untouched a b -> untouched b c -> untouched a c.
Proof.
  intros ([] & [] & Hr1) ([] & [] & Hr2). unfold same_rooms in *.
  repeat split; congruence.
Qed.

Ltac frame := repeat split; cbn; rewrite ?length_alter; reflexivity.

Lemma start_untouched fw : untouched fw (exec start fw).
Proof. unfold start, db_init. run_op; frame. Qed.

Lemma loadCharacter_untouched c fw : untouched fw (exec (loadCharacter c) fw).
Proof.
  unfold loadCharacter, containsCharacter, runtime_initialize, runtime_update.
  run_op; frame.
Qed.

Lemma stop_untouched fw : untouched fw (exec stop fw).
Proof.
  unfold stop, exec, bind at 1, gets. rewrite for_of_total by reflexivity. cbn [snd].
  apply (foldl_preserves untouched); [apply untouched_refl | apply untouched_trans |].
  intros; frame.
Qed.

Lemma setConversationCharacter_untouched c k fw :
  untouched fw (exec (setConversationCharacter c k) fw).
Proof. unfold setConversationCharacter, runtime_stop, runtime_update. run_op; frame. Qed.

Lemma sendToConversation_untouched c m p ctx r col fw :
  untouched fw (exec (sendToConversation c m p ctx r col) fw).
Proof.
  unfold sendToConversation, runtime_update, runtime_agentId, runtime_actions.
  run_op; frame.
Qed.

(** A reconcile touches neither the identity map nor the registry; in the
    room table the runtime may register the room again. *)
Lemma setConversationUsers_frame c us fw :
  same_ids fw (exec (setConversationUsers c us) fw)
  ∧ same_registry fw (exec (setConversationUsers c us) fw)
  ∧ rooms_grow (conv_secret c) fw (exec (setConversationUsers c us) fw).
Proof.
  unfold exec. destruct (roomMaps fw !! conv_secret c) as [rd|] eqn:Hroom.
  - rewrite (setConversationUsers_run _ _ _ _ Hroom). cbn [snd].
    split; [|split; [|apply reconcile_rooms]]; split.
    + now rewrite (reconcile_frame conversationIdMap).
    + now rewrite (reconcile_frame conversationCount).
    + now rewrite (reconcile_frame runtimeCharacterMaps).
    + now rewrite (reconcile_frame (fun fw => length (runtimes fw))).
  - rewrite (setConversationUsers_untracked _ _ _ Hroom). cbn [snd].
    split; [|split; [|apply rooms_grow_refl]]; now split.
Qed.

Lemma getOrCreateCharacter_frame aid d fw :
  same_ids fw (exec (getOrCreateCharacter aid d) fw)
  ∧ same_rooms fw (exec (getOrCreateCharacter aid d) fw).
Proof. unfold getOrCreateCharacter, runtime_new. run_op; frame. Qed.

Lemma finishConversation_frame c fw :
  same_ids fw (exec (finishConversation c) fw)
  ∧ same_registry fw (exec (finishConversation c) fw).
Proof. unfold finishConversation, db_removeRoom. run_op; frame. Qed.

Lemma createConversation_registry room c us token fw :
  same_registry fw (exec (createConversation room c us token) fw).
Proof.
  destruct (runtimeCharacterMaps fw !! options_hash (char_options c)) as [agent|] eqn:Hagent.
  - destruct (createConversation_effect room c us token agent fw Hagent)
      as (_ & _ & _ & _ & Hb & Hl).
    split; [rewrite Hb | rewrite Hl]; reflexivity.
  - unfold exec. rewrite (createConversation_unknown _ _ _ _ _ Hagent). now split.
Qed.

Lemma idmap_set_fresh (id : N) (v : string) (m : list (N * string)) :
  id ∉ map fst m -> idmap_set id v m = m ++ [(id, v)].
Proof.
  induction m as [|[k w] m IH]; intros Hfresh; [reflexivity|].
  cbn in *. apply not_elem_of_cons in Hfresh as [Hne Hrest].
  destruct (N.eqb_spec k id); [congruence|]. now rewrite IH.
Qed.

Lemma idmap_get_elem (id : N) (s : string) (m : list (N * string)) :
  idmap_get id m = Some s -> (id, s) ∈ m.
Proof.
  induction m as [|[k w] m IH]; cbn; [discriminate|].
  destruct (N.eqb_spec k id) as [->|Hne].
  - intros [= ->]. constructor.
  - intros H. constructor. auto.
Qed.

Lemma idmap_get_app_l (id : N) (s : string) (m m' : list (N * string)) :
  idmap_get id m = Some s -> idmap_get id (m ++ m') = Some s.
Proof.
  induction m as [|[k w] m IH]; cbn; [discriminate|].
  destruct (k =? id); auto.
Qed.

Lemma idmap_key_of_unique (id : N) (s : string) (m : list (N * string)) :
  NoDup (map snd m) -> (id, s) ∈ m -> idmap_key_of s m = Some id.
Proof.
  unfold idmap_key_of. induction m as [|[k w] m IH]; intros Hnd Hin; [inversion Hin|].
  cbn in *. apply NoDup_cons in Hnd as [Hw Hnd].
  apply elem_of_cons in Hin as [[= -> ->]|Hin].
  - now rewrite bool_decide_eq_true_2.
  - rewrite bool_decide_eq_false_2; [auto|].
    intros ->. apply Hw. apply (list_elem_of_fmap_2 snd) in Hin. exact Hin.
Qed.

Lemma ids_wf_transfer fw fw' : same_ids fw fw' -> ids_wf fw -> ids_wf fw'.
Proof. intros [Hm Hc]. unfold ids_wf, secrets. now rewrite Hm, Hc. Qed.

Lemma rooms_wf_transfer fw fw' :
  same_ids fw fw' -> same_rooms fw fw' -> rooms_wf fw -> rooms_wf fw'.
Proof.
  intros [Hm _] Hr Hwf s r. unfold secrets, adapter_getRoom. rewrite Hm, Hr. apply Hwf.
Qed.

Lemma rooms_wf_grow room fw fw' :
  same_ids fw fw' -> rooms_grow room fw fw' -> rooms_wf fw -> rooms_wf fw'.
Proof.
  intros [Hm _] [Hr | Hr] Hwf s r; unfold secrets, adapter_getRoom; rewrite Hm, Hr.
  - apply Hwf.
  - rewrite lookup_insert. case_decide; [congruence | apply Hwf].
Qed.

Lemma registry_wf_transfer fw fw' : same_registry fw fw' -> registry_wf fw -> registry_wf fw'.
Proof. intros [Hb Hl]. unfold registry_wf. now rewrite Hb, Hl. Qed.

Lemma wf_untouched fw fw' : untouched fw fw' -> wf fw -> wf fw'.
Proof.
  intros (Hi & Hg & Hr) (? & ? & ?). split; [|split].
  - eapply ids_wf_transfer; eauto.
  - eapply rooms_wf_transfer; eauto.
  - eapply registry_wf_transfer; eauto.
Qed.

Lemma setConversationUsers_wf c us fw : wf fw -> wf (exec (setConversationUsers c us) fw).
Proof.
  intros (Hids & Hrooms & Hreg).
  destruct (setConversationUsers_frame c us fw) as (Hi & Hg & Hr).
  split; [|split].
  - eapply ids_wf_transfer; eauto.
  - eapply rooms_wf_grow; eauto.
  - eapply registry_wf_transfer; eauto.
Qed.

Lemma fresh_key fw : ids_wf fw -> conversationCount fw + 1 ∉ map fst (conversationIdMap fw).
Proof.
  intros (_ & _ & Hall) Hin. apply list_elem_of_fmap in Hin as ([k v] & Hk & Hin).
  rewrite Forall_forall in Hall. apply Hall in Hin. cbn in *. lia.
Qed.

Lemma createConversation_ids room c us token agent fw :
  ids_wf fw ->
  runtimeCharacterMaps fw !! options_hash (char_options c) = Some agent ->
  let fw' := exec (createConversation room c us token) fw in
  conversationIdMap fw' = conversationIdMap fw ++ [(conversationCount fw + 1, room)]
  ∧ conversationCount fw' = conversationCount fw + 1
  ∧ db_rooms (adapter fw')
    = <[room := room]> (match token with
                        | Some t => <[t := room]> (db_rooms (adapter fw))
                        | None => db_rooms (adapter fw)
                        end).
Proof.
  intros Hwf Hagent fw'.
  destruct (createConversation_effect room c us token agent fw Hagent) as (Hm & Hc & Hr & _).
  fold fw' in Hm, Hc, Hr. rewrite Hm, Hc, Hr.
  now rewrite idmap_set_fresh by now apply fresh_key.
Qed.

Lemma createConversation_wf room c us token fw :
  wf fw -> admissible fw (CallCreateConversation room c us token) ->
  wf (exec (createConversation room c us token) fw).
Proof.
  intros (Hids & Hrooms & Hreg) (Hne & Hfresh & Htoken).
  destruct (runtimeCharacterMaps fw !! options_hash (char_options c)) as [agent|] eqn:Hagent.
  2:{ unfold exec. rewrite (createConversation_unknown _ _ _ _ _ Hagent). cbn. now split. }
  destruct (createConversation_ids room c us token agent fw Hids Hagent) as (Hm & Hc & Hr).
  pose proof (createConversation_registry room c us token fw) as Hsame.
  split; [|split]; [| |eapply registry_wf_transfer; eauto].
  - destruct Hids as (Hk & Hs & Hall). pose proof (fresh_key fw (conj Hk (conj Hs Hall))).
    unfold ids_wf, secrets. rewrite Hm, Hc, !map_app. cbn.
    split; [|split].
    + apply NoDup_app. split; [done|]. split; [|apply NoDup_singleton].
      intros k Hin Hk'. apply list_elem_of_singleton in Hk'. congruence.
    + apply NoDup_app. split; [done|]. split; [|apply NoDup_singleton].
      intros k Hin Hk'. apply list_elem_of_singleton in Hk'. subst. done.
    + apply Forall_app. split.
      * eapply Forall_impl; [exact Hall|]. cbn. intros [k v] ?. cbn in *. split; [lia|tauto].
      * constructor; [|constructor]. cbn. split; [lia|done].
  - intros s r. unfold secrets, adapter_getRoom. rewrite Hm, Hr, map_app. cbn.
    rewrite elem_of_app, list_elem_of_singleton. intros [Hs | ->].
    + assert (s ≠ room) by (intros ->; done).
      rewrite lookup_insert_ne by done.
      destruct token as [t|].
      * assert (t ≠ s) by (intros ->; eapply Htoken; eauto).
        rewrite lookup_insert_ne by done. now apply Hrooms.
      * now apply Hrooms.
    + rewrite lookup_insert_eq. congruence.
Qed.

Lemma finishConversation_wf c fw : wf fw -> wf (exec (finishConversation c) fw).
Proof.
  intros (Hids & Hrooms & Hreg). destruct (finishConversation_frame c fw) as [Hi Hg].
  split; [|split]; eauto using ids_wf_transfer, registry_wf_transfer.
  intros s r. destruct Hi as [Hm _]. unfold secrets. rewrite Hm.
  intros Hs. unfold adapter_getRoom, finishConversation, db_removeRoom. run_op.
  intros Hlk. apply map_lookup_filter_Some in Hlk as [Hlk _]. now apply Hrooms.
Qed.

Lemma getOrCreateCharacter_known aid d fw :
  is_Some (runtimeCharacterMaps fw !! options_hash d) ->
  getOrCreateCharacter aid d fw = (Normal (new_ElizaCharacter (opt_name d) d), fw).
Proof.
  intros H. unfold getOrCreateCharacter, bind, gets.
  now rewrite bool_decide_eq_true_2.
Qed.

Lemma getOrCreateCharacter_new aid d fw :
  runtimeCharacterMaps fw !! options_hash d = None ->
  getOrCreateCharacter aid d fw
  = (Normal (new_ElizaCharacter (opt_name d) d), register aid d fw).
Proof.
  intros H. unfold getOrCreateCharacter, bind, gets.
  rewrite bool_decide_eq_false_2 by (rewrite H; now intros [? ?]).
  reflexivity.
Qed.

Lemma getOrCreateCharacter_wf aid d fw : wf fw -> wf (exec (getOrCreateCharacter aid d) fw).
Proof.
  intros (Hids & Hrooms & Hreg). destruct (getOrCreateCharacter_frame aid d fw) as [Hi Hr].
  split; [|split]; eauto using ids_wf_transfer, rooms_wf_transfer.
  unfold exec.
  destruct (runtimeCharacterMaps fw !! options_hash d) as [b|] eqn:Hb.
  - now rewrite getOrCreateCharacter_known by eauto.
  - rewrite (getOrCreateCharacter_new _ _ _ Hb). cbn [snd].
    destruct Hreg as (Hkey & Hinj & Hsize).
    unfold registry_wf, register. cbn. rewrite length_app. cbn.
    split; [|split].
    + intros h b'. rewrite lookup_insert. case_decide as Hh.
      * intros [= <-]. cbn. split; [done | lia].
      * intros Hlk. apply Hkey in Hlk as [? ?]. split; [done | lia].
    + intros h1 h2 b1 b2. rewrite !lookup_insert.
      repeat case_decide; subst; try done.
      * intros [= <-] Hlk. cbn. apply Hkey in Hlk as [_ ?]. lia.
      * intros Hlk [= <-]. cbn. apply Hkey in Hlk as [_ ?]. lia.
      * apply Hinj.
    + rewrite map_size_insert_None by done. lia.
Qed.

Create HintDb frames discriminated.
#[local] Hint Resolve start_untouched loadCharacter_untouched stop_untouched
  setConversationCharacter_untouched sendToConversation_untouched : frames.

Lemma invoke_wf call fw : wf fw -> admissible fw call -> wf (invoke call fw).
Proof.
  intros Hwf Hadm.
  destruct call; cbn [invoke];
    try (eapply wf_untouched; [solve [eauto with frames] | done]).
  - now apply getOrCreateCharacter_wf.
  - now apply createConversation_wf.
  - now apply finishConversation_wf.
  - now apply setConversationUsers_wf.
Qed.

Lemma reachable_wf fw : reachable fw -> wf fw.
Proof.
  induction 1 as [opts db | fw call _ IH Hadm].
  - split; [|split].
    + repeat split; cbn; constructor.
    + intros s r Hs. inversion Hs.
    + split; [|split]; cbn.
      * intros h b Hlk. now rewrite lookup_empty in Hlk.
      * intros h1 h2 b1 b2 Hlk. now rewrite lookup_empty in Hlk.
      * apply map_size_empty.
  - now apply invoke_wf.
Qed.

Lemma reachable_run later : forall fw,
  reachable fw -> admissible_run fw later -> reachable (run later fw).
Proof.
  induction later as [|call later IH]; intros fw Hreach Hadm; [exact Hreach|].
  destruct Hadm as [Hcall Hrest]. cbn [run foldl]. apply IH; [|exact Hrest].
  now apply reachable_invoke.
Defined.

Lemma fw_registered_reachable : reachable fw_registered.
Proof.
  apply reachable_run; [apply reachable_new|]. cbn [admissible_run admissible]. tauto.
Defined.

Lemma fw_two_rooms_reachable : reachable fw_two_rooms.
Proof.
  apply reachable_run; [apply fw_registered_reachable|].
  cbn [admissible_run admissible]. repeat split.
  - discriminate.
  - by_compute.
  - intros t [=].
  - discriminate.
  - by_compute.
  - intros t [= <-]. by_compute.
Defined.

(** ** The character registry *)



(** ** The three selectors of a conversation *)

Lemma truthy_number_pos n : 1 <= n -> truthy_number n = true.
Proof. unfold truthy_number. destruct (N.eqb_spec n 0); [lia | done]. Qed.

Lemma by_id_selects fw c :
  ids_wf fw -> live c fw -> selects (by_id (conv_id c)) c fw.
Proof.
  intros (_ & _ & Hall) (Hget & Hroom & [rd Hrd]).
  pose proof (idmap_get_elem _ _ _ Hget) as Hin.
  rewrite Forall_forall in Hall. apply Hall in Hin as [Hid Hsec]. cbn in Hid, Hsec.
  exists (conversation_of (conv_id c) (conv_secret c) rd None). split; [|done].
  unfold result, getConversationBy. cbn [sel_id by_id truthy_opt from_option id].
  rewrite truthy_number_pos by lia.
  unfold by_id_branch, db_getRoom, bind, gets. rewrite Hget. cbn [truthy_opt from_option id].
  rewrite truthy_string_ne by done. cbn beta iota. rewrite Hroom, Hrd. reflexivity.
Qed.

Lemma by_secret_selects fw c :
  ids_wf fw -> live c fw -> selects (by_secret (conv_secret c)) c fw.
Proof.
  intros (_ & Hnd & Hall) (Hget & Hroom & [rd Hrd]).
  pose proof (idmap_get_elem _ _ _ Hget) as Hin.
  rewrite Forall_forall in Hall. destruct (Hall _ Hin) as [Hid Hsec]. cbn in Hid, Hsec.
  exists (conversation_of (conv_id c) (conv_secret c) rd None). split; [|done].
  unfold result, getConversationBy. cbn [sel_id sel_secret by_secret truthy_opt].
  unfold by_secret_or_token. cbn [truthy_opt from_option id].
  rewrite truthy_string_ne by done.
  unfold by_secret_branch, db_getRoom, bind, gets. rewrite Hroom, Hrd.
  rewrite (idmap_key_of_unique _ _ _ Hnd Hin). cbn [truthy_opt from_option id].
  now rewrite truthy_number_pos by lia.
Qed.

Lemma by_token_selects fw c t :
  ids_wf fw -> live c fw -> t ≠ EmptyString ->
  adapter_getRoom t (adapter fw) = Some (conv_secret c) ->
  selects (by_persistenceToken t) c fw.
Proof.
  intros (_ & Hnd & Hall) (Hget & Hroom & [rd Hrd]) Ht Hres.
  pose proof (idmap_get_elem _ _ _ Hget) as Hin.
  rewrite Forall_forall in Hall. destruct (Hall _ Hin) as [Hid Hsec]. cbn in Hid, Hsec.
  exists (conversation_of (conv_id c) (conv_secret c) rd (Some t)). split; [|done].
  unfold result, getConversationBy.
  cbn [sel_id sel_secret sel_persistenceToken by_persistenceToken truthy_opt].
  unfold by_secret_or_token. cbn [truthy_opt from_option id].
  rewrite truthy_string_ne by done.
  unfold by_token_branch, db_getRoom, bind, gets. rewrite Hres. cbn [truthy_opt from_option id].
  rewrite truthy_string_ne by done. rewrite Hrd.
  rewrite (idmap_key_of_unique _ _ _ Hnd Hin). cbn [truthy_opt from_option id].
  now rewrite truthy_number_pos by lia.
Qed.

Lemma createConversation_live room c us token agent fw :
  reachable fw -> admissible fw (CallCreateConversation room c us token) ->
  runtimeCharacterMaps fw !! options_hash (char_options c) = Some agent ->
  let fw' := exec (createConversation room c us token) fw in
  live (new_conversation fw room c token) fw'
  ∧ (forall t, token = Some t -> adapter_getRoom t (adapter fw') = Some room).
Proof.
  intros Hreach (Hne & Hfresh & Htoken) Hagent fw'.
  apply reachable_wf in Hreach as (Hids & _ & _).
  destruct (createConversation_ids room c us token agent fw Hids Hagent) as (Hm & Hc & Hr).
  fold fw' in Hm, Hc, Hr. unfold live, adapter_getRoom.
  cbn [new_conversation conv_id conv_secret]. rewrite Hm, Hr.
  split; [split; [|split]|].
  - pose proof (fresh_key fw Hids) as Hk. revert Hk.
    generalize (conversationCount fw + 1) as k. generalize (conversationIdMap fw) as m.
    induction m as [|[k' v] m IH]; intros k Hk; cbn in *.
    + now rewrite N.eqb_refl.
    + apply not_elem_of_cons in Hk as [Hne' Hk].
      destruct (N.eqb_spec k' k); [congruence | auto].
  - rewrite lookup_insert_eq. cbn. now apply truthy_string_ne.
  - unfold fw', exec. rewrite (createConversation_run _ _ _ _ _ _ Hagent). cbn [snd].
    rewrite reconcile_roomMaps. cbn. rewrite lookup_alter_eq, lookup_insert_eq. eauto.
  - intros t ->. rewrite lookup_insert. case_decide; [done|]. now rewrite lookup_insert_eq.
Qed.

(** ** Finishing a conversation *)

Lemma absent_by_secret fw s :
  adapter_getRoom s (adapter fw) = None -> absent (by_secret s) fw.
Proof.
  intros Hnone. unfold absent, result, getConversationBy.
  cbn [sel_id sel_secret sel_persistenceToken by_secret truthy_opt].
  unfold by_secret_or_token. cbn [truthy_opt from_option id].
  destruct (truthy_string s); [|reflexivity].
  unfold by_secret_branch, db_getRoom, bind, gets. cbn beta iota. now rewrite Hnone.
Qed.

Lemma absent_by_token fw t :
  adapter_getRoom t (adapter fw) = None -> absent (by_persistenceToken t) fw.
Proof.
  intros Hnone. unfold absent, result, getConversationBy.
  cbn [sel_id sel_secret sel_persistenceToken by_persistenceToken truthy_opt].
  unfold by_secret_or_token. cbn [truthy_opt from_option id].
  destruct (truthy_string t); [|reflexivity].
  unfold by_token_branch, db_getRoom, bind, gets. cbn beta iota. now rewrite Hnone.
Qed.

Lemma absent_by_id fw n s :
  idmap_get n (conversationIdMap fw) = Some s ->
  adapter_getRoom s (adapter fw) = None -> absent (by_id n) fw.
Proof.
  intros Hget Hnone. unfold absent, result, getConversationBy.
  cbn [sel_id sel_secret sel_persistenceToken by_id truthy_opt from_option id].
  destruct (truthy_number n).
  - unfold by_id_branch, db_getRoom, bind, gets. cbn beta iota. rewrite Hget.
    cbn [truthy_opt from_option id]. destruct (truthy_string s); [|reflexivity].
    now rewrite Hnone.
  - reflexivity.
Qed.

Lemma finishConversation_rooms c fw :
  db_rooms (adapter (exec (finishConversation c) fw))
  = filter (fun kv => kv.2 ≠ conv_secret c) (db_rooms (adapter fw)).
Proof. reflexivity. Qed.

Lemma invoke_keeps_id n s call fw :
  ids_wf fw ->
  idmap_get n (conversationIdMap fw) = Some s ->
  idmap_get n (conversationIdMap (invoke call fw)) = Some s.
Proof.
  intros Hwf Hget.
  destruct call; cbn [invoke].
  - destruct (start_untouched fw) as ([Hm _] & _). now rewrite Hm.
  - destruct (getOrCreateCharacter_frame aid d fw) as ([Hm _] & _). now rewrite Hm.
  - destruct (loadCharacter_untouched c fw) as ([Hm _] & _). now rewrite Hm.
  - destruct (stop_untouched fw) as ([Hm _] & _). now rewrite Hm.
  - destruct (runtimeCharacterMaps fw !! options_hash (char_options c)) as [agent|] eqn:Hagent.
    + destruct (createConversation_ids room c us token agent fw Hwf Hagent) as (Hm & _).
      rewrite Hm. now apply idmap_get_app_l.
    + unfold exec. now rewrite (createConversation_unknown _ _ _ _ _ Hagent).
  - destruct (finishConversation_frame conversation fw) as ([Hm _] & _). now rewrite Hm.
  - destruct (setConversationUsers_frame conversation us fw) as ([Hm _] & _).
    now rewrite Hm.
  - destruct (setConversationCharacter_untouched conversation c fw) as ([Hm _] & _).
    now rewrite Hm.
  - destruct (sendToConversation_untouched conversation message playerId context
                response collected fw) as ([Hm _] & _).
    now rewrite Hm.
Qed.

Lemma secret_of_id n s fw :
  idmap_get n (conversationIdMap fw) = Some s -> s ∈ secrets fw.
Proof.
  intros H. apply idmap_get_elem in H. unfold secrets.
  apply (list_elem_of_fmap_2 snd) in H. exact H.
Qed.

(** A conversation stays live until it is finished. *)
Lemma invoke_keeps_tracked c call fw :
  tracked c fw -> tracked c (invoke call fw).
Proof.
  unfold tracked. intros Htracked. destruct call; cbn [invoke].
  - unfold start, db_init. run_op; done.
  - unfold getOrCreateCharacter, runtime_new. run_op; done.
  - unfold loadCharacter, containsCharacter, runtime_initialize, runtime_update. run_op; done.
  - unfold stop, exec, bind at 1, gets. rewrite for_of_total by reflexivity. cbn [snd].
    rewrite (foldl_adapter_frame _ _ roomMaps); [done|]. reflexivity.
  - unfold exec.
    destruct (runtimeCharacterMaps fw !! options_hash (char_options c0)) as [agent|] eqn:Hagent.
    + rewrite (createConversation_run _ _ _ _ _ _ Hagent). cbn [snd].
      rewrite reconcile_roomMaps. cbn. rewrite lookup_alter_is_Some, lookup_insert_is_Some.
      destruct (decide (room = conv_secret c)); [now left | now right].
    + now rewrite (createConversation_unknown _ _ _ _ _ Hagent).
  - unfold finishConversation, db_removeRoom. run_op; done.
  - unfold exec. destruct (roomMaps fw !! conv_secret conversation) as [rd|] eqn:Hroom.
    + rewrite (setConversationUsers_run _ _ _ _ Hroom). cbn [snd].
      rewrite reconcile_roomMaps. now rewrite lookup_alter_is_Some.
    + now rewrite (setConversationUsers_untracked _ _ _ Hroom).
  - unfold setConversationCharacter, runtime_stop, runtime_update.
    run_op; rewrite ?lookup_alter_is_Some; done.
  - unfold sendToConversation, runtime_update, runtime_agentId, runtime_actions.
    run_op; done.
Qed.

Lemma invoke_keeps_resolved s r call fw :
  wf fw -> admissible fw call -> s ∈ secrets fw ->
  (forall c', call = CallFinishConversation c' -> conv_secret c' ≠ s) ->
  adapter_getRoom s (adapter fw) = Some r ->
  adapter_getRoom s (adapter (invoke call fw)) = Some r.
Proof.
  intros (_ & Hrooms & _) Hadm Hs Hother Hres. unfold adapter_getRoom in *.
  destruct call; cbn [invoke admissible] in *.
  - destruct (start_untouched fw) as (_ & _ & Hr). now rewrite Hr.
  - destruct (getOrCreateCharacter_frame aid d fw) as (_ & Hr). now rewrite Hr.
  - destruct (loadCharacter_untouched c fw) as (_ & _ & Hr). now rewrite Hr.
  - destruct (stop_untouched fw) as (_ & _ & Hr). now rewrite Hr.
  - destruct Hadm as (_ & Hroom & Htoken).
    destruct (runtimeCharacterMaps fw !! options_hash (char_options c)) as [agent|] eqn:Hagent.
    + destruct (createConversation_effect room c us token agent fw Hagent)
        as (_ & _ & Hr & _).
      rewrite Hr. rewrite lookup_insert_ne by (intros ->; done).
      destruct token as [t|]; [|done].
      rewrite lookup_insert_ne; [done|]. intros ->. eapply Htoken; eauto.
    + unfold exec. now rewrite (createConversation_unknown _ _ _ _ _ Hagent).
  - rewrite finishConversation_rooms. apply map_lookup_filter_Some. split; [done|].
    cbn. pose proof (Hrooms _ _ Hs Hres) as ->. intros Heq. now apply (Hother conversation).
  - destruct (setConversationUsers_frame conversation us fw) as (_ & _ & [Hr | Hr]);
      rewrite Hr; [done|].
    rewrite lookup_insert. case_decide as Heq; [|done].
    subst s. now rewrite (Hrooms _ _ Hs Hres).
  - destruct (setConversationCharacter_untouched conversation c fw) as (_ & _ & Hr).
    now rewrite Hr.
  - destruct (sendToConversation_untouched conversation message playerId context
                response collected fw) as (_ & _ & Hr).
    now rewrite Hr.
Qed.

Lemma invoke_keeps_live c call fw :
  wf fw -> admissible fw call ->
  (forall c', call = CallFinishConversation c' -> conv_secret c' ≠ conv_secret c) ->
  live c fw -> live c (invoke call fw).
Proof.
  intros Hwf Hadm Hother (Hget & Hroom & Htracked).
  split; [|split].
  - apply invoke_keeps_id; [apply Hwf | done].
  - destruct (adapter_getRoom (conv_secret c) (adapter fw)) as [r|] eqn:Hr; [|discriminate].
    rewrite (invoke_keeps_resolved (conv_secret c) r call fw); try done.
    eapply secret_of_id; eauto.
  - now apply invoke_keeps_tracked.
Qed.

(** ** Reassigning a conversation's character *)

Lemma setConversationCharacter_run fw c k rd b :
  roomMaps fw !! conv_secret c = Some rd ->
  runtimeCharacterMaps fw !! options_hash (char_options k) = Some b ->
  setConversationCharacter c k fw
  = (Normal tt,
     with_roomMaps (alter (set_runtimeCharacterMap b) (conv_secret c))
       (if existsb (fun entry => uses_character k entry.2) (map_to_list (roomMaps fw))
        then fw
        else exec (runtime_stop (runtime (runtimeCharacterMap rd))) fw)).
Proof.
  intros Hroom Hchar. unfold setConversationCharacter, bind, gets. rewrite Hroom, Hchar.
  cbn beta iota. now destruct (existsb _ _).
Qed.

Lemma setConversationCharacter_repoints fw c k rd b :
  roomMaps fw !! conv_secret c = Some rd ->
  runtimeCharacterMaps fw !! options_hash (char_options k) = Some b ->
  let fw' := exec (setConversationCharacter c k) fw in
  roomMaps fw' !! conv_secret c = Some (set_runtimeCharacterMap b rd)
  ∧ conversationIdMap fw' = conversationIdMap fw
  ∧ adapter fw' = adapter fw.
Proof.
  intros Hroom Hchar fw'. unfold fw', exec.
  rewrite (setConversationCharacter_run _ _ _ _ _ Hroom Hchar). cbn [snd].
  destruct (existsb _ _); cbn; now rewrite lookup_alter_eq, Hroom.
Qed.

(** C1. The runtime [setConversationCharacter] stops is decided by whether
    some room is bound to the new character, not by whether another room
    still uses the current binding.  With two rooms on Ava and none on
    Bea, moving room-1 to Bea stops Ava's runtime while room-2 is still
    bound to it; with room-2 on Bea, moving room-1 to Bea leaves Ava's
    runtime running although no room is bound to it any more. *)
Theorem setConversationCharacter_stops_shared_runtime :
  let c1 := conv 1 "room-1" ava None in
  (bound_runtime "room-1" fw_two_rooms = Some 0%nat
   ∧ bound_runtime "room-2" fw_two_rooms = Some 0%nat
   ∧ stopped 0 fw_two_rooms = Some false
   ∧ stopped 0 (exec (setConversationCharacter c1 bea) fw_two_rooms) = Some true
   ∧ bound_runtime "room-2" (exec (setConversationCharacter c1 bea) fw_two_rooms)
     = Some 0%nat)
  ∧ (bound_runtime "room-1" fw_one_each = Some 0%nat
     ∧ bound_runtime "room-2" fw_one_each = Some 1%nat
     ∧ bound_runtime "room-1" (exec (setConversationCharacter c1 bea) fw_one_each)
       = Some 1%nat
     ∧ stopped 0 (exec (setConversationCharacter c1 bea) fw_one_each) = Some false).
Proof. vm_compute. repeat split. Qed.

(** ** The message pipeline *)

Lemma find_user_absent (playerId : string) (us : list User) :
  playerId ∉ map user_id us ->
  find (fun user => bool_decide (user_id user = playerId)) us = None.
Proof.
  induction us as [|u us IH]; intros Hnot; [reflexivity|].
  cbn. apply not_elem_of_cons in Hnot as [Hne Hrest].
  rewrite bool_decide_eq_false_2 by congruence. auto.
Qed.

Lemma sendToConversation_untracked fw c message playerId context response collected :
  roomMaps fw !! conv_secret c = None ->
  sendToConversation c message playerId context response collected fw
  = (Normal (SendError 404 "Room not found"), fw).
Proof. intros Hroom. unfold sendToConversation, bind, gets. now rewrite Hroom. Qed.

Lemma sendToConversation_unknown_sender fw c message playerId context response collected rd :
  roomMaps fw !! conv_secret c = Some rd ->
  playerId ∉ map user_id (users rd) ->
  sendToConversation c message playerId context response collected fw
  = (Normal (SendError 404 "User not found"), fw).
Proof.
  intros Hroom Habsent. unfold sendToConversation, bind, gets.
  rewrite Hroom, (find_user_absent _ _ Habsent). reflexivity.
Qed.

Lemma sendToConversation_no_response fw c message playerId context collected rd :
  roomMaps fw !! conv_secret c = Some rd ->
  truthy_opt truthy_string (sender_name playerId rd) = true ->
  let fw' := exec (sendToConversation c message playerId context None collected) fw in
  result (sendToConversation c message playerId context None collected) fw
  = Normal (SendError 500 "Failed to generate message")
  ∧ calls fw' = calls fw ++ calls_until_generation fw rd (conv_secret c) message playerId
  ∧ adapter fw' = adapter fw
  ∧ roomMaps fw' = roomMaps fw.
Proof.
  intros Hroom Hname. unfold sender_name in Hname.
  unfold exec, result, sendToConversation, bind, gets. rewrite Hroom, Hname. cbn.
  repeat split; try reflexivity.
  unfold calls_until_generation, sender_name, inbound_memory.
  now rewrite <- !app_assoc.
Qed.

(** C8. [sendToConversation] answers with the value [{status: 404}] when the
    conversation has no tracked room binding and when the sender's id is
    not in the roster, in both cases before any step has run (the
    framework object is unchanged); it answers [{status: 500}] when the
    backend gives no dialogue response, and then the calls made are
    exactly those of the steps up to the request to the backend: no
    response memory, no action processing, no evaluation. *)
Theorem sendToConversation_failures_terminal
    (fw : Framework) (c : ElizaConversation) (message playerId : string)
    (context : list (string * string)) (response collected : option Content) :
  (roomMaps fw !! conv_secret c = None ->
   sendToConversation c message playerId context response collected fw
   = (Normal (SendError 404 "Room not found"), fw))
  ∧ (forall rd, roomMaps fw !! conv_secret c = Some rd ->
       playerId ∉ map user_id (users rd) ->
       sendToConversation c message playerId context response collected fw
       = (Normal (SendError 404 "User not found"), fw))
  ∧ (forall rd, roomMaps fw !! conv_secret c = Some rd ->
       truthy_opt truthy_string (sender_name playerId rd) = true ->
       response = None ->
       let fw' := exec (sendToConversation c message playerId context response collected) fw in
       result (sendToConversation c message playerId context response collected) fw
       = Normal (SendError 500 "Failed to generate message")
       ∧ calls fw' = calls fw ++ calls_until_generation fw rd (conv_secret c) message playerId
       ∧ adapter fw' = adapter fw
       ∧ roomMaps fw' = roomMaps fw).
Proof.
  split; [|split].
  - apply sendToConversation_untracked.
  - intros rd. apply sendToConversation_unknown_sender.
  - intros rd Hroom Hname ->. now apply sendToConversation_no_response.
Qed.

Lemma sendToConversation_failures_terminal_witness :
  roomMaps fw_two_rooms !! "room-9" = None
  ∧ sendToConversation (conv 9 "room-9" ava None) "hi" "u-bob" [] (Some hello) None fw_two_rooms
    = (Normal (SendError 404 "Room not found"), fw_two_rooms)
  ∧ roomMaps fw_two_rooms !! conv_secret conv1 = Some room1_binding
  ∧ ("u-zed" ∉ map user_id (users room1_binding))
  ∧ sendToConversation conv1 "hi" "u-zed" [] (Some hello) None fw_two_rooms
    = (Normal (SendError 404 "User not found"), fw_two_rooms)
  ∧ truthy_opt truthy_string (sender_name "u-bob" room1_binding) = true
  ∧ result (sendToConversation conv1 "hi" "u-bob" [] None None) fw_two_rooms
    = Normal (SendError 500 "Failed to generate message").
Proof.
  assert (Hnone : roomMaps fw_two_rooms !! conv_secret (conv 9 "room-9" ava None) = None)
    by (vm_compute; reflexivity).
  assert (Hroom : roomMaps fw_two_rooms !! conv_secret conv1 = Some room1_binding)
    by (vm_compute; reflexivity).
  assert (Hzed : "u-zed" ∉ map user_id (users room1_binding)) by by_compute.
  assert (Hbob : truthy_opt truthy_string (sender_name "u-bob" room1_binding) = true)
    by (vm_compute; reflexivity).
  split; [exact Hnone|].
  split.
  { exact (proj1 (sendToConversation_failures_terminal fw_two_rooms
                    (conv 9 "room-9" ava None) "hi" "u-bob" [] (Some hello) None) Hnone). }
  split; [exact Hroom|]. split; [exact Hzed|].
  split.
  { exact (proj1 (proj2 (sendToConversation_failures_terminal fw_two_rooms conv1
                           "hi" "u-zed" [] (Some hello) None)) room1_binding Hroom Hzed). }
  split; [exact Hbob|].
  exact (proj1 (proj2 (proj2 (sendToConversation_failures_terminal fw_two_rooms conv1
                                "hi" "u-bob" [] None None)) room1_binding Hroom Hbob eq_refl)).
Defined.

Lemma find_install_suppress (P : Action -> bool) (fs : list CharacterFunction) :
  default false (suppressInitialMessage <$> find P (map install fs)) = false.
Proof.
  induction fs as [|f fs IH]; [reflexivity|].
  cbn. destruct (P (install f)); [reflexivity | exact IH].
Qed.

Lemma installed_actions_after (fs : list CharacterFunction) (ps : list Provider)
    (h : nat) (heap : list AgentRuntime) :
  from_option actions []
    (alter (rt_set_actions (map install fs)) h (alter (rt_set_providers ps) h heap) !! h)
  = match heap !! h with Some _ => map install fs | None => [] end.
Proof.
  rewrite !list_lookup_alter_eq. destruct (heap !! h); reflexivity.
Qed.

Lemma sendToConversation_result fw c message playerId context response collected rd :
  roomMaps fw !! conv_secret c = Some rd ->
  truthy_opt truthy_string (sender_name playerId rd) = true ->
  result (sendToConversation c message playerId context (Some response) collected) fw
  = Normal (outward (response :: option_list collected)).
Proof.
  intros Hroom Hname. unfold sender_name in Hname.
  unfold result, sendToConversation, bind, gets. rewrite Hroom, Hname. cbn.
  rewrite installed_actions_after. unfold respContent_of.
  destruct (runtimes fw !! runtime (runtimeCharacterMap rd)).
  - rewrite find_install_suppress. now destruct collected.
  - now destruct collected.
Qed.

Lemma sendToConversation_installs fw c message playerId context response collected rd :
  roomMaps fw !! conv_secret c = Some rd ->
  truthy_opt truthy_string (sender_name playerId rd) = true ->
  Forall (fun a => suppressInitialMessage a = false)
         (from_option actions []
            (runtimes (exec (sendToConversation c message playerId context
                                                (Some response) collected) fw)
             !! runtime (runtimeCharacterMap rd))).
Proof.
  intros Hroom Hname. unfold sender_name in Hname.
  unfold exec, sendToConversation, bind, gets. rewrite Hroom, Hname. cbn.
  rewrite installed_actions_after.
  destruct (runtimes fw !! runtime (runtimeCharacterMap rd)); [|constructor].
  apply Forall_forall. intros act Hact.
  apply list_elem_of_fmap in Hact as (f & -> & _). reflexivity.
Qed.

(** C10. Every action [sendToConversation] installs has
    [suppressInitialMessage = false].  So when the pipeline completes, the
    contents the result is built from start with the dialogue response (the
    suppressing branch is not taken), and a response with a text gives the
    result's [content]. *)
Theorem installed_actions_never_suppress
    (fw : Framework) (c : ElizaConversation) (message playerId : string)
    (context : list (string * string)) (response : Content)
    (collected : option Content) (rd : RoomData) :
  roomMaps fw !! conv_secret c = Some rd ->
  truthy_opt truthy_string (sender_name playerId rd) = true ->
  let run := sendToConversation c message playerId context (Some response) collected in
  Forall (fun a => suppressInitialMessage a = false)
         (from_option actions [] (runtimes (exec run fw) !! runtime (runtimeCharacterMap rd)))
  ∧ result run fw = Normal (outward (response :: option_list collected))
  ∧ (has_text response = true ->
     exists fcalls, result run fw = Normal (SendResponse (text response) fcalls)).
Proof.
  intros Hroom Hname run.
  pose proof (sendToConversation_result fw c message playerId context response collected
                rd Hroom Hname) as Hres.
  split; [now apply sendToConversation_installs|]. split; [exact Hres|].
  intros Htext. unfold run. rewrite Hres. unfold outward. cbn. rewrite Htext. cbn. eauto.
Qed.

(** ** Failure reporting *)

Example validate_ava : result (validateCharacter (json_options ava_options)) fw_new = Normal true.
Proof. reflexivity. Qed.

Example validate_missing_bio :
  result (validateCharacter (JObject [("name", JString "Ava")])) fw_new
  = Thrown "Validation failed".
Proof. reflexivity. Qed.


Lemma start_twice fw :
  initialized fw = true -> exists msg, start fw = (Thrown msg, fw).
Proof. intros H. unfold start, bind, gets. rewrite H. eauto. Qed.

Lemma loadCharacter_unregistered fw c :
  ¬ registered c fw -> loadCharacter c fw = (Thrown "Character not found", fw).
Proof.
  intros H. unfold loadCharacter, containsCharacter, bind, gets.
  now rewrite bool_decide_eq_false_2.
Qed.

Lemma setConversationCharacter_unregistered fw c k :
  tracked c fw -> ¬ registered k fw ->
  setConversationCharacter c k fw
  = (Thrown "Character not found when setting conversation character", fw).
Proof.
  intros [rd Hrd] Hk. unfold setConversationCharacter, bind, gets. rewrite Hrd.
  destruct (runtimeCharacterMaps fw !! options_hash (char_options k)) eqn:E; [|done].
  exfalso. apply Hk. unfold registered. rewrite E. eauto.
Qed.

Lemma setConversationCharacter_untracked fw c k :
  ¬ tracked c fw -> setConversationCharacter c k fw = (Normal tt, fw).
Proof.
  intros H. unfold setConversationCharacter, bind, gets.
  destruct (roomMaps fw !! conv_secret c) eqn:E; [|done].
  exfalso. apply H. unfold tracked. rewrite E. eauto.
Qed.

Lemma getConversationBy_reads sel fw :
  exists r, getConversationBy sel fw = (Normal r, fw).
Proof.
  unfold getConversationBy, by_id_branch, by_secret_or_token, by_secret_branch,
    by_token_branch, db_getRoom.
  run_op; eauto.
Qed.

Lemma sendToConversation_completes fw c m p ctx response collected rd :
  roomMaps fw !! conv_secret c = Some rd ->
  truthy_opt truthy_string (sender_name p rd) = true ->
  is_Some response ->
  exists content fcalls,
    result (sendToConversation c m p ctx response collected) fw
    = Normal (SendResponse content fcalls).
Proof.
  intros Hroom Hname [r ->].
  rewrite (sendToConversation_result fw c m p ctx r collected rd Hroom Hname).
  unfold outward. eauto.
Qed.



(** ** What single calls leave alone *)

Lemma getOrCreateCharacter_registry aid d fw :
  runtimeCharacterMaps (exec (getOrCreateCharacter aid d) fw)
  = match runtimeCharacterMaps fw !! options_hash d with
    | Some _ => runtimeCharacterMaps fw
    | None => <[options_hash d :=
                  {| runtime := length (runtimes fw);
                     character := new_ElizaCharacter (opt_name d) d |}]>
                (runtimeCharacterMaps fw)
    end.
Proof.
  unfold exec. destruct (runtimeCharacterMaps fw !! options_hash d) eqn:Hknown.
  - now rewrite getOrCreateCharacter_known by eauto.
  - now rewrite getOrCreateCharacter_new.
Qed.

Lemma createConversation_runtimes room c us token fw :
  runtimes (exec (createConversation room c us token) fw) = runtimes fw.
Proof.
  unfold exec.
  destruct (runtimeCharacterMaps fw !! options_hash (char_options c)) as [agent|] eqn:Hagent.
  - rewrite (createConversation_run _ _ _ _ _ _ Hagent). cbn [snd].
    now rewrite reconcile_frame.
  - now rewrite (createConversation_unknown _ _ _ _ _ Hagent).
Qed.

Lemma createConversation_roomMaps room c us token agent fw :
  runtimeCharacterMaps fw !! options_hash (char_options c) = Some agent ->
  roomMaps (exec (createConversation room c us token) fw) !! room
  = Some {| users := us; runtimeCharacterMap := agent |}.
Proof.
  intros Hagent. unfold exec. rewrite (createConversation_run _ _ _ _ _ _ Hagent). cbn [snd].
  rewrite reconcile_roomMaps. cbn [conv_secret new_conversation].
  rewrite lookup_alter_eq. unfold open_room. cbn [roomMaps with_roomMaps].
  now rewrite lookup_insert_eq.
Qed.

Lemma setConversationUsers_roomMaps c us rd fw :
  roomMaps fw !! conv_secret c = Some rd ->
  roomMaps (exec (setConversationUsers c us) fw) !! conv_secret c = Some (set_users us rd).
Proof.
  intros Hrd. unfold exec. rewrite (setConversationUsers_run _ _ _ _ Hrd). cbn [snd].
  now rewrite reconcile_roomMaps, lookup_alter_eq, Hrd.
Qed.

(** ** The deployment

    The first registration in a new framework, and the first conversation
    after it, read off the closed forms of the calls. *)

Lemma first_registration aid d :
  let fw := exec (getOrCreateCharacter aid d) fw_new in
  reachable fw
  ∧ runtimeCharacterMaps fw !! options_hash d = Some (first_binding d)
  ∧ conversationIdMap fw = []
  ∧ runtimes fw = [first_runtime aid d].
Proof.
  cbn zeta. split.
  { apply (reachable_invoke fw_new (CallGetOrCreateCharacter aid d));
      [apply reachable_new | exact I]. }
  unfold exec. rewrite getOrCreateCharacter_new by apply lookup_empty.
  cbn [snd]. unfold register.
  cbn [runtimeCharacterMaps with_runtimeCharacterMaps with_calls with_runtimes
       conversationIdMap runtimes].
  split; [apply lookup_insert_eq|]. split; reflexivity.
Qed.

Lemma first_room aid d name room us :
  room ≠ EmptyString ->
  let fw := exec (getOrCreateCharacter aid d) fw_new in
  let c := new_ElizaCharacter name d in
  let fw' := exec (createConversation room c us None) fw in
  admissible fw (CallCreateConversation room c us None)
  ∧ reachable fw'
  ∧ live (new_conversation fw room c None) fw'
  ∧ roomMaps fw' !! room = Some {| users := us; runtimeCharacterMap := first_binding d |}
  ∧ runtimeCharacterMaps fw' !! options_hash d = Some (first_binding d)
  ∧ runtimes fw' !! 0%nat = Some (first_runtime aid d).
Proof.
  intros Hroom. cbn zeta.
  destruct (first_registration aid d) as (Hreach & Hagent & Hids & Hheap).
  set (fw := exec (getOrCreateCharacter aid d) fw_new) in *.
  assert (Hadm : admissible fw
                   (CallCreateConversation room (new_ElizaCharacter name d) us None)).
  { cbn [admissible]. unfold secrets. rewrite Hids.
    split; [exact Hroom|]. split; [apply not_elem_of_nil | intros t [=]]. }
  split; [exact Hadm|]. split.
  { now apply (reachable_invoke fw (CallCreateConversation room _ us None)). }
  split.
  { now apply (createConversation_live room (new_ElizaCharacter name d) us None
                 (first_binding d) fw Hreach Hadm). }
  split; [now apply createConversation_roomMaps|]. split.
  - destruct (createConversation_registry room (new_ElizaCharacter name d) us None fw)
      as [Hsame _].
    now rewrite Hsame.
  - now rewrite createConversation_runtimes, Hheap.
Qed.

Lemma fw_ava_facts :
  reachable fw_ava
  ∧ runtimeCharacterMaps fw_ava !! options_hash (char_options ava) = Some ava_binding
  ∧ admissible fw_ava (CallCreateConversation "room-1" ava [bob] None).
Proof.
  destruct (first_registration "agent-ava" ava_options) as (Hreach & Hagent & _).
  destruct (first_room "agent-ava" ava_options "Ava" "room-1" [bob]) as (Hadm & _);
    [discriminate|].
  split; [exact Hreach|]. split; [exact Hagent | exact Hadm].
Qed.

Lemma fw_room_facts :
  reachable fw_room
  ∧ live room1 fw_room
  ∧ roomMaps fw_room !! conv_secret room1 = Some room1_binding
  ∧ runtimeCharacterMaps fw_room !! options_hash (char_options ava) = Some ava_binding
  ∧ runtimes fw_room !! runtime (runtimeCharacterMap room1_binding)
    = Some (first_runtime "agent-ava" ava_options).
Proof.
  destruct (first_room "agent-ava" ava_options "Ava" "room-1" [bob])
    as (_ & Hreach & Hlive & Hroom & Hagent & Hheap); [discriminate|].
  split; [exact Hreach|]. split; [exact Hlive|]. split; [exact Hroom|].
  split; [exact Hagent | exact Hheap].
Qed.

Lemma fw_shop_facts :
  roomMaps fw_shop !! conv_secret room7 = Some room7_binding
  ∧ runtimes fw_shop !! runtime (runtimeCharacterMap room7_binding)
    = Some (first_runtime "agent-cid" cid_options).
Proof.
  destruct (first_room "agent-cid" cid_options "Cid" "room-7" [bob])
    as (_ & _ & _ & Hroom & _ & Hheap); [discriminate|].
  split; [exact Hroom | exact Hheap].
Qed.

Lemma fw_nameless_room :
  roomMaps fw_nameless !! conv_secret room1 = Some (set_users [nemo] room1_binding).
Proof. apply setConversationUsers_roomMaps, fw_room_facts. Qed.

(** ** The reconcile and the lookups on the deployment *)

Lemma createConversation_returns fw room c us token agent :
  runtimeCharacterMaps fw !! options_hash (char_options c) = Some agent ->
  result (createConversation room c us token) fw
  = Normal (Some (new_conversation fw room c token)).
Proof. intros Hagent. unfold result. now rewrite (createConversation_run _ _ _ _ _ _ Hagent). Qed.

Lemma live_intro c fw n s rd :
  conv_id c = n -> conv_secret c = s -> s ≠ EmptyString ->
  idmap_get n (conversationIdMap fw) = Some s ->
  adapter_getRoom s (adapter fw) = Some s ->
  roomMaps fw !! s = Some rd ->
  live c fw.
Proof.
  intros Hid Hsec Hne Hget Hroom Hrd. unfold live.
  rewrite Hid, Hsec, Hget, Hroom, Hrd. cbn [truthy_opt].
  split; [reflexivity|]. split; [now apply truthy_string_ne | eauto].
Qed.

Lemma fw_ava_agent : agent_of fw_ava ava_binding = "agent-ava".
Proof.
  destruct (first_registration "agent-ava" ava_options) as (_ & _ & _ & Hheap).
  unfold agent_of, fw_ava. now rewrite Hheap.
Qed.

Lemma fw_room_agent : agent_of fw_room (runtimeCharacterMap room1_binding) = "agent-ava".
Proof.
  destruct fw_room_facts as (_ & _ & _ & _ & Hheap).
  unfold agent_of. now rewrite Hheap.
Qed.

Lemma fw_room_members :
  room_members "room-1" (adapter fw_room)
  = list_to_set (map user_id [bob]) ∪ {["agent-ava"]}.
Proof.
  destruct fw_ava_facts as (_ & Hagent & _).
  unfold fw_room.
  rewrite (createConversation_members fw_ava "room-1" ava [bob] None ava_binding Hagent)
    by discriminate.
  now rewrite fw_ava_agent.
Qed.

Lemma fw_room_newcomer :
  newcomers [cy] (adapter_getParticipantsForRoom (conv_secret room1) (adapter fw_room)) = [cy].
Proof.
  unfold adapter_getParticipantsForRoom.
  change (conv_secret room1) with "room-1". rewrite fw_room_members.
  unfold newcomers. rewrite filter_cons_True; [reflexivity|].
  apply includes_false. rewrite elem_of_elements. intros Hin.
  apply elem_of_union in Hin as [Hin | Hin].
  - apply elem_of_list_to_set, list_elem_of_singleton in Hin. discriminate.
  - apply elem_of_singleton in Hin. discriminate.
Qed.

Lemma setConversationUsers_converges_in_two_calls_witness :
  let fw1 := exec (setConversationUsers room1 [cy]) fw_room in
  let fw2 := exec (setConversationUsers room1 [cy]) fw1 in
  roomMaps fw_room !! conv_secret room1 = Some room1_binding
  ∧ resolves (conv_secret room1) fw_room
  ∧ room_members (conv_secret room1) (adapter fw1)
    = reconciled [cy]
        (newcomers [cy] (adapter_getParticipantsForRoom (conv_secret room1) (adapter fw_room)))
        (agent_of fw_room (runtimeCharacterMap room1_binding))
  ∧ room_members (conv_secret room1) (adapter fw2) = list_to_set (map user_id [cy])
  ∧ setConversationUsers room1 [cy] fw2 = (Normal tt, fw2).
Proof.
  cbn zeta.
  destruct fw_room_facts as (_ & (_ & Hres & _) & Hroom & _).
  split; [exact Hroom|]. split; [exact Hres|].
  destruct (setConversationUsers_converges_in_two_calls fw_room room1 [cy] room1_binding
              Hroom Hres) as (_ & Hmem1 & _ & _ & Hmem2 & Hfix).
  split; [exact Hmem1|]. split; [exact Hmem2 | exact Hfix].
Defined.

(** C2, as stated, fails.  Room 1 holds Bob and the agent; the roster is
    set to Cy alone.  Afterwards the participants are Cy and the agent,
    not the ids of the roster, and a second call with the same roster
    removes the agent. *)
Lemma setConversationUsers_leaves_agent :
  let fw1 := exec (setConversationUsers room1 [cy]) fw_room in
  roomMaps fw_room !! conv_secret room1 = Some room1_binding
  ∧ room_members "room-1" (adapter fw1) = list_to_set (map user_id [cy]) ∪ {["agent-ava"]}
  ∧ room_members "room-1" (adapter fw1) ≠ list_to_set (map user_id [cy])
  ∧ calls (exec (setConversationUsers room1 [cy]) fw1)
    = calls fw1 ++ [EvRemoveParticipant "agent-ava" "room-1"].
Proof.
  cbn zeta.
  destruct fw_room_facts as (_ & (_ & Hres & _) & Hroom & _).
  destruct (reconcile_twice fw_room room1 [cy] room1_binding Hroom Hres)
    as (Hmem1 & Hcalls & _).
  rewrite fw_room_newcomer, fw_room_agent in Hmem1, Hcalls.
  change (conv_secret room1) with "room-1" in Hmem1, Hcalls.
  split; [exact Hroom|]. split; [exact Hmem1|]. split.
  - rewrite Hmem1. intros Heq.
    assert (Hin : "agent-ava" ∈ (list_to_set (map user_id [cy]) : gset string)).
    { rewrite <- Heq. apply elem_of_union. right. apply elem_of_singleton. reflexivity. }
    apply elem_of_list_to_set, list_elem_of_singleton in Hin. discriminate.
  - rewrite Hcalls. apply (f_equal (app _)). vm_compute. reflexivity.
Qed.

Lemma createConversation_agent_rejoins_witness :
  runtimeCharacterMaps fw_ava !! options_hash (char_options ava) = Some ava_binding
  ∧ "room-1" ≠ EmptyString
  ∧ (agent_of fw_ava ava_binding ∉ map user_id [bob])
  ∧ [bob] ≠ []
  ∧ agent_of fw_ava ava_binding ∈ room_members "room-1" (adapter fw_room)
  ∧ room_members "room-1" (adapter fw_room)
    = list_to_set (map user_id [bob]) ∪ {[agent_of fw_ava ava_binding]}.
Proof.
  destruct fw_ava_facts as (_ & Hagent & _).
  assert (Hroom : "room-1" ≠ EmptyString) by discriminate.
  assert (Hout : agent_of fw_ava ava_binding ∉ map user_id [bob]).
  { rewrite fw_ava_agent. intros Hin. apply list_elem_of_singleton in Hin. discriminate. }
  assert (Hsome : [bob] ≠ []) by discriminate.
  split; [exact Hagent|]. split; [exact Hroom|]. split; [exact Hout|]. split; [exact Hsome|].
  destruct (createConversation_agent_rejoins fw_ava "room-1" ava [bob] None ava_binding
              Hagent Hroom) as (_ & _ & Hrest).
  destruct (Hrest Hout) as (_ & Hstays & _).
  exact (Hstays Hsome).
Defined.

(** C5, as stated, fails.  Ava's agent id is not Bob's; once
    [createConversation] has returned the conversation, the agent is a
    participant of the room, next to Bob. *)
Lemma createConversation_agent_stays :
  runtimeCharacterMaps fw_ava !! options_hash (char_options ava) = Some ava_binding
  ∧ agent_of fw_ava ava_binding = "agent-ava"
  ∧ ("agent-ava" ∉ map user_id [bob])
  ∧ result (createConversation "room-1" ava [bob] None) fw_ava = Normal (Some room1)
  ∧ "agent-ava" ∈ room_members "room-1" (adapter fw_room)
  ∧ room_members "room-1" (adapter fw_room) ≠ list_to_set (map user_id [bob]).
Proof.
  destruct fw_ava_facts as (_ & Hagent & _).
  split; [exact Hagent|]. split; [exact fw_ava_agent|]. split.
  { intros Hin. apply list_elem_of_singleton in Hin. discriminate. }
  split.
  { exact (createConversation_returns fw_ava "room-1" ava [bob] None ava_binding Hagent). }
  rewrite fw_room_members.
  assert (Hin : "agent-ava" ∈ (list_to_set (map user_id [bob]) ∪ {["agent-ava"]} : gset string)).
  { apply elem_of_union. right. apply elem_of_singleton. reflexivity. }
  split; [exact Hin|]. intros Heq. rewrite Heq in Hin.
  apply elem_of_list_to_set, list_elem_of_singleton in Hin. discriminate.
Qed.

(** What a lookup computes from the three maps. *)
Lemma by_id_result fw n s r rd :
  n ≠ 0 -> idmap_get n (conversationIdMap fw) = Some s -> s ≠ EmptyString ->
  adapter_getRoom s (adapter fw) = Some r -> r ≠ EmptyString ->
  roomMaps fw !! s = Some rd ->
  getConversationBy (by_id n) fw = (Normal (Some (conversation_of n s rd None)), fw).
Proof.
  intros Hn Hget Hs Hroom Hr Hrd.
  unfold getConversationBy. cbn [sel_id sel_persistenceToken by_id truthy_opt from_option id].
  rewrite truthy_number_pos by lia.
  unfold by_id_branch, db_getRoom, bind, gets. rewrite Hget. cbn [truthy_opt from_option id].
  rewrite truthy_string_ne by done. cbn beta iota. rewrite Hroom. cbn [truthy_opt].
  rewrite truthy_string_ne by done. now rewrite Hrd.
Qed.

Lemma by_secret_result fw s r rd k :
  s ≠ EmptyString -> adapter_getRoom s (adapter fw) = Some r -> r ≠ EmptyString ->
  roomMaps fw !! s = Some rd ->
  idmap_key_of s (conversationIdMap fw) = Some k -> k ≠ 0 ->
  getConversationBy (by_secret s) fw = (Normal (Some (conversation_of k s rd None)), fw).
Proof.
  intros Hs Hroom Hr Hrd Hkey Hk.
  unfold getConversationBy.
  cbn [sel_id sel_secret sel_persistenceToken by_secret truthy_opt].
  unfold by_secret_or_token. cbn [truthy_opt from_option id].
  rewrite truthy_string_ne by done.
  unfold by_secret_branch, db_getRoom, bind, gets. rewrite Hroom. cbn [truthy_opt].
  rewrite truthy_string_ne by done. rewrite Hrd, Hkey. cbn [truthy_opt from_option id].
  now rewrite truthy_number_pos by lia.
Qed.

Lemma by_token_result fw t r rd k :
  t ≠ EmptyString -> adapter_getRoom t (adapter fw) = Some r -> r ≠ EmptyString ->
  roomMaps fw !! r = Some rd ->
  idmap_key_of r (conversationIdMap fw) = Some k -> k ≠ 0 ->
  getConversationBy (by_persistenceToken t) fw
  = (Normal (Some (conversation_of k r rd (Some t))), fw).
Proof.
  intros Ht Hroom Hr Hrd Hkey Hk.
  unfold getConversationBy.
  cbn [sel_id sel_secret sel_persistenceToken by_persistenceToken truthy_opt].
  unfold by_secret_or_token. cbn [truthy_opt from_option id].
  rewrite truthy_string_ne by done.
  unfold by_token_branch, db_getRoom, bind, gets. rewrite Hroom. cbn [truthy_opt from_option id].
  rewrite truthy_string_ne by done. rewrite Hrd, Hkey. cbn [truthy_opt from_option id].
  now rewrite truthy_number_pos by lia.
Qed.

(** The lookups when two entries of the identity map hold the same
    secret. *)
Lemma lookups_after_reuse fw t rd :
  t ≠ EmptyString ->
  conversationIdMap fw = [(1, t); (2, t)] ->
  adapter_getRoom t (adapter fw) = Some t ->
  roomMaps fw !! t = Some rd ->
  idmap_get 1 (conversationIdMap fw) = Some t
  ∧ idmap_get 2 (conversationIdMap fw) = Some t
  ∧ getConversationBy (by_id 1) fw = (Normal (Some (conversation_of 1 t rd None)), fw)
  ∧ getConversationBy (by_id 2) fw = (Normal (Some (conversation_of 2 t rd None)), fw)
  ∧ getConversationBy (by_secret t) fw = (Normal (Some (conversation_of 1 t rd None)), fw)
  ∧ getConversationBy (by_persistenceToken t) fw
    = (Normal (Some (conversation_of 1 t rd (Some t))), fw).
Proof.
  intros Hne Hm Hroom Hrd.
  assert (Hkey : idmap_key_of t (conversationIdMap fw) = Some 1).
  { rewrite Hm. unfold idmap_key_of. cbn [find snd]. now rewrite bool_decide_eq_true_2. }
  assert (Hget1 : idmap_get 1 (conversationIdMap fw) = Some t) by (rewrite Hm; reflexivity).
  assert (Hget2 : idmap_get 2 (conversationIdMap fw) = Some t) by (rewrite Hm; reflexivity).
  assert (Hone : 1 ≠ 0) by discriminate. assert (Htwo : 2 ≠ 0) by discriminate.
  split; [exact Hget1|]. split; [exact Hget2|]. split; [|split; [|split]].
  - exact (by_id_result fw 1 t t rd Hone Hget1 Hne Hroom Hne Hrd).
  - exact (by_id_result fw 2 t t rd Htwo Hget2 Hne Hroom Hne Hrd).
  - exact (by_secret_result fw t t rd 1 Hne Hroom Hne Hrd Hkey Hone).
  - exact (by_token_result fw t t rd 1 Hne Hroom Hne Hrd Hkey Hone).
Qed.

Lemma lookups_absent fw n t :
  idmap_get n (conversationIdMap fw) = Some t ->
  adapter_getRoom t (adapter fw) = None ->
  absent (by_id n) fw ∧ absent (by_secret t) fw ∧ absent (by_persistenceToken t) fw.
Proof.
  intros Hget Hgone. split; [|split].
  - now apply (absent_by_id _ _ t).
  - now apply absent_by_secret.
  - now apply absent_by_token.
Qed.

Lemma finishConversation_gone c fw t :
  adapter_getRoom t (adapter fw) = Some (conv_secret c) ->
  adapter_getRoom t (adapter (exec (finishConversation c) fw)) = None.
Proof.
  intros Ht. unfold adapter_getRoom. rewrite finishConversation_rooms.
  apply map_lookup_filter_None. right. intros r Hr. cbn.
  unfold adapter_getRoom in Ht. rewrite Ht in Hr. injection Hr as <-.
  intros Hneq. now apply Hneq.
Qed.

(** The three maps along the run that uses the token again. *)
Lemma fw_first_facts :
  runtimeCharacterMaps fw_first !! options_hash (char_options ava) = Some ava_binding
  ∧ conversationIdMap fw_first = [(1, ticket)]
  ∧ conversationCount fw_first = 1
  ∧ adapter_getRoom ticket (adapter fw_first) = Some ticket
  ∧ roomMaps fw_first !! ticket = Some {| users := [bob]; runtimeCharacterMap := ava_binding |}.
Proof.
  destruct (first_registration "agent-ava" ava_options) as (_ & Hagent & Hids & _).
  destruct (getOrCreateCharacter_frame "agent-ava" ava_options fw_new) as ([_ Hcount] & _).
  destruct (createConversation_effect ticket ava [bob] (Some ticket) ava_binding fw_ava Hagent)
    as (Hm & Hc & Hr & Hrooms & Hreg & _).
  fold fw_first in Hm, Hc, Hr, Hrooms, Hreg. unfold fw_ava in Hm, Hc.
  rewrite Hids in Hm. rewrite Hcount in Hm, Hc.
  split; [rewrite Hreg; exact Hagent|]. split; [exact Hm|]. split; [exact Hc|]. split.
  - unfold adapter_getRoom. rewrite Hr. apply lookup_insert_eq.
  - rewrite Hrooms. apply lookup_insert_eq.
Qed.

Lemma fw_finished_facts :
  runtimeCharacterMaps fw_finished !! options_hash (char_options ava) = Some ava_binding
  ∧ conversationIdMap fw_finished = [(1, ticket)]
  ∧ conversationCount fw_finished = 1
  ∧ adapter_getRoom ticket (adapter fw_finished) = None.
Proof.
  destruct fw_first_facts as (Hagent & Hm & Hc & Hroom & _).
  destruct (finishConversation_frame first_conversation fw_first) as ([Hm' Hc'] & [Hreg _]).
  fold fw_finished in Hm', Hc', Hreg.
  split; [rewrite Hreg; exact Hagent|]. split; [rewrite Hm'; exact Hm|].
  split; [rewrite Hc'; exact Hc|].
  exact (finishConversation_gone first_conversation fw_first ticket Hroom).
Qed.

Lemma fw_reopened_facts :
  conversationIdMap fw_reopened = [(1, ticket); (2, ticket)]
  ∧ adapter_getRoom ticket (adapter fw_reopened) = Some ticket
  ∧ roomMaps fw_reopened !! ticket = Some reopened_binding.
Proof.
  destruct fw_finished_facts as (Hagent & Hm & Hc & _).
  destruct (createConversation_effect ticket ava [cy] (Some ticket) ava_binding fw_finished
              Hagent) as (Hm' & _ & Hr & Hrooms & _).
  fold fw_reopened in Hm', Hr, Hrooms. rewrite Hm, Hc in Hm'.
  split; [exact Hm'|]. split.
  - unfold adapter_getRoom. rewrite Hr. apply lookup_insert_eq.
  - rewrite Hrooms. apply lookup_insert_eq.
Qed.

(** C3.  The selectors disagree once a room id has been handed back
    twice.  A conversation is created under a persistence token, which the
    adapter hands back as the room id, and finished; a second conversation
    is created under the same token and is live, with id 2.  The lookup by
    id 2 returns it, but the lookups by its secret and by its persistence
    token return a conversation with id 1: the identity map still holds
    the entry of the finished conversation, and the reverse search stops
    at the first entry with the secret. *)
Theorem getConversationBy_selectors_disagree :
  conv_id second_conversation = 2
  ∧ conv_secret second_conversation = ticket
  ∧ conv_persistenceToken second_conversation = Some ticket
  ∧ live second_conversation fw_reopened
  ∧ result (getConversationBy (by_id 2)) fw_reopened
    = Normal (Some (conversation_of 2 ticket reopened_binding None))
  ∧ result (getConversationBy (by_secret ticket)) fw_reopened
    = Normal (Some (conversation_of 1 ticket reopened_binding None))
  ∧ result (getConversationBy (by_persistenceToken ticket)) fw_reopened
    = Normal (Some (conversation_of 1 ticket reopened_binding (Some ticket)))
  ∧ ¬ selects (by_secret ticket) second_conversation fw_reopened
  ∧ ¬ selects (by_persistenceToken ticket) second_conversation fw_reopened.
Proof.
  destruct fw_finished_facts as (_ & _ & Hcount & _).
  destruct fw_reopened_facts as (Hm & Hroom & Hrd).
  assert (Hne : ticket ≠ EmptyString) by discriminate.
  destruct (lookups_after_reuse fw_reopened ticket reopened_binding Hne Hm Hroom Hrd)
    as (_ & Hget & _ & Hby_id & Hby_secret & Hby_token).
  assert (Hid : conv_id second_conversation = 2).
  { unfold second_conversation. cbn [conv_id new_conversation]. rewrite Hcount. reflexivity. }
  assert (Hsecret : result (getConversationBy (by_secret ticket)) fw_reopened
                    = Normal (Some (conversation_of 1 ticket reopened_binding None))).
  { unfold result. rewrite Hby_secret. reflexivity. }
  assert (Htoken : result (getConversationBy (by_persistenceToken ticket)) fw_reopened
                   = Normal (Some (conversation_of 1 ticket reopened_binding (Some ticket)))).
  { unfold result. rewrite Hby_token. reflexivity. }
  split; [exact Hid|]. split; [reflexivity|]. split; [reflexivity|]. split.
  { exact (live_intro second_conversation fw_reopened 2 ticket reopened_binding
             Hid eq_refl Hne Hget Hroom Hrd). }
  split; [unfold result; rewrite Hby_id; reflexivity|].
  split; [exact Hsecret|]. split; [exact Htoken|]. split.
  - intros (c' & Hres & Hid' & _). rewrite Hsecret in Hres. injection Hres as <-.
    rewrite Hid in Hid'. discriminate Hid'.
  - intros (c' & Hres & Hid' & _). rewrite Htoken in Hres. injection Hres as <-.
    rewrite Hid in Hid'. discriminate Hid'.
Qed.

(** C7.  A finished conversation resolves again once its room id is handed
    back a second time.  Right after [finishConversation] the three
    lookups return absent.  [finishConversation] removes the room from the
    adapter alone: the identity map keeps the id and the room map keeps
    the binding.  When a second conversation is created under the same
    token, the room is back in the adapter, and the lookups for the
    finished conversation, by its id, its secret and its token, return a
    conversation with its id and its secret, and the roster of the
    second one. *)
Theorem finishConversation_undone_by_reuse :
  conv_id first_conversation = 1
  ∧ conv_secret first_conversation = ticket
  ∧ conv_persistenceToken first_conversation = Some ticket
  ∧ live first_conversation fw_first
  ∧ (absent (by_id 1) fw_finished
     ∧ absent (by_secret ticket) fw_finished
     ∧ absent (by_persistenceToken ticket) fw_finished)
  ∧ getConversationBy (by_id 1) fw_reopened
    = (Normal (Some (conversation_of 1 ticket reopened_binding None)), fw_reopened)
  ∧ getConversationBy (by_secret ticket) fw_reopened
    = (Normal (Some (conversation_of 1 ticket reopened_binding None)), fw_reopened)
  ∧ getConversationBy (by_persistenceToken ticket) fw_reopened
    = (Normal (Some (conversation_of 1 ticket reopened_binding (Some ticket))), fw_reopened)
  ∧ ¬ absent (by_id 1) fw_reopened
  ∧ ¬ absent (by_secret ticket) fw_reopened
  ∧ ¬ absent (by_persistenceToken ticket) fw_reopened.
Proof.
  destruct (getOrCreateCharacter_frame "agent-ava" ava_options fw_new) as ([_ Hcount] & _).
  destruct fw_first_facts as (_ & Hm1 & _ & Hroom1 & Hrd1).
  destruct fw_finished_facts as (_ & Hm2 & _ & Hgone).
  destruct fw_reopened_facts as (Hm & Hroom & Hrd).
  assert (Hne : ticket ≠ EmptyString) by discriminate.
  destruct (lookups_after_reuse fw_reopened ticket reopened_binding Hne Hm Hroom Hrd)
    as (_ & _ & Hby_id & _ & Hby_secret & Hby_token).
  assert (Hid : conv_id first_conversation = 1).
  { unfold first_conversation, fw_ava. cbn [conv_id new_conversation]. rewrite Hcount.
    reflexivity. }
  assert (Hget : idmap_get 1 (conversationIdMap fw_finished) = Some ticket)
    by (rewrite Hm2; reflexivity).
  split; [exact Hid|]. split; [reflexivity|]. split; [reflexivity|]. split.
  { assert (Hget1 : idmap_get 1 (conversationIdMap fw_first) = Some ticket)
      by (rewrite Hm1; reflexivity).
    exact (live_intro first_conversation fw_first 1 ticket _ Hid eq_refl Hne Hget1 Hroom1 Hrd1). }
  split; [exact (lookups_absent fw_finished 1 ticket Hget Hgone)|].
  split; [exact Hby_id|]. split; [exact Hby_secret|]. split; [exact Hby_token|].
  unfold absent, result. rewrite Hby_id, Hby_secret, Hby_token.
  split; [|split]; discriminate.
Qed.

Lemma sendToConversation_actions fw c message playerId context response collected rd r :
  roomMaps fw !! conv_secret c = Some rd ->
  truthy_opt truthy_string (sender_name playerId rd) = true ->
  runtimes fw !! runtime (runtimeCharacterMap rd) = Some r ->
  from_option actions []
    (runtimes (exec (sendToConversation c message playerId context response collected) fw)
     !! runtime (runtimeCharacterMap rd))
  = map install (opt_functions (char_options (character (runtimeCharacterMap rd)))).
Proof.
  intros Hroom Hname Hr. unfold sender_name in Hname.
  unfold exec, sendToConversation, bind, gets. rewrite Hroom, Hname.
  destruct response; cbn; rewrite installed_actions_after; now rewrite Hr.
Qed.

(** C10 on a character that declares an action.  Cid declares [give]; the
    dialogue response names that action and the handler has called back.
    The runtime holds the installed action, the search for the action of
    the response finds it, and the result still starts with the dialogue
    response: its text is the content, and the callback's message is the
    function call. *)
Lemma installed_actions_never_suppress_witness :
  let send := sendToConversation room7 "May I have the map?" "u-bob" []
                (Some here_you_are) (Some map_given) in
  roomMaps fw_shop !! conv_secret room7 = Some room7_binding
  ∧ truthy_opt truthy_string (sender_name "u-bob" room7_binding) = true
  ∧ opt_functions (char_options (character (runtimeCharacterMap room7_binding))) = [give]
  ∧ find (fun a => bool_decide (Some (act_name a) = action here_you_are)) (map install [give])
    = Some (install give)
  ∧ Forall (fun a => suppressInitialMessage a = false)
           (from_option actions []
              (runtimes (exec send fw_shop) !! runtime (runtimeCharacterMap room7_binding)))
  ∧ from_option actions []
      (runtimes (exec send fw_shop) !! runtime (runtimeCharacterMap room7_binding))
    = map install [give]
  ∧ result send fw_shop = Normal (outward [here_you_are; map_given])
  ∧ has_text here_you_are = true
  ∧ exists fcalls, result send fw_shop = Normal (SendResponse (text here_you_are) fcalls).
Proof.
  cbn zeta.
  destruct fw_shop_facts as (Hroom & Hheap).
  assert (Hbob : truthy_opt truthy_string (sender_name "u-bob" room7_binding) = true)
    by reflexivity.
  destruct (installed_actions_never_suppress fw_shop room7 "May I have the map?" "u-bob" []
              here_you_are (Some map_given) room7_binding Hroom Hbob)
    as (Hall & Hres & Htext).
  split; [exact Hroom|]. split; [exact Hbob|]. split; [reflexivity|].
  split; [reflexivity|]. split; [exact Hall|]. split.
  - exact (sendToConversation_actions fw_shop room7 "May I have the map?" "u-bob" []
             (Some here_you_are) (Some map_given) room7_binding _ Hroom Hbob Hheap).
  - split; [exact Hres|]. split; [reflexivity|]. exact (Htext eq_refl).
Defined.

(** A typed definition with one line of message examples meets every
    other condition of the schema and is rejected. *)
Example validate_with_message_example :
  validateCharacter (json_options ava_with_example) fw_new = (Thrown "Validation failed", fw_new).
Proof. reflexivity. Qed.

(** * Further properties

    ** Starting once *)

Lemma invoke_initialized call fw :
  initialized fw = true -> initialized (invoke call fw) = true.
Proof.
  intros Hinit. destruct call; cbn [invoke].
  - unfold start, db_init. run_op; auto.
  - unfold getOrCreateCharacter, runtime_new. run_op; auto.
  - unfold loadCharacter, containsCharacter, runtime_initialize, runtime_update.
    run_op; auto.
  - unfold stop, exec, bind at 1, gets. rewrite for_of_total by reflexivity. cbn [snd].
    now rewrite foldl_adapter_frame.
  - unfold exec.
    destruct (runtimeCharacterMaps fw !! options_hash (char_options c)) as [agent|] eqn:Hagent.
    + rewrite (createConversation_run _ _ _ _ _ _ Hagent). cbn [snd].
      now rewrite reconcile_frame.
    + now rewrite (createConversation_unknown _ _ _ _ _ Hagent).
  - unfold finishConversation, db_removeRoom. run_op; auto.
  - unfold exec. destruct (roomMaps fw !! conv_secret conversation) as [rd|] eqn:Hroom.
    + rewrite (setConversationUsers_run _ _ _ _ Hroom). cbn [snd].
      now rewrite reconcile_frame.
    + now rewrite (setConversationUsers_untracked _ _ _ Hroom).
  - unfold setConversationCharacter, runtime_stop, runtime_update. run_op; auto.
  - unfold sendToConversation, runtime_update, runtime_agentId, runtime_actions.
    run_op; auto.
Qed.

Lemma run_initialized later : forall fw,
  initialized fw = true -> initialized (run later fw) = true.
Proof.
  induction later as [|call later IH]; intros fw Hinit; [exact Hinit|].
  apply IH, invoke_initialized, Hinit.
Qed.

(** X1. [start] succeeds at most once.  After a first call of [start],
    whatever calls follow, the flag stays set and every further [start]
    throws and leaves the framework object as it was. *)
Theorem start_only_once (fw : Framework) (later : list Call) :
  let fw' := run later (exec start fw) in
  initialized fw' = true
  ∧ start fw'
    = (Thrown "ElizaFramework already initialized once. Cannot run two instances of ElizaFramework.",
       fw').
Proof.
  cbn zeta.
  assert (Hfirst : initialized (exec start fw) = true).
  { unfold start, db_init. run_op; auto. }
  pose proof (run_initialized later _ Hfirst) as Hlater.
  set (fw' := run later (exec start fw)) in *.
  split; [exact Hlater|].
  unfold start, bind, gets. now rewrite Hlater.
Qed.

(** ** Runtime objects through the runs *)

Lemma keeps_runtime_refl r : keeps_runtime r r.
Proof. now split. Qed.

Lemma keeps_runtime_trans a b c :
  keeps_runtime a b -> keeps_runtime b c -> keeps_runtime a c.
Proof. intros [] []. split; try congruence; auto. Qed.

Lemma heap_kept_refl fw : heap_kept fw fw.
Proof. intros h r Hr. exists r. split; [exact Hr | apply keeps_runtime_refl]. Qed.

Lemma heap_kept_trans a b c : heap_kept a b -> heap_kept b c -> heap_kept a c.
Proof.
  intros Hab Hbc h r Hr. destruct (Hab _ _ Hr) as (r1 & Hr1 & K1).
  destruct (Hbc _ _ Hr1) as (r2 & Hr2 & K2). exists r2.
  split; [exact Hr2 | eapply keeps_runtime_trans; eassumption].
Qed.

Lemma heap_kept_same fw fw' : runtimes fw' = runtimes fw -> heap_kept fw fw'.
Proof. intros Heq h r Hr. exists r. rewrite Heq. split; [exact Hr | apply keeps_runtime_refl]. Qed.

Lemma heap_kept_alter (f : AgentRuntime -> AgentRuntime) (k : nat) fw fw' :
  (forall r, keeps_runtime r (f r)) ->
  runtimes fw' = alter f k (runtimes fw) -> heap_kept fw fw'.
Proof.
  intros Hf Heq h r Hr. rewrite Heq. destruct (decide (h = k)) as [->|Hne].
  - exists (f r). rewrite list_lookup_alter_eq, Hr. split; [reflexivity | apply Hf].
  - exists r. rewrite list_lookup_alter_ne by congruence.
    split; [exact Hr | apply keeps_runtime_refl].
Qed.

Lemma heap_kept_new (r0 : AgentRuntime) fw fw' :
  runtimes fw' = runtimes fw ++ [r0] -> heap_kept fw fw'.
Proof.
  intros Heq h r Hr. exists r. rewrite Heq, lookup_app_l by (eapply lookup_lt_Some, Hr).
  split; [exact Hr | apply keeps_runtime_refl].
Qed.

Lemma keeps_rt_initialize r : keeps_runtime r (rt_initialize r).
Proof. now split. Qed.
Lemma keeps_rt_stop r : keeps_runtime r (rt_stop r).
Proof. now split. Qed.
Lemma keeps_rt_set_providers ps r : keeps_runtime r (rt_set_providers ps r).
Proof. now split. Qed.
Lemma keeps_rt_set_actions acts r : keeps_runtime r (rt_set_actions acts r).
Proof. now split. Qed.

Ltac heap_step :=
  first [ apply heap_kept_refl
        | apply heap_kept_same; reflexivity
        | eapply heap_kept_new; reflexivity
        | eapply (heap_kept_alter rt_initialize); [apply keeps_rt_initialize | reflexivity]
        | eapply (heap_kept_alter rt_stop); [apply keeps_rt_stop | reflexivity] ].

Lemma runtime_stop_kept h fw : heap_kept fw (exec (runtime_stop h) fw).
Proof. eapply (heap_kept_alter rt_stop); [apply keeps_rt_stop | reflexivity]. Qed.

Lemma stop_kept fw : heap_kept fw (exec stop fw).
Proof.
  unfold stop, exec, bind at 1, gets. rewrite for_of_total by reflexivity. cbn [snd].
  apply (foldl_preserves heap_kept); [apply heap_kept_refl | apply heap_kept_trans |].
  intros fw0 entry. apply runtime_stop_kept.
Qed.

Lemma sendToConversation_kept c m p ctx r col fw :
  heap_kept fw (exec (sendToConversation c m p ctx r col) fw).
Proof.
  unfold sendToConversation, runtime_update, runtime_agentId, runtime_actions.
  run_op; try apply heap_kept_refl;
    (eapply heap_kept_trans;
     [ eapply (heap_kept_alter (rt_set_providers _) _ fw (with_runtimes _ fw));
       [apply keeps_rt_set_providers | reflexivity]
     | eapply (heap_kept_alter (rt_set_actions _));
       [apply keeps_rt_set_actions | reflexivity] ]).
Qed.

Lemma invoke_kept call fw : heap_kept fw (invoke call fw).
Proof.
  destruct call; cbn [invoke].
  - unfold start, db_init. run_op; heap_step.
  - unfold getOrCreateCharacter, runtime_new. run_op; heap_step.
  - unfold loadCharacter, containsCharacter, runtime_initialize, runtime_update.
    run_op; heap_step.
  - apply stop_kept.
  - apply heap_kept_same. unfold exec.
    destruct (runtimeCharacterMaps fw !! options_hash (char_options c)) as [agent|] eqn:Hagent.
    + rewrite (createConversation_run _ _ _ _ _ _ Hagent). cbn [snd].
      now rewrite reconcile_frame.
    + now rewrite (createConversation_unknown _ _ _ _ _ Hagent).
  - unfold finishConversation, db_removeRoom. run_op; heap_step.
  - apply heap_kept_same. unfold exec.
    destruct (roomMaps fw !! conv_secret conversation) as [rd|] eqn:Hroom.
    + rewrite (setConversationUsers_run _ _ _ _ Hroom). cbn [snd].
      now rewrite reconcile_frame.
    + now rewrite (setConversationUsers_untracked _ _ _ Hroom).
  - unfold setConversationCharacter, runtime_stop, runtime_update. run_op; heap_step.
  - apply sendToConversation_kept.
Qed.

(** ** Stopping the framework *)

Lemma stopped_kept fw fw' h :
  heap_kept fw fw' -> stopped h fw = Some true -> stopped h fw' = Some true.
Proof.
  unfold stopped. intros Hkept Hs.
  destruct (runtimes fw !! h) as [r|] eqn:Hr; [|discriminate].
  destruct (Hkept _ _ Hr) as (r' & -> & K). cbn in *.
  injection Hs as Hs. now rewrite (keeps_stopped _ _ K Hs).
Qed.

Lemma stop_all (l : list (string * RuntimeCharacterMap)) : forall fw entry,
  entry ∈ l -> (runtime entry.2 < length (runtimes fw))%nat ->
  stopped (runtime entry.2)
          (foldl (fun fw e => exec (runtime_stop (runtime e.2)) fw) fw l)
  = Some true.
Proof.
  induction l as [|e l IH]; intros fw entry Hin Hlt.
  - now apply elem_of_nil in Hin.
  - cbn [foldl]. apply elem_of_cons in Hin as [->|Hin].
    + eapply stopped_kept.
      * apply (foldl_preserves heap_kept); [apply heap_kept_refl | apply heap_kept_trans |].
        intros fw0 x. apply runtime_stop_kept.
      * unfold stopped. cbn. rewrite list_lookup_alter_eq.
        destruct (lookup_lt_is_Some_2 _ _ Hlt) as [r ->]. reflexivity.
    + apply IH; [exact Hin|]. cbn. now rewrite length_alter.
Qed.



(** ** Conversation ids *)

Lemma ordinals_succ (n : N) : ordinals (n + 1) = ordinals n ++ [n + 1].
Proof.
  unfold ordinals. replace (N.to_nat (n + 1)) with (S (N.to_nat n)) by lia.
  rewrite seq_S, map_app. cbn. do 2 f_equal. lia.
Qed.

Lemma invoke_ids call fw :
  ids_wf fw ->
  same_ids fw (invoke call fw)
  ∨ exists room,
      conversationIdMap (invoke call fw)
      = conversationIdMap fw ++ [(conversationCount fw + 1, room)]
      ∧ conversationCount (invoke call fw) = conversationCount fw + 1.
Proof.
  intros Hwf. destruct call; cbn [invoke];
    try (left; solve [ apply start_untouched | apply loadCharacter_untouched
                     | apply stop_untouched | apply setConversationUsers_frame
                     | apply setConversationCharacter_untouched
                     | apply sendToConversation_untouched
                     | apply getOrCreateCharacter_frame
                     | apply finishConversation_frame ]).
  destruct (runtimeCharacterMaps fw !! options_hash (char_options c)) as [agent|] eqn:Hagent.
  - right. exists room.
    destruct (createConversation_ids room c us token agent fw Hwf Hagent) as (Hmap & Hcount & _).
    now split.
  - left. unfold exec. rewrite (createConversation_unknown _ _ _ _ _ Hagent). now split.
Qed.



(** ** What a lookup returns *)

Lemma idmap_key_of_elem (s : string) (k : N) (m : list (N * string)) :
  idmap_key_of s m = Some k -> (k, s) ∈ m.
Proof.
  unfold idmap_key_of. intros H.
  destruct (find _ m) as [[k' s']|] eqn:Hf; [|discriminate].
  cbn in H. injection H as <-. apply find_some in Hf as [Hin Hb].
  apply bool_decide_eq_true_1 in Hb. cbn in Hb. subst. now apply list_elem_of_In.
Qed.

Lemma truthy_opt_Some {A} (t : A -> bool) (o : option A) :
  truthy_opt t o = true -> exists a, o = Some a ∧ t a = true.
Proof. destruct o as [a|]; [|discriminate]. intros H. now exists a. Qed.

Lemma getConversationBy_sound sel fw c :
  result (getConversationBy sel) fw = Normal (Some c) ->
  (conv_id c, conv_secret c) ∈ conversationIdMap fw
  ∧ conv_persistenceToken c = sel_persistenceToken sel
  ∧ conv_data c = empty_data
  ∧ exists rd, roomMaps fw !! conv_secret c = Some rd
               ∧ conv_users c = users rd
               ∧ conv_character c = character (runtimeCharacterMap rd).
Proof.
  intros H.
  unfold getConversationBy, by_secret_or_token, by_id_branch, by_secret_branch,
    by_token_branch, db_getRoom, result, bind, gets, ret in H.
  cbn in H.
  repeat match type of H with
         | context [match ?x with _ => _ end] => destruct_inner x; cbn in H
         end;
    try discriminate; injection H as <-; cbn.
  all: repeat match goal with
         | T : truthy_opt _ _ = true |- _ =>
             apply truthy_opt_Some in T as (? & ? & ?)
         end.
  all: repeat match goal with
         | E : ?o = Some _ |- context [default _ ?o] => rewrite E
         | E : ?o = Some _, E' : context [default _ ?o] |- _ => rewrite E in E'
         end; cbn.
  all: repeat split; eauto using idmap_get_elem, idmap_key_of_elem.
Qed.

(** X5. A lookup returns what is stored.  Whatever selector is used, a
    conversation that [getConversationBy] returns pairs an id and a secret
    of the identity map, carries the roster and the character of the
    tracked room at the time of the call, and as persistence token the
    one the selector held: the token a room was created under is not
    returned by a lookup by id or by secret. *)
Theorem getConversationBy_returns_stored (sel : Selector) (fw : Framework)
    (c : ElizaConversation) :
  result (getConversationBy sel) fw = Normal (Some c) ->
  (conv_id c, conv_secret c) ∈ conversationIdMap fw
  ∧ conv_persistenceToken c = sel_persistenceToken sel
  ∧ conv_data c = empty_data
  ∧ exists rd, roomMaps fw !! conv_secret c = Some rd
               ∧ conv_users c = users rd
               ∧ conv_character c = character (runtimeCharacterMap rd).
Proof. apply getConversationBy_sound. Qed.

Lemma getConversationBy_returns_stored_witness :
  exists c, result (getConversationBy (by_id (conv_id room1))) fw_room = Normal (Some c)
            ∧ conv_persistenceToken c = sel_persistenceToken (by_id (conv_id room1)).
Proof.
  destruct fw_room_facts as (Hreach & Hlive & _).
  destruct (by_id_selects fw_room room1 (proj1 (reachable_wf _ Hreach)) Hlive)
    as (c & H & _).
  exists c. split; [exact H|].
  destruct (getConversationBy_returns_stored _ _ _ H) as (_ & Htoken & _).
  exact Htoken.
Defined.

Lemma live_selected fw c sel :
  ids_wf fw -> live c fw ->
  sel = by_id (conv_id c) ∨ sel = by_secret (conv_secret c) ->
  exists c' rd,
    result (getConversationBy sel) fw = Normal (Some c')
    ∧ conv_id c' = conv_id c ∧ conv_secret c' = conv_secret c
    ∧ roomMaps fw !! conv_secret c = Some rd
    ∧ conv_users c' = users rd
    ∧ conv_character c' = character (runtimeCharacterMap rd)
    ∧ conv_persistenceToken c' = None.
Proof.
  intros Hids Hlive Hsel.
  assert (Hselects : selects sel c fw).
  { destruct Hsel as [-> | ->]; [now apply by_id_selects | now apply by_secret_selects]. }
  destruct Hselects as (c' & Hres & Hid & Hsec).
  destruct (getConversationBy_sound _ _ _ Hres) as (_ & Htok & _ & rd & Hrd & Hus & Hch).
  exists c', rd. rewrite Hsec in Hrd. repeat split; try assumption.
  rewrite Htok. now destruct Hsel as [-> | ->].
Qed.


(** X7. What [createConversation] returns and what a lookup returns.  In
    a state reached by admissible calls, and when the call itself is
    admissible (the adapter hands back a non-empty room id that it has
    not handed back before, and the token is not the secret of an earlier
    conversation): the conversation object returned by a successful
    [createConversation] has an empty list of users, whatever roster was
    asked for; a lookup by id or by secret right afterwards returns the
    roster that was asked for, the character held by the registry, and no
    persistence token; a lookup by the non-empty persistence token the
    room was created under returns the same id and roster, with that
    token. *)
Theorem createConversation_then_lookup (fw : Framework) (room : string)
    (c : ElizaCharacter) (us : list User) (token : option string)
    (agent : RuntimeCharacterMap) :
  reachable fw -> admissible fw (CallCreateConversation room c us token) ->
  runtimeCharacterMaps fw !! options_hash (char_options c) = Some agent ->
  let fw' := exec (createConversation room c us token) fw in
  exists created,
    result (createConversation room c us token) fw = Normal (Some created)
    ∧ conv_users created = []
    ∧ conv_persistenceToken created = token
    ∧ (forall sel, sel = by_id (conv_id created) ∨ sel = by_secret (conv_secret created) ->
         exists c', result (getConversationBy sel) fw' = Normal (Some c')
                    ∧ conv_id c' = conv_id created ∧ conv_secret c' = room
                    ∧ conv_users c' = us
                    ∧ conv_character c' = character agent
                    ∧ conv_persistenceToken c' = None)
    ∧ (forall t, token = Some t -> t ≠ EmptyString ->
         exists c', result (getConversationBy (by_persistenceToken t)) fw'
                    = Normal (Some c')
                    ∧ conv_id c' = conv_id created ∧ conv_secret c' = room
                    ∧ conv_users c' = us
                    ∧ conv_persistenceToken c' = Some t).
Proof.
  intros Hreach Hadm Hagent. cbn zeta.
  exists (new_conversation fw room c token).
  split; [unfold result; now rewrite (createConversation_run _ _ _ _ _ _ Hagent)|].
  split; [reflexivity|]. split; [reflexivity|].
  destruct (createConversation_live room c us token agent fw Hreach Hadm Hagent)
    as [Hlive Hresolves].
  assert (Hwf' : wf (invoke (CallCreateConversation room c us token) fw)).
  { apply invoke_wf; [apply reachable_wf, Hreach | exact Hadm]. }
  cbn [invoke] in Hwf'.
  pose proof (createConversation_roomMaps room c us token agent fw Hagent) as Hrooms.
  split.
  - intros sel Hsel.
    destruct (live_selected _ _ sel (proj1 Hwf') Hlive Hsel)
      as (c' & rd' & Hres & Hid & Hsec & Hrd' & Hus & Hch & Htok).
    cbn [conv_secret new_conversation] in Hrd', Hsec.
    rewrite Hrooms in Hrd'. injection Hrd' as <-.
    exists c'. repeat split; assumption.
  - intros t Ht Hne.
    destruct (by_token_selects _ _ t (proj1 Hwf') Hlive Hne (Hresolves t Ht))
      as (c' & Hres & Hid & Hsec).
    destruct (getConversationBy_sound _ _ _ Hres) as (_ & Htok & _ & rd' & Hrd' & Hus & _).
    cbn [conv_secret new_conversation] in Hsec. rewrite Hsec, Hrooms in Hrd'.
    injection Hrd' as <-.
    exists c'. repeat split; assumption.
Qed.



Lemma createConversation_then_lookup_witness :
  admissible fw_ava (CallCreateConversation "room-1" ava [bob] None)
  ∧ runtimeCharacterMaps fw_ava !! options_hash (char_options ava) = Some ava_binding
  ∧ exists created,
      result (createConversation "room-1" ava [bob] None) fw_ava = Normal (Some created)
      ∧ conv_users created = [].
Proof.
  destruct fw_ava_facts as (Hreach & Hagent & Hadm).
  split; [exact Hadm|]. split; [exact Hagent|].
  destruct (createConversation_then_lookup fw_ava "room-1" ava [bob] None ava_binding
              Hreach Hadm Hagent) as (created & Hres & Hus & _).
  exists created. split; assumption.
Defined.


(** ** Conversations through the runs *)

Lemma run_wf later : forall fw, wf fw -> admissible_run fw later -> wf (run later fw).
Proof.
  induction later as [|call later IH]; intros fw Hwf Hadm; [exact Hwf|].
  destruct Hadm as [Hcall Hrest]. apply IH; [now apply invoke_wf | exact Hrest].
Qed.

Lemma run_keeps_live c later : forall fw,
  wf fw -> admissible_run fw later ->
  (forall c', CallFinishConversation c' ∈ later -> conv_secret c' ≠ conv_secret c) ->
  live c fw -> live c (run later fw).
Proof.
  induction later as [|call later IH]; intros fw Hwf Hadm Hspare Hlive; [exact Hlive|].
  destruct Hadm as [Hcall Hrest]. apply IH.
  - now apply invoke_wf.
  - exact Hrest.
  - intros c' Hin. apply Hspare. now right.
  - apply invoke_keeps_live; try assumption.
    intros c' ->. apply Hspare. left.
Qed.

(** X9. A conversation stays resolvable until it is finished.  From a
    state reached by calls of the package, after any further admissible
    calls none of which finishes the conversation's room, the live
    conversation is still live, and lookups by its id and by its secret
    still return it. *)
Theorem live_until_finished (fw : Framework) (c : ElizaConversation)
    (later : list Call) :
  reachable fw -> live c fw -> admissible_run fw later ->
  (forall c', CallFinishConversation c' ∈ later -> conv_secret c' ≠ conv_secret c) ->
  live c (run later fw)
  ∧ selects (by_id (conv_id c)) c (run later fw)
  ∧ selects (by_secret (conv_secret c)) c (run later fw).
Proof.
  intros Hreach Hlive Hadm Hspare.
  pose proof (reachable_wf _ Hreach) as Hwf.
  pose proof (run_keeps_live c later fw Hwf Hadm Hspare Hlive) as Hlive'.
  destruct (run_wf later fw Hwf Hadm) as (Hids & _).
  split; [exact Hlive'|].
  split; [now apply by_id_selects | now apply by_secret_selects].
Qed.

Lemma live_until_finished_witness :
  let later := [CallStop; CallSetConversationUsers room1 [cy]] in
  live room1 fw_room
  ∧ admissible_run fw_room later
  ∧ selects (by_id (conv_id room1)) room1 (run later fw_room).
Proof.
  cbn zeta.
  destruct fw_room_facts as (Hreach & Hlive & _).
  assert (Hadm : admissible_run fw_room [CallStop; CallSetConversationUsers room1 [cy]]).
  { cbn [admissible_run admissible]. repeat split. }
  split; [exact Hlive|]. split; [exact Hadm|].
  assert (Hspare : forall c',
             CallFinishConversation c' ∈ [CallStop; CallSetConversationUsers room1 [cy]] ->
             conv_secret c' ≠ conv_secret room1).
  { intros c' Hin.
    apply elem_of_cons in Hin as [Heq | Hin]; [discriminate|].
    apply elem_of_cons in Hin as [Heq | Hin]; [discriminate|].
    now apply elem_of_nil in Hin. }
  destruct (live_until_finished fw_room room1
              [CallStop; CallSetConversationUsers room1 [cy]]
              Hreach Hlive Hadm Hspare) as (_ & Hid & _).
  exact Hid.
Defined.

Lemma run_keeps_entries c n s later : forall fw,
  wf fw -> admissible_run fw later ->
  tracked c fw -> idmap_get n (conversationIdMap fw) = Some s ->
  tracked c (run later fw) ∧ idmap_get n (conversationIdMap (run later fw)) = Some s.
Proof.
  induction later as [|call later IH]; intros fw Hwf Hadm Htracked Hid; [now split|].
  destruct Hadm as [Hcall Hrest]. apply IH.
  - now apply invoke_wf.
  - exact Hrest.
  - now apply invoke_keeps_tracked.
  - apply invoke_keeps_id; [apply Hwf | exact Hid].
Qed.

(** X10. Nothing is ever forgotten in memory.  No call of the package, and
    in particular not [finishConversation], removes an entry from the
    room map or from the identity map: a room that is tracked stays
    tracked and an id keeps its secret through every admissible run. *)
Theorem rooms_never_forgotten (fw : Framework) (c : ElizaConversation) (n : N)
    (s : string) (later : list Call) :
  reachable fw -> admissible_run fw later ->
  tracked c fw -> idmap_get n (conversationIdMap fw) = Some s ->
  tracked c (run later fw)
  ∧ idmap_get n (conversationIdMap (run later fw)) = Some s.
Proof.
  intros Hreach Hadm Htracked Hid.
  apply run_keeps_entries; try assumption. now apply reachable_wf.
Qed.

Lemma rooms_never_forgotten_witness :
  let later := [CallFinishConversation room1; CallStop] in
  tracked room1 fw_room
  ∧ tracked room1 (run later fw_room)
  ∧ idmap_get (conv_id room1) (conversationIdMap (run later fw_room))
    = Some (conv_secret room1).
Proof.
  cbn zeta.
  destruct fw_room_facts as (Hreach & (Hid & _ & Htracked) & _).
  split; [exact Htracked|].
  assert (Hadm : admissible_run fw_room [CallFinishConversation room1; CallStop]).
  { cbn [admissible_run admissible]. repeat split. }
  exact (rooms_never_forgotten fw_room room1 (conv_id room1) (conv_secret room1)
           [CallFinishConversation room1; CallStop] Hreach Hadm Htracked Hid).
Defined.

(** ** The action handler *)

(** *** [parseInt] on the spellings of indices and on names *)

Lemma white_space_1_false (x : N) : 33 <= x -> white_space_1 x = false.
Proof.
  intros Hx. unfold white_space_1.
  destruct (N.leb_spec 9 x), (N.leb_spec x 13), (N.eqb_spec x 32); cbn; first [reflexivity | exfalso; lia].
Qed.

Lemma white_space_2_false (x y : N) : x < 194 -> white_space_2 x y = false.
Proof.
  intros Hx. unfold white_space_2. destruct (N.eqb_spec x 194); [lia | reflexivity].
Qed.

Lemma white_space_3_false (x y z : N) : x < 194 -> white_space_3 x y z = false.
Proof.
  intros Hx. unfold white_space_3.
  destruct (N.eqb_spec x 225), (N.eqb_spec x 226), (N.eqb_spec x 227), (N.eqb_spec x 239);
    try lia; reflexivity.
Qed.

Lemma trim_start_printable (c : ascii) (rest : string) :
  33 <= N_of_ascii c < 194 -> trim_start (String c rest) = String c rest.
Proof.
  intros [Hlo Hhi]. cbn [trim_start].
  rewrite white_space_1_false by assumption.
  destruct rest as [|b r2]; [reflexivity|].
  rewrite white_space_2_false by assumption.
  destruct r2 as [|d r3]; [reflexivity|].
  now rewrite white_space_3_false by assumption.
Qed.

Lemma digit_value_decimal (c : ascii) :
  48 <= N_of_ascii c <= 57 -> digit_value c = Some (N_of_ascii c - 48).
Proof.
  intros [Hlo Hhi]. unfold digit_value.
  destruct (N.leb_spec 48 (N_of_ascii c)), (N.leb_spec (N_of_ascii c) 57); cbn; first [reflexivity | exfalso; lia].
Qed.

Lemma digit_value_letter (c : ascii) (d : N) :
  58 <= N_of_ascii c -> digit_value c = Some d -> 10 <= d.
Proof.
  intros Hc. unfold digit_value.
  destruct (N.leb_spec 48 (N_of_ascii c)), (N.leb_spec (N_of_ascii c) 57),
    (N.leb_spec 97 (N_of_ascii c)), (N.leb_spec (N_of_ascii c) 122),
    (N.leb_spec 65 (N_of_ascii c)), (N.leb_spec (N_of_ascii c) 90);
    cbn; intros [= <-]; lia.
Qed.

(** A key that starts with a letter, an underscore or any other one-byte
    character from [:] on is not a number. *)
Lemma parseInt_name (c : ascii) (rest : string) :
  58 <= N_of_ascii c < 194 -> parseInt (String c rest) = None.
Proof.
  intros [Hlo Hhi]. unfold parseInt.
  rewrite trim_start_printable by lia.
  unfold strip_sign.
  destruct (N.eqb_spec (N_of_ascii c) 45); [lia|].
  destruct (N.eqb_spec (N_of_ascii c) 43); [lia|].
  cbn [snd fst].
  assert (Hp : strip_prefix (String c rest) = (10, String c rest)).
  { unfold strip_prefix. destruct rest; [reflexivity|].
    destruct (N.eqb_spec (N_of_ascii c) 48); [lia | reflexivity]. }
  rewrite Hp. cbn [fst snd read_digits].
  destruct (digit_value c) as [d|] eqn:Hd; [|reflexivity].
  apply digit_value_letter in Hd; [|assumption].
  destruct (N.ltb_spec d 10); [lia | reflexivity].
Qed.

Lemma parseInt_decimal (s : string) :
  s ≠ EmptyString -> all_decimal s = true ->
  parseInt s = Z.of_N <$> read_digits 10 s None.
Proof.
  destruct s as [|c rest]; [congruence|]. intros _ Hall.
  cbn [all_decimal] in Hall. apply andb_prop in Hall as [Hc Hrest].
  apply andb_prop in Hc as [Hlo Hhi].
  apply N.leb_le in Hlo, Hhi.
  unfold parseInt. rewrite trim_start_printable by lia.
  unfold strip_sign.
  destruct (N.eqb_spec (N_of_ascii c) 45); [lia|].
  destruct (N.eqb_spec (N_of_ascii c) 43); [lia|].
  cbn [snd fst].
  assert (Hp : strip_prefix (String c rest) = (10, String c rest)).
  { unfold strip_prefix. destruct rest as [|x r]; [reflexivity|].
    cbn [all_decimal] in Hrest. apply andb_prop in Hrest as [Hx _].
    apply andb_prop in Hx as [Hxlo Hxhi]. apply N.leb_le in Hxlo, Hxhi.
    destruct (N.eqb_spec (N_of_ascii x) 120); [lia|].
    destruct (N.eqb_spec (N_of_ascii x) 88); [lia|].
    now rewrite andb_false_r. }
  now rewrite Hp.
Qed.

Lemma digit_char_value (d : N) :
  d < 10 -> N_of_ascii (ascii_of_N (48 + d)) = 48 + d.
Proof. intros Hd. apply N_ascii_embedding. lia. Qed.

Lemma decimal_digits_spec (fuel : nat) : forall (n : N) (tail : string),
  n < 2 ^ N.of_nat fuel -> all_decimal tail = true ->
  let s := decimal_digits fuel n tail in
  (fuel ≠ O -> s ≠ EmptyString)
  ∧ all_decimal s = true
  ∧ (fuel ≠ O -> read_digits 10 s None = read_digits 10 tail (Some n)).
Proof.
  induction fuel as [|fuel IH]; intros n tail Hn Htail; cbn zeta.
  - cbn [decimal_digits]. repeat split; congruence.
  - cbn [decimal_digits].
    assert (Hmod : n mod 10 < 10) by (apply N.mod_lt; discriminate).
    pose proof (N.div_mod n 10 ltac:(discriminate)) as Hdm.
    remember (n mod 10) as m eqn:Hm. remember (n / 10) as q eqn:Hq.
    pose proof (digit_char_value _ Hmod) as Hchar.
    assert (Htail' : all_decimal (String (ascii_of_N (48 + m)) tail) = true).
    { cbn [all_decimal]. rewrite Hchar, Htail.
      destruct (N.leb_spec 48 (48 + m)), (N.leb_spec (48 + m) 57);
        cbn; first [reflexivity | exfalso; lia]. }
    assert (Hread : forall acc,
      read_digits 10 (String (ascii_of_N (48 + m)) tail) acc
      = read_digits 10 tail (Some (10 * default 0 acc + m))).
    { intros acc. cbn [read_digits]. rewrite digit_value_decimal by (rewrite Hchar; lia).
      rewrite Hchar. replace (48 + m - 48) with m by lia.
      destruct (N.ltb_spec m 10); [reflexivity | lia]. }
    destruct (N.ltb_spec n 10) as [Hsmall|Hbig].
    + repeat split; [congruence | assumption |].
      intros _. rewrite Hread. cbn [default from_option id].
      do 2 f_equal. rewrite Hm, N.mod_small by assumption. lia.
    + assert (Hfuel : fuel ≠ O).
      { intros ->. cbn in Hn. lia. }
      assert (Hdiv : q < 2 ^ N.of_nat fuel).
      { rewrite Nat2N.inj_succ, N.pow_succ_r' in Hn. lia. }
      destruct (IH q _ Hdiv Htail') as (Hne & Hall & Hval).
      repeat split; [auto | assumption |].
      intros _. rewrite (Hval Hfuel), Hread. cbn [default from_option id].
      do 2 f_equal. lia.
Qed.

Lemma index_key_spec (i : N) :
  index_key i ≠ EmptyString
  ∧ all_decimal (index_key i) = true
  ∧ read_digits 10 (index_key i) None = Some i.
Proof.
  unfold index_key.
  assert (Hfuel : S (N.to_nat (N.size i)) ≠ O) by discriminate.
  assert (Hi : i < 2 ^ N.of_nat (S (N.to_nat (N.size i)))).
  { rewrite Nat2N.inj_succ, N2Nat.id, N.pow_succ_r'.
    pose proof (N.size_gt i). lia. }
  destruct (decimal_digits_spec _ i EmptyString Hi eq_refl) as (Hne & Hall & Hval).
  repeat split; auto.
Qed.

Lemma parseInt_index_key (i : N) : parseInt (index_key i) = Some (Z.of_N i).
Proof.
  destruct (index_key_spec i) as (Hne & Hall & Hval).
  now rewrite parseInt_decimal, Hval.
Qed.

Lemma at_index_nat {A} (l : list A) (i : nat) :
  at_index l (Some (Z.of_N (N.of_nat i))) = l !! i.
Proof.
  unfold at_index. destruct (Z.leb_spec 0 (Z.of_N (N.of_nat i))); [|lia].
  now rewrite N2Z.id, Nat2N.id || (f_equal; lia).
Qed.

(** *** Own properties *)

Lemma property_get_cons {V} (key k : string) (w : V) (o : list (string * V)) :
  property_get key ((k, w) :: o)
  = if bool_decide (k = key) then Some w else property_get key o.
Proof. unfold property_get. cbn. now destruct (bool_decide (k = key)). Qed.

Lemma property_get_app {V} (key : string) (o o' : list (string * V)) :
  property_get key (o ++ o')
  = match property_get key o with Some v => Some v | None => property_get key o' end.
Proof.
  induction o as [|[k w] o IH]; [reflexivity|].
  cbn [app]. rewrite !property_get_cons. now destruct (bool_decide (k = key)).
Qed.

Lemma property_get_replace {V} (key name : string) (v : V) (o : list (string * V)) :
  property_get key (property_replace name v o)
  = if bool_decide (key = name) then (fun _ => v) <$> property_get name o else property_get key o.
Proof.
  induction o as [|[k w] o IH]; cbn [property_replace].
  - now destruct (bool_decide (key = name)).
  - destruct (bool_decide_reflect (k = name)) as [->|Hk].
    + rewrite !property_get_cons.
      destruct (bool_decide_reflect (key = name)) as [->|Hkey].
      * now rewrite !bool_decide_eq_true_2.
      * now rewrite !bool_decide_eq_false_2 by congruence.
    + rewrite !property_get_cons, IH.
      destruct (bool_decide_reflect (key = name)) as [->|Hkey].
      * now rewrite !bool_decide_eq_false_2 by congruence.
      * reflexivity.
Qed.

Lemma property_get_add_index {V} (key : string) (i : N) (name : string) (v : V)
    (o : list (string * V)) :
  property_get name o = None ->
  property_get key (property_add_index i name v o)
  = if bool_decide (key = name) then Some v else property_get key o.
Proof.
  induction o as [|[k w] o IH]; intros Hnone; cbn [property_add_index].
  - rewrite property_get_cons. rewrite (bool_decide_ext (name = key) (key = name)) by naive_solver.
    reflexivity.
  - rewrite property_get_cons in Hnone.
    destruct (bool_decide_reflect (k = name)) as [->|Hk]; [discriminate|].
    assert (Hhead : property_get key ((name, v) :: (k, w) :: o)
                    = if bool_decide (key = name) then Some v
                      else property_get key ((k, w) :: o)).
    { rewrite property_get_cons.
      now rewrite (bool_decide_ext (name = key) (key = name)) by naive_solver. }
    destruct (array_index k) as [j|]; [|exact Hhead].
    destruct (j <? i); [|exact Hhead].
    rewrite !property_get_cons, (IH Hnone).
    destruct (bool_decide_reflect (k = key)) as [->|Hkey]; [|reflexivity].
    now rewrite bool_decide_eq_false_2 by congruence.
Qed.

Lemma property_get_set {V} (key name : string) (v : V) (o : list (string * V)) :
  property_get key (property_set name v o)
  = if bool_decide (key = name) && negb (bool_decide (name = "__proto__"))
    then Some v else property_get key o.
Proof.
  unfold property_set.
  destruct (bool_decide_reflect (name = "__proto__")) as [Hproto|Hproto].
  { now rewrite andb_false_r. }
  rewrite andb_true_r.
  destruct (bool_decide_reflect (is_Some (property_get name o))) as [[w Hw]|Hnone].
  - rewrite property_get_replace, Hw. reflexivity.
  - apply eq_None_not_Some in Hnone.
    destruct (array_index name) as [i|].
    + now apply property_get_add_index.
    + rewrite property_get_app, property_get_cons.
      rewrite (bool_decide_ext (name = key) (key = name)) by naive_solver.
      destruct (bool_decide_reflect (key = name)) as [->|Hkey].
      * now rewrite Hnone.
      * now destruct (property_get key o).
Qed.

(** *** The remapping *)

Lemma remap_thrown {V} (func : CharacterFunction) (msg : string) (ps : list (string * V)) :
  foldl (remap_step func) (Thrown msg) ps = Thrown msg.
Proof. induction ps as [|entry ps IH]; [reflexivity | exact IH]. Qed.

Lemma truthy_string_spec (s : string) : truthy_string s = true <-> s ≠ EmptyString.
Proof.
  unfold truthy_string. rewrite negb_true_iff, bool_decide_eq_false. reflexivity.
Qed.

(** The remapping completes exactly when every generated key addresses a
    declared parameter. *)
Lemma remap_completes {V} (func : CharacterFunction) (ps : list (string * V)) :
  forall acc,
    (exists acc', foldl (remap_step func) (Normal acc) ps = Normal acc')
    <-> Forall (fun entry => is_Some (at_index (fn_parameters func) (parseInt entry.1))) ps.
Proof.
  induction ps as [|entry ps IH]; intros acc.
  - split; [constructor | intros _; now exists acc].
  - cbn [foldl]. unfold remap_step at 2.
    destruct (at_index (fn_parameters func) (parseInt entry.1)) as [p|] eqn:Hp.
    + rewrite IH. split.
      * intros H. constructor; [now exists p | exact H].
      * intros H. now inversion H.
    + rewrite remap_thrown. split.
      * intros [acc' H]. discriminate.
      * intros H. inversion H as [|? ? [p Hsome] ?]. congruence.
Qed.

Lemma remap_throws {V} (func : CharacterFunction) (ps : list (string * V)) (entry : string * V) :
  entry ∈ ps ->
  at_index (fn_parameters func) (parseInt entry.1) = None ->
  mappedParams func ps
  = Thrown "TypeError: Cannot read properties of undefined (reading 'name')".
Proof.
  unfold mappedParams. generalize (@nil (string * V)) as acc.
  induction ps as [|e ps IH]; intros acc Hin Hnone.
  - now apply elem_of_nil in Hin.
  - cbn [foldl]. unfold remap_step at 2.
    destruct (at_index (fn_parameters func) (parseInt e.1)) as [p|] eqn:Hp.
    + apply elem_of_cons in Hin as [->|Hin]; [congruence|]. now apply IH.
    + apply remap_thrown.
Qed.

Lemma remap_sound {V} (func : CharacterFunction) (ps : list (string * V)) :
  forall acc acc' name v,
    foldl (remap_step func) (Normal acc) ps = Normal acc' ->
    property_get name acc' = Some v ->
    property_get name acc = Some v
    ∨ (name ≠ EmptyString ∧ name ≠ "__proto__"
       ∧ exists key parameter,
           (key, v) ∈ ps
           ∧ at_index (fn_parameters func) (parseInt key) = Some parameter
           ∧ param_name parameter = name).
Proof.
  induction ps as [|[key w] ps IH]; intros acc acc' name v Hrun Hget.
  - injection Hrun as <-. now left.
  - cbn [foldl] in Hrun. unfold remap_step at 2 in Hrun. cbn [fst snd] in Hrun.
    destruct (at_index (fn_parameters func) (parseInt key)) as [p|] eqn:Hp;
      [|rewrite remap_thrown in Hrun; discriminate].
    destruct (IH _ _ _ _ Hrun Hget) as [Hold|(Hne & Hproto & k & q & Hin & Hq & Hname)].
    + destruct (truthy_string (param_name p)) eqn:Htruthy; [|now left].
      rewrite property_get_set in Hold.
      destruct (bool_decide_reflect (name = param_name p)) as [->|Hother];
        [|now left].
      destruct (bool_decide_reflect (param_name p = "__proto__")) as [Hproto|Hproto];
        [now left|].
      cbn in Hold. injection Hold as <-. right.
      apply truthy_string_spec in Htruthy.
      repeat split; try assumption.
      exists key, p. repeat split; [left | assumption].
    + right. repeat split; try assumption.
      exists k, q. repeat split; [now right | assumption..].
Qed.

Lemma positional_snoc {V} (vs : list V) (v : V) :
  positional (vs ++ [v]) = positional vs ++ [(index_key (N.of_nat (length vs)), v)].
Proof.
  unfold positional. rewrite imap_app. cbn. now rewrite Nat.add_0_r.
Qed.

Lemma remap_positional {V} (func : CharacterFunction) (vs : list V) :
  (length vs <= length (fn_parameters func))%nat ->
  NoDup (map param_name (fn_parameters func)) ->
  Forall (fun p => param_name p ≠ EmptyString ∧ param_name p ≠ "__proto__")
         (fn_parameters func) ->
  exists mapped,
    mappedParams func (positional vs) = Normal mapped
    ∧ forall i p v, fn_parameters func !! i = Some p -> vs !! i = Some v ->
        property_get (param_name p) mapped = Some v.
Proof.
  intros Hlen Hdup Hnames. unfold mappedParams.
  induction vs as [|v vs IH] using rev_ind.
  - exists []. split; [reflexivity|]. intros i p v _ Hv. discriminate.
  - rewrite length_app in Hlen. cbn in Hlen.
    destruct IH as (mapped & Hrun & Hget); [lia|].
    destruct (lookup_lt_is_Some_2 (fn_parameters func) (length vs)) as [q Hq]; [lia|].
    pose proof (proj1 (Forall_lookup _ _) Hnames _ _ Hq) as [Hne Hproto].
    exists (property_set (param_name q) v mapped). split.
    + rewrite positional_snoc, foldl_app, Hrun. cbn [foldl]. unfold remap_step. cbn [fst snd].
      rewrite parseInt_index_key, at_index_nat, Hq.
      now rewrite (proj2 (truthy_string_spec _) Hne).
    + intros i p w Hp Hw. rewrite property_get_set.
      rewrite (bool_decide_eq_false_2 (param_name q = "__proto__")) by assumption.
      rewrite andb_true_r.
      destruct (decide (i = length vs)) as [->|Hi].
      * rewrite Hq in Hp. injection Hp as ->.
        rewrite lookup_app_r, Nat.sub_diag in Hw by lia. injection Hw as ->.
        now rewrite bool_decide_eq_true_2.
      * assert (Hiv : (i < length vs)%nat).
        { apply lookup_lt_Some in Hw. rewrite length_app in Hw. cbn in Hw. lia. }
        rewrite lookup_app_l in Hw by assumption.
        rewrite bool_decide_eq_false_2; [now apply (Hget i)|].
        intros Heq. apply Hi.
        apply (NoDup_lookup _ _ _ (param_name p) Hdup);
          rewrite list_lookup_fmap; [now rewrite Hp | now rewrite Hq, Heq].
Qed.

(** *** The handler *)

(** X11. The parameters the handler passes on are named by declared
    parameters only: every property of the remapped object carries a
    non-empty declared name other than [__proto__], and its value was
    generated under a key that addresses a parameter of that name. *)
Theorem mappedParams_names_declared (func : CharacterFunction)
    (parameters mapped : list (string * JSON)) (name : string) (v : JSON) :
  mappedParams func parameters = Normal mapped ->
  property_get name mapped = Some v ->
  name ≠ EmptyString ∧ name ≠ "__proto__"
  ∧ exists key parameter,
      (key, v) ∈ parameters
      ∧ at_index (fn_parameters func) (parseInt key) = Some parameter
      ∧ param_name parameter = name.
Proof.
  intros Hrun Hget.
  destruct (remap_sound func parameters [] mapped name v Hrun Hget) as [Hold|H];
    [discriminate | exact H].
Qed.

Lemma mappedParams_names_declared_witness :
  exists mapped,
    mappedParams give (gen_parameters give_map) = Normal mapped
    ∧ property_get "item" mapped = Some (JString "map")
    ∧ exists key parameter,
        (key, JString "map") ∈ gen_parameters give_map
        ∧ at_index (fn_parameters give) (parseInt key) = Some parameter
        ∧ param_name parameter = "item".
Proof.
  exists [("item", JString "map"); ("wrapped", JBool true)].
  split; [vm_compute; reflexivity|]. split; [vm_compute; reflexivity|].
  apply (mappedParams_names_declared give (gen_parameters give_map)
           [("item", JString "map"); ("wrapped", JBool true)] "item" (JString "map"));
    vm_compute; reflexivity.
Defined.

(** X12. The handler calls the callback exactly when the runtime passed a
    state and a callback, the backend returned an object, and every key
    of the generated parameters addresses a declared parameter. *)
Theorem handler_calls_back_iff (func : CharacterFunction) (state callback : bool)
    (generated : option GeneratedObject) :
  is_Some (called_back (handler func state callback generated))
  <-> state = true ∧ callback = true
      ∧ exists respObject,
          generated = Some respObject
          ∧ Forall (fun entry =>
                      is_Some (at_index (fn_parameters func) (parseInt entry.1)))
                   (gen_parameters respObject).
Proof.
  unfold handler.
  destruct state, callback; cbn [negb orb];
    try (split; [intros [m H]; discriminate | intros (? & ? & _); discriminate]).
  destruct generated as [respObject|].
  - pose proof (remap_completes func (gen_parameters respObject) []) as Hiff.
    fold (mappedParams func (gen_parameters respObject)) in Hiff.
    destruct (mappedParams func (gen_parameters respObject)) as [mapped|msg]; cbn.
    + split; [|intros _; eexists; reflexivity].
      intros _. repeat split. exists respObject. split; [reflexivity|].
      apply Hiff. now exists mapped.
    + split; [intros [m H]; discriminate|].
      intros (_ & _ & obj & [= <-] & Hall). apply Hiff in Hall as [acc Hacc]. discriminate.
  - cbn. split; [intros [m H]; discriminate|].
    intros (_ & _ & obj & Hobj & _). discriminate.
Qed.

(** X13. Positional parameters are handed over by name.  When the backend
    spells the keys as the indices 0, 1, ... and the declared names are
    distinct, non-empty and not [__proto__], the handler passes the
    action's name, the generated message and, under the name of the i-th
    declared parameter, the i-th generated value. *)
Theorem handler_names_positional_parameters (func : CharacterFunction)
    (message : string) (values : list JSON) :
  (length values <= length (fn_parameters func))%nat ->
  NoDup (map param_name (fn_parameters func)) ->
  Forall (fun p => param_name p ≠ EmptyString ∧ param_name p ≠ "__proto__")
         (fn_parameters func) ->
  exists mapped,
    handler func true true
            (Some {| gen_message := message; gen_parameters := positional values |})
    = {| completion := Normal ReturnsUndefined;
         called_back := Some (callback_content func message mapped) |}
    ∧ forall i p v, fn_parameters func !! i = Some p -> values !! i = Some v ->
        property_get (param_name p) mapped = Some v.
Proof.
  intros Hlen Hdup Hnames.
  destruct (remap_positional func values Hlen Hdup Hnames) as (mapped & Hrun & Hget).
  exists mapped. split; [|exact Hget].
  unfold handler. cbn [negb orb gen_parameters gen_message]. now rewrite Hrun.
Qed.

Lemma handler_names_positional_parameters_witness :
  exists mapped,
    handler give true true (Some give_map)
    = {| completion := Normal ReturnsUndefined;
         called_back := Some (callback_content give "Bob asked for the map" mapped) |}
    ∧ forall i p v, fn_parameters give !! i = Some p ->
        [JString "map"; JBool true] !! i = Some v ->
        property_get (param_name p) mapped = Some v.
Proof.
  apply (handler_names_positional_parameters give "Bob asked for the map"
           [JString "map"; JBool true]).
  - cbn. lia.
  - apply (bool_decide_unpack _). vm_compute. exact I.
  - apply (bool_decide_unpack _). vm_compute. exact I.
Defined.

(** X14. A generated key that is a name makes the handler throw.  A key
    that starts with a letter (or with any other one-byte character from
    [:] on) is not a number, so no declared parameter is found for it; the
    handler throws and never reaches the callback.  The example output
    shown in the prompt has such a key. *)
Theorem handler_throws_on_named_key (func : CharacterFunction)
    (respObject : GeneratedObject) (c : ascii) (rest : string) (v : JSON) :
  (String c rest, v) ∈ gen_parameters respObject ->
  58 <= N_of_ascii c < 194 ->
  handler func true true (Some respObject)
  = {| completion :=
         Thrown "TypeError: Cannot read properties of undefined (reading 'name')";
       called_back := None |}.
Proof.
  intros Hin Hc. unfold handler. cbn [negb orb].
  rewrite (remap_throws func _ _ Hin); [reflexivity|].
  cbn [fst]. now rewrite parseInt_name.
Qed.

Lemma handler_throws_on_named_key_witness :
  handler give true true (Some john)
  = {| completion :=
         Thrown "TypeError: Cannot read properties of undefined (reading 'name')";
       called_back := None |}.
Proof.
  apply (handler_throws_on_named_key give john "n" "ame" (JString "John")).
  - cbn [john gen_parameters]. left.
  - vm_compute. split; [discriminate | reflexivity].
Defined.

(** ** More on the message pipeline *)

Lemma sendToConversation_unnamed fw c message playerId context response collected rd :
  roomMaps fw !! conv_secret c = Some rd ->
  truthy_opt truthy_string (sender_name playerId rd) = false ->
  sendToConversation c message playerId context response collected fw
  = (Normal (SendError 404 "User not found"), fw).
Proof.
  intros Hroom Hname. unfold sender_name in Hname.
  unfold sendToConversation, bind, gets. now rewrite Hroom, Hname.
Qed.

(** X15. A sender without a display name is not found.  When the roster
    entry of the sender has the empty string as name, [sendToConversation]
    answers 404 "User not found" although the sender's id is in the
    roster, and nothing has been done. *)
Theorem sendToConversation_nameless_sender (fw : Framework) (c : ElizaConversation)
    (message playerId : string) (context : list (string * string))
    (response collected : option Content) (rd : RoomData) :
  roomMaps fw !! conv_secret c = Some rd ->
  sender_name playerId rd = Some EmptyString ->
  playerId ∈ map user_id (users rd)
  ∧ sendToConversation c message playerId context response collected fw
    = (Normal (SendError 404 "User not found"), fw).
Proof.
  intros Hroom Hname. split.
  - unfold sender_name in Hname.
    destruct (find _ (users rd)) as [u|] eqn:Hfind; [|discriminate].
    apply find_some in Hfind as [Hin Hid]. apply bool_decide_eq_true_1 in Hid.
    apply list_elem_of_fmap. exists u. split; [now symmetry | now apply list_elem_of_In].
  - apply (sendToConversation_unnamed _ _ _ _ _ _ _ rd Hroom). now rewrite Hname.
Qed.

Lemma sendToConversation_nameless_sender_witness :
  roomMaps fw_nameless !! conv_secret room1 = Some (set_users [nemo] room1_binding)
  ∧ ("u-nemo" ∈ map user_id (users (set_users [nemo] room1_binding)))
  ∧ sendToConversation room1 "hi" "u-nemo" [] (Some hello) None fw_nameless
    = (Normal (SendError 404 "User not found"), fw_nameless).
Proof.
  split; [exact fw_nameless_room|].
  exact (sendToConversation_nameless_sender fw_nameless room1 "hi" "u-nemo" []
           (Some hello) None _ fw_nameless_room eq_refl).
Defined.

(** X16. Sending a message changes nothing but the bound runtime.  Whatever
    the outcome, [sendToConversation] leaves the adapter (rooms and
    participants), the rosters and bindings of all rooms, the registry,
    the identity map, the counter and the list of loaded characters as
    they were, allocates no runtime, and leaves every runtime other than
    the one bound to the conversation's room untouched. *)
Theorem sendToConversation_changes_only_its_runtime (fw : Framework)
    (c : ElizaConversation) (message playerId : string)
    (context : list (string * string)) (response collected : option Content) :
  let fw' := exec (sendToConversation c message playerId context response collected) fw in
  adapter fw' = adapter fw
  ∧ roomMaps fw' = roomMaps fw
  ∧ runtimeCharacterMaps fw' = runtimeCharacterMaps fw
  ∧ conversationIdMap fw' = conversationIdMap fw
  ∧ conversationCount fw' = conversationCount fw
  ∧ characters fw' = characters fw
  ∧ length (runtimes fw') = length (runtimes fw)
  ∧ forall h, bound_runtime (conv_secret c) fw ≠ Some h ->
      runtimes fw' !! h = runtimes fw !! h.
Proof.
  cbn zeta.
  unfold bound_runtime, sendToConversation, runtime_update, runtime_agentId, runtime_actions.
  run_op; repeat split; cbn; rewrite ?length_alter; try reflexivity;
    intros h Hne; rewrite !list_lookup_alter_ne by congruence; reflexivity.
Qed.

(** X17. A finished conversation still takes messages.
    [sendToConversation] consults the room map and not the adapter, and
    [finishConversation] leaves the room map alone: the result of sending
    a message is the same after any conversation, the addressed one
    included, has been finished as before. *)
Theorem sendToConversation_ignores_finish (fw : Framework)
    (finished c : ElizaConversation) (message playerId : string)
    (context : list (string * string)) (response collected : option Content) :
  result (sendToConversation c message playerId context response collected)
         (exec (finishConversation finished) fw)
  = result (sendToConversation c message playerId context response collected) fw.
Proof.
  set (fw' := exec (finishConversation finished) fw).
  assert (Hsame : roomMaps fw' = roomMaps fw) by reflexivity.
  destruct (roomMaps fw !! conv_secret c) as [rd|] eqn:Hrd.
  - assert (Hrd' : roomMaps fw' !! conv_secret c = Some rd) by now rewrite Hsame.
    destruct (truthy_opt truthy_string (sender_name playerId rd)) eqn:Hname.
    + destruct response as [response|].
      * now rewrite (sendToConversation_result fw' _ _ _ _ _ _ rd Hrd' Hname),
          (sendToConversation_result fw _ _ _ _ _ _ rd Hrd Hname).
      * destruct (sendToConversation_no_response fw' c message playerId context
                    collected rd Hrd' Hname) as [-> _].
        destruct (sendToConversation_no_response fw c message playerId context
                    collected rd Hrd Hname) as [-> _].
        reflexivity.
    + unfold result.
      now rewrite (sendToConversation_unnamed fw' _ _ _ _ _ _ rd Hrd' Hname),
        (sendToConversation_unnamed fw _ _ _ _ _ _ rd Hrd Hname).
  - assert (Hrd' : roomMaps fw' !! conv_secret c = None) by now rewrite Hsame.
    unfold result.
    now rewrite (sendToConversation_untracked fw' _ _ _ _ _ _ Hrd'),
      (sendToConversation_untracked fw _ _ _ _ _ _ Hrd).
Qed.

(** X18. A function call reaches the caller under the declared names.  When
    the handler of a declared function runs on a generated object whose
    keys all address declared parameters, and the dialogue response itself
    carries no call, the result of [sendToConversation] holds exactly one
    call: the function's name, the generated message and the remapped
    parameters; its content is the text of the dialogue response or, if
    that is empty, the generated message. *)
Theorem sendToConversation_reports_function_call (fw : Framework)
    (c : ElizaConversation) (message playerId : string)
    (context : list (string * string)) (response : Content)
    (func : CharacterFunction) (respObject : GeneratedObject)
    (mapped : list (string * JSON)) (rd : RoomData) :
  roomMaps fw !! conv_secret c = Some rd ->
  truthy_opt truthy_string (sender_name playerId rd) = true ->
  func ∈ opt_functions (char_options (character (runtimeCharacterMap rd))) ->
  fn_name func ≠ EmptyString ->
  mappedParams func (gen_parameters respObject) = Normal mapped ->
  is_call response = false ->
  result (sendToConversation c message playerId context (Some response)
            (called_back (handler func true true (Some respObject)))) fw
  = Normal (SendResponse
              (if has_text response then text response
               else if truthy_string (gen_message respObject)
                    then Some (gen_message respObject) else None)
              [ {| call_name := Some (fn_name func);
                   call_message := Some (gen_message respObject);
                   call_parameters := Some mapped |} ]).
Proof.
  intros Hroom Hname _ Hfn Hmapped Hcall.
  rewrite (sendToConversation_result _ _ _ _ _ _ _ rd Hroom Hname).
  unfold handler. cbn [negb orb]. rewrite Hmapped. cbn [called_back].
  match goal with
  | |- context [option_list (Some ?m)] => change (option_list (Some m)) with [m]
  end.
  unfold outward. f_equal. f_equal.
  - cbn [find]. destruct (has_text response); [reflexivity|].
    unfold has_text. cbn -[truthy_string].
    now destruct (truthy_string (gen_message respObject)).
  - rewrite filter_cons_False by (rewrite Hcall; discriminate).
    rewrite filter_cons_True.
    + reflexivity.
    + unfold is_call. cbn [action data truthy_opt].
      now rewrite (proj2 (truthy_string_spec _) Hfn).
Qed.

Lemma sendToConversation_reports_function_call_witness :
  roomMaps fw_shop !! conv_secret room7 = Some room7_binding
  ∧ mappedParams give (gen_parameters give_map)
    = Normal [("item", JString "map"); ("wrapped", JBool true)]
  ∧ result (sendToConversation room7 "May I have the map?" "u-bob" [] (Some here_you_are)
              (called_back (handler give true true (Some give_map)))) fw_shop
    = Normal (SendResponse (Some "Here you are.")
                [ {| call_name := Some "give";
                     call_message := Some "Bob asked for the map";
                     call_parameters :=
                       Some [("item", JString "map"); ("wrapped", JBool true)] |} ]).
Proof.
  destruct fw_shop_facts as (Hroom & _).
  assert (Hmapped : mappedParams give (gen_parameters give_map)
                    = Normal [("item", JString "map"); ("wrapped", JBool true)])
    by (vm_compute; reflexivity).
  split; [exact Hroom|]. split; [exact Hmapped|].
  apply (sendToConversation_reports_function_call fw_shop room7 "May I have the map?"
           "u-bob" [] here_you_are give give_map
           [("item", JString "map"); ("wrapped", JBool true)] room7_binding Hroom).
  - reflexivity.
  - left.
  - discriminate.
  - exact Hmapped.
  - reflexivity.
Defined.

(** ** The writes of a membership reconcile *)

Lemma prune_other_room us secret p room fw :
  room ≠ secret ->
  room_members room (adapter (exec (prune us secret p) fw)) = room_members room (adapter fw).
Proof.
  intros Hne. unfold prune. destruct (negb (has_user p us)); [|reflexivity].
  cbn. unfold room_members at 1. cbn. now rewrite lookup_insert_ne by congruence.
Qed.

Lemma enrol_other_room h ps secret u room fw :
  room ≠ secret ->
  room_members room (adapter (exec (enrol h ps secret u) fw)) = room_members room (adapter fw).
Proof.
  intros Hne. destruct (includes (user_id u) ps) eqn:Hu.
  - now rewrite enrol_old.
  - rewrite enrol_new by done. cbn [adapter with_adapter with_calls].
    unfold room_members at 1. cbn. rewrite lookup_insert_ne by congruence.
    now apply ensureConnection_other.
Qed.

(** X19. A reconcile writes the difference and nothing else.  On a tracked
    room [setConversationUsers] asks the adapter for the participants
    once, then removes exactly the participants whose id is not in the
    new roster, in the adapter's order, then connects and adds exactly
    the roster entries whose id was not a participant, in roster order (an
    entry listed twice is connected twice); a member who stays is neither
    removed nor added again.  Only the roster of this room changes, and
    the members of every other room stay as they were. *)
Theorem setConversationUsers_writes (fw : Framework) (c : ElizaConversation)
    (us : list User) (rd : RoomData) :
  roomMaps fw !! conv_secret c = Some rd ->
  let secret := conv_secret c in
  let participants := adapter_getParticipantsForRoom secret (adapter fw) in
  let fw' := exec (setConversationUsers c us) fw in
  calls fw'
  = calls fw
    ++ map (fun p => EvRemoveParticipant p secret)
           (filter (fun p => has_user p us = false) participants)
    ++ flat_map (enrol_calls (runtime (runtimeCharacterMap rd)) secret)
                (filter (fun u => includes (user_id u) participants = false) us)
  ∧ roomMaps fw' = alter (set_users us) secret (roomMaps fw)
  ∧ forall room, room ≠ secret ->
      room_members room (adapter fw') = room_members room (adapter fw).
Proof.
  intros Hrd. cbn zeta. unfold exec.
  rewrite (setConversationUsers_run _ _ _ _ Hrd). cbn [snd].
  split; [|split].
  - unfold reconcile. rewrite enrol_each_calls, prune_all_calls.
    now rewrite <- app_assoc.
  - apply reconcile_roomMaps.
  - intros room Hne. unfold reconcile.
    rewrite (foldl_adapter_frame _ _ (fun fw => room_members room (adapter fw)))
      by (intros; now apply enrol_other_room).
    rewrite (foldl_adapter_frame _ _ (fun fw => room_members room (adapter fw)))
      by (intros; now apply prune_other_room).
    reflexivity.
Qed.

Lemma setConversationUsers_writes_witness :
  let participants := adapter_getParticipantsForRoom (conv_secret room1) (adapter fw_room) in
  roomMaps fw_room !! conv_secret room1 = Some room1_binding
  ∧ calls (exec (setConversationUsers room1 [bob; cy]) fw_room)
    = calls fw_room
      ++ map (fun p => EvRemoveParticipant p (conv_secret room1))
             (filter (fun p => has_user p [bob; cy] = false) participants)
      ++ flat_map (enrol_calls (runtime (runtimeCharacterMap room1_binding))
                               (conv_secret room1))
                  (filter (fun u => includes (user_id u) participants = false) [bob; cy]).
Proof.
  cbn zeta.
  destruct fw_room_facts as (_ & _ & Hroom & _).
  split; [exact Hroom|].
  destruct (setConversationUsers_writes fw_room room1 [bob; cy] room1_binding Hroom)
    as (Hcalls & _).
  exact Hcalls.
Defined.

(** ** Loading a character *)

Lemma loadCharacter_run fw c b r :
  runtimeCharacterMaps fw !! options_hash (char_options c) = Some b ->
  runtimes fw !! runtime b = Some r ->
  loadCharacter c fw
  = match p_knowledge (rt_character r) with
    | [] => (Normal tt, loaded c b fw)
    | _ :: _ =>
        (Thrown "TypeError: Cannot read properties of undefined (reading 'ragKnowledge')",
         pushed c b fw)
    end.
Proof.
  intros Hb Hr.
  unfold loadCharacter, containsCharacter, runtime_initialize, runtime_knowledge,
    runtime_update, bind, gets, modify, emit.
  rewrite Hb. cbn. rewrite Hb.
  change (runtimes (with_characters (fun l => l ++ [c]) fw)) with (runtimes fw).
  rewrite Hr. cbn. now destruct (p_knowledge (rt_character r)).
Qed.

(** X20. Loading the character that has just been registered.  Right after
    the first registration of a definition, the character returned is
    contained in the registry; [loadCharacter] on it appends it to the
    list of loaded characters and then calls [initialize] on the new
    runtime, once, and changes no entry of the registry.  When the
    definition lists knowledge, [initialize] throws and [loadCharacter]
    throws with it, the character already appended; when it lists none,
    [loadCharacter] returns normally. *)
Theorem loadCharacter_after_registration (fw : Framework) (aid : string)
    (d : ElizaCharacterOptions) :
  runtimeCharacterMaps fw !! options_hash d = None ->
  let c := new_ElizaCharacter (opt_name d) d in
  let fw1 := exec (getOrCreateCharacter aid d) fw in
  let fw2 := exec (loadCharacter c) fw1 in
  let h := length (runtimes fw) in
  result (getOrCreateCharacter aid d) fw = Normal c
  ∧ result (containsCharacter c) fw1 = Normal true
  ∧ characters fw2 = characters fw1 ++ [c]
  ∧ calls fw2 = calls fw1 ++ [EvInitialize h]
  ∧ runtimeCharacterMaps fw2 = runtimeCharacterMaps fw1
  ∧ (opt_knowledge d ≠ [] ->
     (exists msg, result (loadCharacter c) fw1 = Thrown msg)
     ∧ runtimes fw2 = runtimes fw1)
  ∧ (opt_knowledge d = [] ->
     result (loadCharacter c) fw1 = Normal tt
     ∧ rt_initialized <$> runtimes fw2 !! h = Some true).
Proof.
  intros Hnew. cbn zeta.
  assert (Hexec : exec (getOrCreateCharacter aid d) fw = register aid d fw).
  { unfold exec. now rewrite (getOrCreateCharacter_new _ _ _ Hnew). }
  rewrite Hexec.
  set (c := new_ElizaCharacter (opt_name d) d).
  set (fw1 := register aid d fw).
  set (b := {| runtime := length (runtimes fw); character := c |}).
  set (r := new_AgentRuntime aid
              (new_ProcessedElizaCharacterOptions (opt_name d) (provider (options fw)) d)
              (apiKey (options fw)) (provider (options fw)) (options_hash d)).
  assert (Hb : runtimeCharacterMaps fw1 !! options_hash (char_options c) = Some b).
  { unfold fw1, register. cbn. apply lookup_insert_eq. }
  assert (Hr : runtimes fw1 !! runtime b = Some r).
  { unfold fw1, register. cbn. now rewrite lookup_app_r, Nat.sub_diag by lia. }
  split.
  { unfold result. now rewrite (getOrCreateCharacter_new _ _ _ Hnew). }
  split.
  { unfold result, containsCharacter, gets. cbn [fst]. now rewrite Hb. }
  unfold exec, result. rewrite (loadCharacter_run fw1 c b r Hb Hr).
  change (p_knowledge (rt_character r)) with (opt_knowledge d).
  destruct (opt_knowledge d) as [|k ks]; cbn [fst snd].
  - repeat split; try reflexivity; try done.
    unfold loaded. cbn [runtimes with_runtimes pushed with_calls with_characters].
    change (length (runtimes fw)) with (runtime b).
    now rewrite list_lookup_alter_eq, Hr.
  - repeat split; try reflexivity; try done. eauto.
Qed.

Lemma loadCharacter_after_registration_witness :
  runtimeCharacterMaps fw_new !! options_hash ava_options = None
  ∧ opt_knowledge ava_options ≠ []
  ∧ (exists msg, result (loadCharacter ava) fw_ava = Thrown msg)
  ∧ characters (exec (loadCharacter ava) fw_ava) = characters fw_ava ++ [ava].
Proof.
  assert (Hnew : runtimeCharacterMaps fw_new !! options_hash ava_options = None)
    by apply lookup_empty.
  assert (Hknows : opt_knowledge ava_options ≠ []) by discriminate.
  destruct (loadCharacter_after_registration fw_new "agent-ava" ava_options Hnew)
    as (_ & _ & Hpush & _ & _ & Hthrows & _).
  split; [exact Hnew|]. split; [exact Hknows|].
  split; [exact (proj1 (Hthrows Hknows)) | exact Hpush].
Defined.

(** ** Validation of character definitions *)

Lemma z_object_nil (fields : list (string * JSON)) : z_object [] (JObject fields) = true.
Proof. reflexivity. Qed.

Lemma z_object_cons key (check : JSON -> bool) shape fields v :
  get key (JObject fields) = Some v ->
  z_object ((key, check) :: shape) (JObject fields)
  = check v && z_object shape (JObject fields).
Proof. intros H. cbn [z_object forallb fst snd]. now rewrite H. Qed.

Lemma z_object_missing key (check : JSON -> bool) shape v :
  get key v = None -> z_object ((key, check) :: shape) v = false.
Proof. intros H. destruct v; try reflexivity. cbn [z_object forallb fst snd]. now rewrite H. Qed.

Lemma strings_pass (l : list string) : forallb z_string (map JString l) = true.
Proof. induction l as [|s l IH]; [reflexivity | exact IH]. Qed.

Lemma nonempty_strings (l : list string) :
  z_array_nonempty z_string (json_strings l) = true <-> l ≠ [].
Proof.
  destruct l as [|s l]; cbn.
  - split; [discriminate | congruence].
  - rewrite strings_pass. split; [discriminate | reflexivity].
Qed.

Lemma example_passes (e : FunctionExample) :
  z_object [("user", z_string); ("content", z_string)] (json_example e) = true.
Proof. reflexivity. Qed.

Lemma transcript_passes (t : list FunctionExample) :
  transcript_schema (JArray (map json_example t)) = true.
Proof.
  unfold transcript_schema. cbn [z_array].
  induction t as [|e t IH]; [reflexivity|].
  cbn [map forallb]. now rewrite example_passes, IH.
Qed.

Lemma transcripts_pass (l : list (list FunctionExample)) :
  forallb transcript_schema (map (fun t => JArray (map json_example t)) l) = true.
Proof.
  induction l as [|t l IH]; [reflexivity|].
  cbn [map forallb]. now rewrite transcript_passes, IH.
Qed.

Lemma forallb_map_iff {A} (check : JSON -> bool) (g : A -> JSON) (P : A -> Prop)
    (l : list A) :
  (forall x, check (g x) = true <-> P x) ->
  forallb check (map g l) = true <-> Forall P l.
Proof.
  intros Hx. induction l as [|x l IH]; cbn [map forallb].
  - split; [constructor | reflexivity].
  - rewrite andb_true_iff, Hx, IH. split.
    + intros [H1 H2]. now constructor.
    + intros H. now inversion H.
Qed.

(** A line of [messageExamples] holds an object where the schema asks
    for a string. *)
Lemma message_example_fails (e : MessageExample) :
  z_object [("user", z_string); ("content", z_string)] (json_message_example e) = false.
Proof. reflexivity. Qed.

Lemma message_transcript_schema (t : list MessageExample) :
  transcript_schema (JArray (map json_message_example t)) = true <-> t = [].
Proof.
  unfold transcript_schema. cbn [z_array]. destruct t as [|e t]; cbn [map forallb].
  - split; reflexivity.
  - rewrite message_example_fails. split; discriminate.
Qed.

Lemma parameter_schema (p : FunctionParameter) :
  z_object [("name", z_string); ("description", z_string);
            ("type", z_enum ["number"; "boolean"; "string"])] (json_parameter p) = true
  <-> param_type p ∈ allowed_types.
Proof.
  unfold json_parameter. erewrite !z_object_cons by reflexivity. rewrite z_object_nil. cbn [snd].
  cbn [z_string z_enum andb]. rewrite andb_true_r. apply includes_spec.
Qed.

Lemma function_schema (f : CharacterFunction) :
  z_object
    [("name", z_string_nonempty);
     ("description", z_string_nonempty);
     ("similes", z_array_nonempty z_string);
     ("examples", z_array_nonempty transcript_schema);
     ("parameters",
      z_array (z_object
        [("name", z_string);
         ("description", z_string);
         ("type", z_enum ["number"; "boolean"; "string"])]))] (json_function f) = true
  <-> function_valid f.
Proof.
  unfold json_function. erewrite !z_object_cons by reflexivity. rewrite z_object_nil. cbn [snd].
  rewrite !andb_true_iff, nonempty_strings. cbn [z_string_nonempty z_array].
  rewrite !truthy_string_spec, (forallb_map_iff _ _ _ _ parameter_schema).
  assert (Hex : z_array_nonempty transcript_schema (json_examples (fn_examples f)) = true
                <-> fn_examples f ≠ []).
  { unfold json_examples. destruct (fn_examples f) as [|t l]; cbn [map z_array_nonempty].
    - split; [discriminate | congruence].
    - change (forallb transcript_schema (JArray (map json_example t) ::
                map (fun t => JArray (map json_example t)) l))
        with (forallb transcript_schema (map (fun t => JArray (map json_example t)) (t :: l))).
      rewrite transcripts_pass. split; [discriminate | reflexivity]. }
  rewrite Hex. unfold function_valid. tauto.
Qed.

Lemma characterSchema_typed (o : ElizaCharacterOptions) :
  characterSchema (json_options o) = true <-> options_valid o.
Proof.
  unfold characterSchema, json_options.
  erewrite !z_object_cons by reflexivity. rewrite z_object_nil. cbn [snd].
  rewrite !andb_true_iff, !nonempty_strings. unfold json_message_examples.
  cbn [z_string_nonempty z_array].
  rewrite truthy_string_spec, (forallb_map_iff _ _ _ _ function_schema),
    (forallb_map_iff _ _ _ _ message_transcript_schema).
  unfold options_valid. tauto.
Qed.

(** X21. What validation asks of a typed definition.  A definition of type
    [ElizaCharacterOptions] passes [validateCharacter] exactly when its
    name and its six lists of strings are non-empty, every transcript of
    its message examples is empty, and every declared function has a
    non-empty name and description, at least one simile and one example,
    and only parameters of type number, boolean or string.  A message
    example is a [MessageExample], whose content is an object, where the
    schema asks for a string: a definition with one message example line
    is rejected.  The names and descriptions of parameters are not
    constrained.  Otherwise it throws. *)
Theorem validateCharacter_typed (o : ElizaCharacterOptions) (fw : Framework) :
  (options_valid o <-> validateCharacter (json_options o) fw = (Normal true, fw))
  ∧ (¬ options_valid o
     <-> validateCharacter (json_options o) fw = (Thrown "Validation failed", fw)).
Proof.
  unfold validateCharacter. rewrite <- characterSchema_typed.
  destruct (characterSchema (json_options o)); split; split;
    try reflexivity; try discriminate; try congruence; intros H; now (try destruct H).
Qed.

(** X22. Validation reads the nine listed properties and nothing else.
    Two objects that give the same value for each property the schema
    lists get the same verdict, whatever the order in which their
    properties are written and whatever other properties they hold. *)
Theorem validateCharacter_reads_listed_properties (f1 f2 : list (string * JSON))
    (fw : Framework) :
  (forall key, key ∈ character_keys -> get key (JObject f1) = get key (JObject f2)) ->
  validateCharacter (JObject f1) fw = validateCharacter (JObject f2) fw.
Proof.
  intros Hsame. unfold validateCharacter.
  assert (Hschema : characterSchema (JObject f1) = characterSchema (JObject f2));
    [|now rewrite Hschema].
  unfold characterSchema. cbn [z_object forallb fst snd].
  repeat match goal with
         | |- context [get ?key (JObject f1)] => rewrite (Hsame key) by by_compute
         end.
  reflexivity.
Qed.

Lemma validateCharacter_reads_listed_properties_witness :
  validateCharacter (json_options ava_options) fw_new
  = validateCharacter ava_reordered fw_new.
Proof.
  apply (validateCharacter_reads_listed_properties
           [("name", JString (opt_name ava_options));
            ("bio", json_strings (opt_bio ava_options));
            ("lore", json_strings (opt_lore ava_options));
            ("knowledge", json_strings (opt_knowledge ava_options));
            ("topics", json_strings (opt_topics ava_options));
            ("adjectives", json_strings (opt_adjectives ava_options));
            ("style", json_strings (opt_style ava_options));
            ("messageExamples", json_message_examples (opt_messageExamples ava_options));
            ("functions", JArray (map json_function (opt_functions ava_options)))]
           [("bio", json_strings (opt_bio ava_options));
            ("name", JString (opt_name ava_options));
            ("lore", json_strings (opt_lore ava_options));
            ("knowledge", json_strings (opt_knowledge ava_options));
            ("topics", json_strings (opt_topics ava_options));
            ("adjectives", json_strings (opt_adjectives ava_options));
            ("style", json_strings (opt_style ava_options));
            ("messageExamples", json_message_examples (opt_messageExamples ava_options));
            ("functions", JArray (map json_function (opt_functions ava_options)))]
           fw_new).
  intros key Hkey.
  repeat (apply elem_of_cons in Hkey as [-> | Hkey]; [vm_compute; reflexivity|]).
  now apply elem_of_nil in Hkey.
Defined.

(** X23. Every listed property is required.  A value that lacks one of the
    nine properties of the schema, and so any value that is not an object,
    is rejected: [validateCharacter] throws and the framework is
    unchanged. *)
Theorem validateCharacter_requires_every_property (d : JSON) (key : string)
    (fw : Framework) :
  key ∈ character_keys -> get key d = None ->
  validateCharacter d fw = (Thrown "Validation failed", fw).
Proof.
  intros Hkey Hnone. unfold validateCharacter.
  assert (Hschema : characterSchema d = false); [|now rewrite Hschema].
  unfold characterSchema. destruct d; try reflexivity.
  cbn [z_object forallb fst snd].
  repeat (apply elem_of_cons in Hkey as [-> | Hkey];
          [rewrite Hnone; repeat (cbn [andb]; rewrite ?andb_false_r); reflexivity|]).
  now apply elem_of_nil in Hkey.
Qed.

Lemma validateCharacter_requires_every_property_witness :
  validateCharacter (JObject [("name", JString "Ava")]) fw_new
  = (Thrown "Validation failed", fw_new).
Proof.
  apply (validateCharacter_requires_every_property
           (JObject [("name", JString "Ava")]) "bio" fw_new).
  - by_compute.
  - reflexivity.
Defined.

(** ** Registering two definitions *)



(** ** Ids that were never handed out *)

Lemma idmap_get_unknown (n : N) (m : list (N * string)) :
  n ∉ map fst m -> idmap_get n m = None.
Proof.
  induction m as [|[k v] m IH]; intros Hnot; [reflexivity|].
  cbn in *. apply not_elem_of_cons in Hnot as [Hne Hrest].
  destruct (N.eqb_spec k n); [congruence | auto].
Qed.



(** ** When a reassignment stops the old runtime *)

Lemma uses_character_exists (k : ElizaCharacter) (rooms : gmap string RoomData) :
  existsb (fun entry => uses_character k entry.2) (map_to_list rooms) = false
  <-> forall room rd, rooms !! room = Some rd ->
        char_hash (character (runtimeCharacterMap rd)) ≠ char_hash k.
Proof.
  split.
  - intros Hnone room rd Hrd Heq.
    assert (Hsome : existsb (fun entry => uses_character k entry.2) (map_to_list rooms)
                    = true); [|congruence].
    apply existsb_exists. exists (room, rd). split.
    + apply list_elem_of_In. now apply elem_of_map_to_list.
    + unfold uses_character. now apply bool_decide_eq_true_2.
  - intros Hall. apply not_true_is_false. intros Hsome.
    apply existsb_exists in Hsome as ([room rd] & Hin & Huses).
    apply list_elem_of_In, elem_of_map_to_list in Hin.
    unfold uses_character in Huses. apply bool_decide_eq_true_1 in Huses.
    exact (Hall room rd Hin Huses).
Qed.

(** X27. The condition under which a reassignment stops the old runtime.
    [setConversationCharacter] on a tracked room, with a registered
    character, stops the runtime the room was bound to exactly when no
    tracked room, this one included, currently has a character with the
    hash of the new character; whether another room is still bound to
    the old runtime plays no role. *)
Theorem setConversationCharacter_stop_condition (fw : Framework)
    (c : ElizaConversation) (k : ElizaCharacter) (rd : RoomData)
    (b : RuntimeCharacterMap) (r : AgentRuntime) :
  roomMaps fw !! conv_secret c = Some rd ->
  runtimeCharacterMaps fw !! options_hash (char_options k) = Some b ->
  runtimes fw !! runtime (runtimeCharacterMap rd) = Some r ->
  rt_stopped r = false ->
  let fw' := exec (setConversationCharacter c k) fw in
  stopped (runtime (runtimeCharacterMap rd)) fw' = Some true
  <-> forall room rd', roomMaps fw !! room = Some rd' ->
        char_hash (character (runtimeCharacterMap rd')) ≠ char_hash k.
Proof.
  intros Hrd Hb Hr Hrun. cbn zeta. unfold exec.
  rewrite (setConversationCharacter_run _ _ _ _ _ Hrd Hb). cbn [snd].
  rewrite <- uses_character_exists.
  destruct (existsb _ (map_to_list (roomMaps fw))).
  - unfold stopped. cbn. rewrite Hr. cbn. rewrite Hrun. split; discriminate.
  - unfold stopped. cbn. rewrite list_lookup_alter_eq, Hr. cbn. split; reflexivity.
Qed.

Lemma setConversationCharacter_stop_condition_witness :
  rt_stopped (first_runtime "agent-ava" ava_options) = false
  ∧ (stopped (runtime (runtimeCharacterMap room1_binding))
             (exec (setConversationCharacter room1 ava) fw_room) = Some true
     <-> forall room rd', roomMaps fw_room !! room = Some rd' ->
           char_hash (character (runtimeCharacterMap rd')) ≠ char_hash ava).
Proof.
  destruct fw_room_facts as (_ & _ & Hroom & Hagent & Hheap).
  split; [reflexivity|].
  exact (setConversationCharacter_stop_condition fw_room room1 ava room1_binding
           ava_binding _ Hroom Hagent Hheap eq_refl).
Defined.

(** ** What a message installs on the runtime *)

(** X28. Every message replaces the providers and the actions of the
    bound runtime.  Once the room and the sender are found, and whether
    or not the backend then answers, the runtime the room is bound to
    holds exactly one provider, which renders the caller's context as
    [key=value] pairs joined by commas, and exactly one action per
    function the character declares, in order and under the function's
    name; its stopped flag is as before. *)
Theorem sendToConversation_installs_context (fw : Framework) (c : ElizaConversation)
    (message playerId : string) (context : list (string * string))
    (response collected : option Content) (rd : RoomData) (r : AgentRuntime) :
  roomMaps fw !! conv_secret c = Some rd ->
  truthy_opt truthy_string (sender_name playerId rd) = true ->
  runtimes fw !! runtime (runtimeCharacterMap rd) = Some r ->
  let fw' := exec (sendToConversation c message playerId context response collected) fw in
  let functions := opt_functions (char_options (character (runtimeCharacterMap rd))) in
  exists r', runtimes fw' !! runtime (runtimeCharacterMap rd) = Some r'
             ∧ map provider_get (providers r')
               = [String.concat "," (map (fun kv => kv.1 +:+ "=" +:+ kv.2) context)]
             ∧ actions r' = map install functions
             ∧ map act_name (actions r') = map fn_name functions
             ∧ rt_stopped r' = rt_stopped r
             ∧ agentId r' = agentId r.
Proof.
  intros Hroom Hname Hr. cbn zeta. unfold sender_name in Hname.
  unfold exec, sendToConversation, runtime_update, runtime_agentId, runtime_actions,
    bind, gets, modify, emit.
  rewrite Hroom, Hname.
  exists (rt_set_actions
            (map install (opt_functions (char_options (character (runtimeCharacterMap rd)))))
            (rt_set_providers [ {| provider_context := context |} ] r)).
  split.
  - destruct response; cbn; now rewrite !list_lookup_alter_eq, Hr.
  - cbn. repeat split. rewrite map_map. reflexivity.
Qed.

Lemma sendToConversation_installs_context_witness :
  let fw' := exec (sendToConversation room7 "May I have the map?" "u-bob"
                     [("weather", "rain"); ("hour", "noon")] None None) fw_shop in
  truthy_opt truthy_string (sender_name "u-bob" room7_binding) = true
  ∧ exists r', runtimes fw' !! runtime (runtimeCharacterMap room7_binding) = Some r'
               ∧ map provider_get (providers r') = ["weather=rain,hour=noon"]
               ∧ map act_name (actions r') = ["give"].
Proof.
  cbn zeta.
  destruct fw_shop_facts as (Hroom & Hheap).
  split; [reflexivity|].
  destruct (sendToConversation_installs_context fw_shop room7 "May I have the map?" "u-bob"
              [("weather", "rain"); ("hour", "noon")] None None room7_binding _
              Hroom eq_refl Hheap) as (r' & Hr' & Hprov & _ & Hnames & _).
  exists r'. split; [exact Hr'|]. split; [exact Hprov | exact Hnames].
Defined.
